(** * LinkedIn jobs scraper: a shallow embedding of [selenium-linkedin.py]

    The program drives a remote browser.  Every call it makes on the
    Selenium driver is an interaction with a page whose behaviour the
    program does not control, so the embedding takes the browser as a
    parameter: a [Browser] answers each driver call, given everything that
    happened before in the run.  The functions of the source become
    computations that read the past of the run, emit the events they perform
    and either return a value or raise a Python exception.

    Not embedded: argument and credential loading ([get_args],
    [get_credentials]), [build_search_url] (its result is the [search_url]
    argument below), [make_driver] and the [logging] calls, none of which
    talks to the page or changes control flow. *)

From Stdlib Require Import ZArith String Ascii List Lia DecimalString.
From stdpp Require Import base gmap strings list.

Local Open Scope string_scope.
Local Open Scope Z_scope.
Local Open Scope list_scope.

(** ** Python strings *)

Module PyStr.

(** [str.isspace] on the code points below 256. *)
Definition is_space (c : ascii) : bool :=
  let n := nat_of_ascii c in
  ((9 <=? n) && (n <=? 13) || (28 <=? n) && (n <=? 32)
   || (n =? 133) || (n =? 160))%nat.

Fixpoint lstrip (s : string) : string :=
  match s with
  | EmptyString => EmptyString
  | String c s' => if is_space c then lstrip s' else s
  end.

Fixpoint rstrip (s : string) : string :=
  match s with
  | EmptyString => EmptyString
  | String c s' =>
      match rstrip s' with
      | EmptyString => if is_space c then EmptyString else String c EmptyString
      | r => String c r
      end
  end.

(** [s.strip()] *)
Definition strip (s : string) : string := rstrip (lstrip s).

(** [s.startswith(p)] *)
Definition startswith (s p : string) : bool := String.prefix p s.

(** [s.split(sep)] for a one-character separator: never the empty list. *)
Fixpoint split (sep : ascii) (s : string) : list string :=
  match s with
  | EmptyString => [EmptyString]
  | String c s' =>
      if Ascii.eqb c sep then EmptyString :: split sep s'
      else match split sep s' with
           | x :: xs => String c x :: xs
           | [] => [String c EmptyString]
           end
  end.

(** [l[0]] on the result of a [split]. *)
Definition item0 (l : list string) : string := hd EmptyString l.

(** [str(n)] for an integer. *)
Definition of_int (n : Z) : string := NilZero.string_of_int (Z.to_int n).

(** Truth value of an [Optional[str]]: [None] and [""] are false. *)
Definition truthy (o : option string) : bool :=
  match o with
  | Some s => negb (String.eqb s "")
  | None => false
  end.

Fixpoint contains_char (c : ascii) (s : string) : bool :=
  match s with
  | EmptyString => false
  | String a s' => Ascii.eqb a c || contains_char c s'
  end.

End PyStr.

(** ** The driver interface *)

Inductive By := ID | XPATH | CSS_SELECTOR | TAG_NAME.

(** A [WebElement] handle. *)
Definition element := nat.

(** What a search is run on: the driver or an element. *)
Inductive scope := Driver | Within (e : element).

(** The expected conditions the program waits for. *)
Inductive condition :=
  | element_to_be_clickable
  | presence_of_element_located
  | visibility_of_element_located.

Inductive keys := Text (s : string) | ESCAPE.

(** The exception classes the program tells apart: [TimeoutException] and
    every other [Exception]. *)
Inductive exn := TimeoutException | WebDriverException | OtherException.

Inductive result (A : Type) := Ok (a : A) | Raise (e : exn).
Arguments Ok {A} a.
Arguments Raise {A} e.

(** The dictionary [scrape_job] returns. *)
Record job_record := {
  job_title : option string;
  company_name : option string;
  company_location : option string;
  work_method : option string;
  post_date : option string;
  work_time : option string;
  job_description : option string;
  url : string
}.

(** Functions whose entry is recorded in the trace, so that "is invoked"
    can be read off a run. *)
Inductive fn :=
  | F_login
  | F_clear_signin_overlay_or_reauth
  | F_harvest
  | F_scrape_job (link : string).

(** One event per driver call, with the answer it got. *)
Inductive event :=
  | Ev_get (u : string) (r : result unit)
  | Ev_find_elements (sc : scope) (by_ : By) (sel : string) (r : result (list element))
  | Ev_find_element (by_ : By) (sel : string) (r : result element)
  | Ev_until (sc : scope) (timeout : Z) (c : condition) (by_ : By) (sel : string)
             (r : result element)
  | Ev_execute_script (script : string) (e : element) (r : result unit)
  | Ev_click (e : element) (r : result unit)
  | Ev_send_keys (e : element) (k : keys) (r : result unit)
  | Ev_text (e : element) (r : result string)
  | Ev_get_attribute (e : element) (name : string) (r : result (option string))
  | Ev_page_source (r : result string)
  | Ev_current_url (r : result string)
  | Ev_quit (r : result unit)
  | Ev_to_csv (out : string) (rows : list job_record) (r : result unit)
  | Ev_sleep (ms : Z)
  | Ev_call (f : fn).

Definition trace := list event.

(** The page and the browser: the answer to each call may depend on the
    whole past of the run. *)
Record Browser := {
  on_get : trace -> string -> result unit;
  on_find_elements : trace -> scope -> By -> string -> result (list element);
  on_find_element : trace -> By -> string -> result element;
  on_until : trace -> scope -> Z -> condition -> By -> string -> result element;
  on_execute_script : trace -> string -> element -> result unit;
  on_click : trace -> element -> result unit;
  on_send_keys : trace -> element -> keys -> result unit;
  on_text : trace -> element -> result string;
  on_get_attribute : trace -> element -> string -> result (option string);
  on_page_source : trace -> result string;
  on_current_url : trace -> result string;
  on_quit : trace -> result unit;
  on_to_csv : trace -> string -> list job_record -> result unit
}.

(** ** Computations *)

(** A computation reads the past of the run and gives its outcome together
    with the events it performed. *)
Definition M (A : Type) : Type := trace -> result A * trace.

Definition run {A} (m : M A) (past : trace) : result A * trace := m past.

Definition ret {A} (a : A) : M A := fun _ => (Ok a, []).

(** Sequencing: the second computation sees the events of the first in its
    past; an exception ends the sequence. *)
Definition bind {A B} (m : M A) (f : A -> M B) : M B := fun past =>
  match m past with
  | (Ok a, t1) => let '(r, t2) := f a (past ++ t1) in (r, t1 ++ t2)
  | (Raise e, t1) => (Raise e, t1)
  end.

Notation "'let*' x ':=' m 'in' k" := (bind m (fun x => k))
  (at level 10, x name, m at level 100, k at level 200).
Notation "m >> k" := (bind m (fun _ => k))
  (at level 100, k at level 200, right associativity).

(** [raise e] *)
Definition raise {A} (e : exn) : M A := fun _ => (Raise e, []).

(** [try: m except Exception: ...] with the outcome handed to the code that
    follows. *)
Definition try {A} (m : M A) : M (result A) := fun past =>
  let '(r, t) := m past in (Ok r, t).

(** [try: m finally: f] *)
Definition finally {A} (m : M A) (f : M unit) : M A := fun past =>
  let '(r, t1) := m past in
  match f (past ++ t1) with
  | (Ok _, t2) => (r, t1 ++ t2)
  | (Raise e, t2) => (Raise e, t1 ++ t2)
  end.

Definition emit (e : event) : M unit := fun _ => (Ok tt, [e]).

Definition ask {A} (answer : trace -> result A) (ev : result A -> event) : M A :=
  fun past => let r := answer past in (r, [ev r]).

Section Program.

Variable B : Browser.

(** *** Driver calls *)

Definition get (u : string) : M unit :=
  ask (fun h => on_get B h u) (Ev_get u).
Definition find_elements (sc : scope) (by_ : By) (sel : string) : M (list element) :=
  ask (fun h => on_find_elements B h sc by_ sel) (Ev_find_elements sc by_ sel).
Definition find_element (by_ : By) (sel : string) : M element :=
  ask (fun h => on_find_element B h by_ sel) (Ev_find_element by_ sel).
(** [WebDriverWait(sc, timeout).until(EC.c((by, sel)))] *)
Definition until (sc : scope) (timeout : Z) (c : condition) (by_ : By) (sel : string)
  : M element :=
  ask (fun h => on_until B h sc timeout c by_ sel) (Ev_until sc timeout c by_ sel).
Definition execute_script (script : string) (e : element) : M unit :=
  ask (fun h => on_execute_script B h script e) (Ev_execute_script script e).
Definition click (e : element) : M unit :=
  ask (fun h => on_click B h e) (Ev_click e).
Definition send_keys (e : element) (k : keys) : M unit :=
  ask (fun h => on_send_keys B h e k) (Ev_send_keys e k).
Definition text (e : element) : M string :=
  ask (fun h => on_text B h e) (Ev_text e).
Definition get_attribute (e : element) (name : string) : M (option string) :=
  ask (fun h => on_get_attribute B h e name) (Ev_get_attribute e name).
Definition page_source : M string := ask (on_page_source B) Ev_page_source.
Definition current_url : M string := ask (on_current_url B) Ev_current_url.
Definition quit : M unit := ask (on_quit B) Ev_quit.
Definition to_csv (out : string) (rows : list job_record) : M unit :=
  ask (fun h => on_to_csv B h out rows) (Ev_to_csv out rows).
(** [time.sleep], in milliseconds. *)
Definition sleep (ms : Z) : M unit := emit (Ev_sleep ms).
Definition enter (f : fn) : M unit := emit (Ev_call f).

(** *** Utils *)

Definition scroll_into_view : string :=
  "arguments[0].scrollIntoView({block:'center'});".

Definition try_click (by_ : By) (sel : string) (timeout : Z) : M bool :=
  let* r := try (let* elem := until Driver timeout element_to_be_clickable by_ sel in
                 execute_script scroll_into_view elem >>
                 click elem) in
  match r with
  | Ok _ => ret true
  | Raise _ => ret false
  end.

Fixpoint first_text (sc : scope) (selectors : list (By * string)) (timeout : Z)
  : M (option string) :=
  match selectors with
  | [] => ret None
  | (by_, sel) :: rest =>
      let* r := try (let* elem := until sc timeout presence_of_element_located by_ sel in
                     let* t := text elem in
                     ret (PyStr.strip t)) in
      match r with
      | Ok txt => if PyStr.truthy (Some txt) then ret (Some txt)
                  else first_text sc rest timeout
      | Raise _ => first_text sc rest timeout
      end
  end.

(** *** Auth *)

(** The loop of [login] over the consent selectors: stop at the first one
    that can be clicked, as XPath or as CSS. *)
Fixpoint login_consent (sels : list string) : M unit :=
  match sels with
  | [] => ret tt
  | sel :: rest =>
      let* a := try_click XPATH sel 2 in
      if a then ret tt
      else let* b := try_click CSS_SELECTOR sel 2 in
           if b then ret tt else login_consent rest
  end.

Definition login_url : string := "https://www.linkedin.com/login".

Definition consent_selectors : list string :=
  [ "//button[.//span[contains(., 'Accept') or contains(., 'Agree')]]";
    "//button[contains(., 'Accept')]";
    "//button[contains(., 'I agree')]";
    "button[aria-label*='cookie']";
    "button[aria-label*='Cookie']";
    "button[title*='Accept']" ].

Definition login (user pwd : string) : M unit :=
  enter F_login >>
  get login_url >>
  login_consent consent_selectors >>
  let* u := until Driver 20 visibility_of_element_located ID "username" in
  send_keys u (Text user) >>
  let* p := until Driver 20 visibility_of_element_located ID "password" in
  send_keys p (Text pwd) >>
  try_click XPATH "//button[@type='submit']" 10 >>
  ret tt.

Definition is_authwall_modal : M bool :=
  let* h := try (find_elements Driver XPATH "//h2[contains(., 'Sign in to view more jobs')]") in
  match h with
  | Ok (_ :: _) => ret true
  | _ =>
      let* modals := try (find_elements Driver CSS_SELECTOR ".artdeco-modal, .sign-in-modal") in
      match modals with
      | Ok l => ret (0 <? Z.of_nat (length l))
      | Raise _ => ret false
      end
  end.

Definition dismiss_selectors : list string :=
  [ "button[aria-label='Dismiss']"; "button[aria-label='Close']";
    ".artdeco-modal__dismiss" ].

(** The loop "Try close (X) first".  [true]: the function returns from
    inside the loop; [false]: the loop ran to its end. *)
Fixpoint dismiss_overlay (sels : list string) : M bool :=
  match sels with
  | [] => ret false
  | sel :: rest =>
      let* c := try_click CSS_SELECTOR sel 2 in
      if c then
        sleep 500 >>
        let* m := is_authwall_modal in
        if negb m then ret true else dismiss_overlay rest
      else dismiss_overlay rest
  end.

(** "Fall back: click Sign in inside modal". *)
Definition click_sign_in : M bool :=
  let* clicked := try_click XPATH "//button[contains(., 'Sign in')]" 5 in
  if negb clicked then try_click XPATH "//a[contains(., 'Sign in')]" 5
  else ret clicked.

(** "Try ESC as last resort". *)
Definition press_escape : M unit :=
  try (let* body := find_element TAG_NAME "body" in send_keys body ESCAPE) >>
  ret tt.

(** [clear_signin_overlay_or_reauth], by recursion on the retries left:
    [retries] is [attempts] when that is positive and 0 otherwise, so that
    [attempts > 0] is [retries = S _] and [attempts - 1] is its predecessor. *)
Fixpoint clear_retries (search_url user pwd : string) (retries : nat) : M unit :=
  enter F_clear_signin_overlay_or_reauth >>
  let* m := is_authwall_modal in
  if negb m then ret tt
  else
    let* dismissed := dismiss_overlay dismiss_selectors in
    if dismissed then ret tt
    else
      let* clicked := click_sign_in in
      if clicked then
        login user pwd >>
        get search_url >>
        sleep 1000 >>
        match retries with
        | S retries' =>
            let* m' := is_authwall_modal in
            if m' then clear_retries search_url user pwd retries' else ret tt
        | O => ret tt
        end
      else press_escape.

Definition clear_signin_overlay_or_reauth
    (search_url user pwd : string) (attempts : Z) : M unit :=
  clear_retries search_url user pwd (Z.to_nat attempts).

(** *** Results *)

Definition container_candidates : list string :=
  [ "ul.jobs-search__results-list";
    ".jobs-search-results__list";
    "div.jobs-search-two-pane__results-list";
    "[data-test-reusables-search__results-list]";
    "[data-test-search-results] ul" ].

(** The loop of [_find_results_container]: only a [TimeoutException] moves
    on to the next candidate. *)
Fixpoint find_first_container (candidates : list string) : M (option element) :=
  match candidates with
  | [] => ret None
  | sel :: rest =>
      let* r := try (until Driver 10 presence_of_element_located CSS_SELECTOR sel) in
      match r with
      | Ok e => ret (Some e)
      | Raise TimeoutException => find_first_container rest
      | Raise e => raise e
      end
  end.

Definition _find_results_container : M (option element) :=
  find_first_container container_candidates.

Definition job_view_prefix : string := "https://www.linkedin.com/jobs/view".

(** [href.split("?")[0]] *)
Definition canonical (href : string) : string := PyStr.item0 (PyStr.split "?" href).

(** [(a.get_attribute("href") or "").strip()] *)
Definition href_of (attr : option string) : string :=
  PyStr.strip (default "" attr).

(** The loop of [harvest] over the anchors; [links] is the set the closure
    shares with [collect_links]. *)
Fixpoint harvest_anchors (anchors : list element) (links : gset string)
  : M (gset string) :=
  match anchors with
  | [] => ret links
  | a :: rest =>
      let* attr := get_attribute a "href" in
      let href := href_of attr in
      if PyStr.startswith href job_view_prefix
      then harvest_anchors rest ({[ canonical href ]} ∪ links)
      else harvest_anchors rest links
  end.

Definition harvest (links : gset string) : M (gset string) :=
  enter F_harvest >>
  let* container := _find_results_container in
  match container with
  | None =>
      let* snippet := page_source in
      let* u := current_url in
      raise TimeoutException
  | Some c =>
      let* a1 := find_elements (Within c) CSS_SELECTOR "a[href*='/jobs/view/']" in
      let* a2 := find_elements (Within c) CSS_SELECTOR "li a[data-job-id]" in
      let* a3 := find_elements (Within c) CSS_SELECTOR "a.job-card-container__link" in
      harvest_anchors (a1 ++ a2 ++ a3) links
  end.

Definition page_selectors (page : Z) : list string :=
  [ ("button[aria-label='Page " ++ PyStr.of_int page ++ "']")%string;
    ("li.artdeco-pagination__indicator button[aria-label='Page "
       ++ PyStr.of_int page ++ "']")%string ].

(** The inner loop of the pagination: [clicked] at its end. *)
Fixpoint click_page (sels : list string) : M bool :=
  match sels with
  | [] => ret false
  | sel :: rest =>
      let* r := try (let* btn := until Driver 5 element_to_be_clickable CSS_SELECTOR sel in
                     execute_script scroll_into_view btn >>
                     click btn) in
      match r with
      | Ok _ => ret true
      | Raise _ => click_page rest
      end
  end.

(** The loop "Page 2..N" over the page numbers still to visit. *)
Fixpoint paginate (pages : list Z) (links : gset string) : M (gset string) :=
  match pages with
  | [] => ret links
  | page :: rest =>
      let* clicked := click_page (page_selectors page) in
      if negb clicked then ret links
      else
        sleep 1200 >>
        let* links' := harvest links in
        paginate rest links'
  end.

(** [range(a, b)] *)
Definition range (a b : Z) : list Z := seqZ a (b - a).

Definition collect_links (pages : Z) : M (list string) :=
  let* links := harvest ∅ in
  let* links' := paginate (range 2 (Z.max 2 (pages + 1))) links in
  ret (elements links').

(** *** Job page *)

(** [desc_container[0].text.strip() if desc_container else None] *)
Definition description_of (desc_container : list element) : M (option string) :=
  match desc_container with
  | e :: _ => let* t := text e in ret (Some (PyStr.strip t))
  | [] => ret None
  end.

(** The body of the [try] of [scrape_job]. *)
Definition scrape_job_try (link : string) : M (option job_record) :=
  get link >>
  try_click CSS_SELECTOR ".show-more-less-html__button" 4 >>
  try_click CSS_SELECTOR ".artdeco-card__actions button" 3 >>
  let* top := until Driver 8 presence_of_element_located CSS_SELECTOR
                ".jobs-unified-top-card" in
  let* title := first_text (Within top)
      [ (CSS_SELECTOR, "h1"); (CSS_SELECTOR, ".jobs-unified-top-card__job-title") ] 6 in
  let* company := first_text (Within top)
      [ (CSS_SELECTOR, "a.jobs-unified-top-card__company-name");
        (CSS_SELECTOR, ".jobs-unified-top-card__company-name") ] 6 in
  let* location := first_text (Within top)
      [ (CSS_SELECTOR, ".jobs-unified-top-card__bullet");
        (CSS_SELECTOR, "[data-test-topcard-location]") ] 6 in
  let* workplace := first_text (Within top)
      [ (CSS_SELECTOR, ".jobs-unified-top-card__workplace-type") ] 6 in
  let* posted := first_text (Within top)
      [ (CSS_SELECTOR, ".jobs-unified-top-card__posted-date");
        (CSS_SELECTOR, "[data-test-posted-date]") ] 6 in
  let* schedule := first_text (Within top)
      [ (CSS_SELECTOR, ".jobs-unified-top-card__job-insight") ] 6 in
  let* desc_container := find_elements Driver CSS_SELECTOR
      ".jobs-description__content .jobs-box__html-content" in
  let* description := description_of desc_container in
  if negb (PyStr.truthy title) && negb (PyStr.truthy description) then ret None
  else ret (Some {| job_title := title;
                    company_name := company;
                    company_location := location;
                    work_method := workplace;
                    post_date := posted;
                    work_time := schedule;
                    job_description := description;
                    url := link |}).

(** [scrape_job]: both handlers of the [try] return [None]. *)
Definition scrape_job (link : string) : M (option job_record) :=
  enter (F_scrape_job link) >>
  let* r := try (scrape_job_try link) in
  match r with
  | Ok rec => ret rec
  | Raise TimeoutException => ret None
  | Raise _ => ret None
  end.

(** *** Main *)

(** The loop of [main] over the links. *)
Fixpoint scrape_links (links : list string) (records : list job_record)
  : M (list job_record) :=
  match links with
  | [] => ret records
  | link :: rest =>
      let* rec := scrape_job link in
      let records' := match rec with
                      | Some r => records ++ [r]
                      | None => records
                      end in
      sleep 600 >>
      scrape_links rest records'
  end.

(** [main], from the [try] on: credentials, search URL and the parsed
    arguments are its arguments. *)
Definition main (user pwd search_url : string) (pages : Z) (out : string) : M unit :=
  finally
    (login user pwd >>
     get search_url >>
     sleep 1000 >>
     clear_signin_overlay_or_reauth search_url user pwd 1 >>
     let* links := collect_links pages in
     let* records := scrape_links links [] in
     match records with
     | [] => ret tt
     | _ :: _ => to_csv out records
     end)
    quit.

End Program.

(** ** Reading a run *)

Fixpoint count (p : event -> bool) (t : trace) : nat :=
  match t with
  | [] => 0
  | e :: t' => (if p e then 1 else 0) + count p t'
  end.

Definition is_login_call (e : event) : bool :=
  match e with Ev_call F_login => true | _ => false end.

Definition is_clear_call (e : event) : bool :=
  match e with Ev_call F_clear_signin_overlay_or_reauth => true | _ => false end.

Definition is_harvest_call (e : event) : bool :=
  match e with Ev_call F_harvest => true | _ => false end.

(** A search on the whole page, as the overlay detector makes. *)
Definition is_find_elements (e : event) : bool :=
  match e with Ev_find_elements _ _ _ _ => true | _ => false end.

(** An attempt at a control: waiting for it to be clickable, or clicking. *)
Definition is_click_attempt (e : event) : bool :=
  match e with
  | Ev_until _ _ element_to_be_clickable _ _ _ => true
  | Ev_click _ _ => true
  | _ => false
  end.

(** An anchor read by [harvest] whose href passes its test. *)
Definition is_qualifying_href (e : event) : bool :=
  match e with
  | Ev_get_attribute _ name (Ok attr) =>
      String.eqb name "href" && PyStr.startswith (href_of attr) job_view_prefix
  | _ => false
  end.

(** The number of qualifying anchors read between one [harvest] and the
    next; [cur] counts those read since the last one. *)
Fixpoint page_yields_from (cur : nat) (t : trace) : list nat :=
  match t with
  | [] => [cur]
  | e :: t' =>
      if is_harvest_call e then cur :: page_yields_from 0%nat t'
      else page_yields_from (if is_qualifying_href e then S cur else cur) t'
  end.

(** One entry per page visited: the qualifying anchors read on it. *)
Definition page_yields (t : trace) : list nat := tl (page_yields_from 0%nat t).

Definition pages_visited (t : trace) : nat := count is_harvest_call t.

(** The links [scrape_job] was called on, in order. *)
Fixpoint scraped (t : trace) : list string :=
  match t with
  | [] => []
  | Ev_call (F_scrape_job link) :: t' => link :: scraped t'
  | _ :: t' => scraped t'
  end.

(** [visited B pages links past links' t]: from the set [links], each page
    of [pages] in turn had its control clicked and was harvested, giving
    [links'] and the events [t]. *)
Inductive visited (B : Browser)
  : list Z -> gset string -> trace -> gset string -> trace -> Prop :=
  | visited_nil links past : visited B [] links past links []
  | visited_cons page rest links past t1 links1 t2 links2 t3 :
      run (click_page B (page_selectors page)) past = (Ok true, t1) ->
      run (harvest B links) (past ++ t1 ++ [Ev_sleep 1200]) = (Ok links1, t2) ->
      visited B rest links1 (past ++ t1 ++ [Ev_sleep 1200] ++ t2) links2 t3 ->
      visited B (page :: rest) links past links2 (t1 ++ [Ev_sleep 1200] ++ t2 ++ t3).

(** ** Test pages *)

Module Fixture.

(** A page on which nothing is found: every wait times out, every search
    is empty, every command succeeds. *)
Definition blank : Browser := {|
  on_get := fun _ _ => Ok tt;
  on_find_elements := fun _ _ _ _ => Ok [];
  on_find_element := fun _ _ _ => Raise OtherException;
  on_until := fun _ _ _ _ _ _ => Raise TimeoutException;
  on_execute_script := fun _ _ _ => Ok tt;
  on_click := fun _ _ => Ok tt;
  on_send_keys := fun _ _ _ => Ok tt;
  on_text := fun _ _ => Ok "";
  on_get_attribute := fun _ _ _ => Ok None;
  on_page_source := fun _ => Ok "";
  on_current_url := fun _ => Ok "";
  on_quit := fun _ => Ok tt;
  on_to_csv := fun _ _ _ => Ok tt
|}.

(** [blank] with other answers to waits, searches, texts and attributes. *)
Definition page
    (waits : trace -> scope -> Z -> condition -> By -> string -> result element)
    (finds : trace -> scope -> By -> string -> result (list element))
    (texts : element -> string)
    (attrs : element -> string -> option string) : Browser := {|
  on_get := on_get blank;
  on_find_elements := finds;
  on_find_element := on_find_element blank;
  on_until := waits;
  on_execute_script := on_execute_script blank;
  on_click := on_click blank;
  on_send_keys := on_send_keys blank;
  on_text := fun _ e => Ok (texts e);
  on_get_attribute := fun _ e name => Ok (attrs e name);
  on_page_source := on_page_source blank;
  on_current_url := on_current_url blank;
  on_quit := on_quit blank;
  on_to_csv := on_to_csv blank
|}.

Definition found (e : element) : result element := Ok e.
Definition missing : result element := Raise TimeoutException.

(** Clicks on element [e] that succeeded so far. *)
Definition clicks_on (e : element) (h : trace) : nat :=
  count (fun ev => match ev with
                   | Ev_click e' (Ok _) => Nat.eqb e e'
                   | _ => false
                   end) h.

(** Whether the password was typed so far. *)
Definition logged_in (h : trace) : bool :=
  negb (Nat.eqb 0%nat (count (fun ev => match ev with
                                      | Ev_send_keys 6%nat (Text _) (Ok _) => true
                                      | _ => false
                                      end) h)).

(** The login form: elements 5 and 6. *)
Definition login_form (by_ : By) (sel : string) : result element :=
  match by_ with
  | ID => if String.eqb sel "username" then found 5%nat
          else if String.eqb sel "password" then found 6%nat
          else missing
  | _ => missing
  end.

(** A search with two result pages.  Element 1 is the results list, 2 the
    "Page 2" button; page 1 lists anchors 10 and 11, page 2 anchors 11 and
    12.  There is no "Page 3" button and no overlay. *)
Definition two_pages : Browser :=
  page
    (fun h sc timeout c by_ sel =>
       match sc, c with
       | Driver, presence_of_element_located =>
           if String.eqb sel "ul.jobs-search__results-list" then found 1%nat else missing
       | Driver, element_to_be_clickable =>
           if String.eqb sel "button[aria-label='Page 2']" then found 2%nat else missing
       | Driver, visibility_of_element_located => login_form by_ sel
       | _, _ => missing
       end)
    (fun h sc by_ sel =>
       match sc with
       | Within 1%nat =>
           if String.eqb sel "a[href*='/jobs/view/']"
           then if Nat.eqb (clicks_on 2%nat h) 0%nat then Ok [10; 11]%nat else Ok [11; 12]%nat
           else Ok []
       | _ => Ok []
       end)
    (fun _ => "")
    (fun e name =>
       match e with
       | 10%nat => Some "https://www.linkedin.com/jobs/view/101?refId=abc"
       | 11%nat => Some " https://www.linkedin.com/jobs/view/102?trk=x&pos=2 "
       | 12%nat => Some "https://www.linkedin.com/jobs/view/103"
       | _ => None
       end).

(** A search page under the sign-in overlay (heading 40) until the password
    has been typed; no dismissal control, a "Sign in" button (4). *)
Definition authwall : Browser :=
  page
    (fun h sc timeout c by_ sel =>
       match sc, c with
       | Driver, element_to_be_clickable =>
           if String.eqb sel "//button[contains(., 'Sign in')]" then found 4%nat
           else missing
       | Driver, visibility_of_element_located => login_form by_ sel
       | _, _ => missing
       end)
    (fun h sc by_ sel =>
       match sc with
       | Driver =>
           if String.eqb sel "//h2[contains(., 'Sign in to view more jobs')]"
              && negb (logged_in h)
           then Ok [40%nat] else Ok []
       | _ => Ok []
       end)
    (fun _ => "")
    (fun _ _ => None).

(** The same overlay, never going away. *)
Definition stubborn_authwall : Browser :=
  page
    (on_until authwall)
    (fun h sc by_ sel =>
       match sc with
       | Driver =>
           if String.eqb sel "//h2[contains(., 'Sign in to view more jobs')]"
           then Ok [40%nat] else Ok []
       | _ => Ok []
       end)
    (fun _ => "")
    (fun _ _ => None).

(** An overlay (modal 41) with a working "Close" button (3): it is gone
    once the button has been clicked. *)
Definition dismissable : Browser :=
  page
    (fun h sc timeout c by_ sel =>
       match sc, c with
       | Driver, element_to_be_clickable =>
           if String.eqb sel "button[aria-label='Close']" then found 3%nat else missing
       | _, _ => missing
       end)
    (fun h sc by_ sel =>
       match sc with
       | Driver =>
           if String.eqb sel ".artdeco-modal, .sign-in-modal"
              && Nat.eqb (clicks_on 3%nat h) 0%nat
           then Ok [41%nat] else Ok []
       | _ => Ok []
       end)
    (fun _ => "")
    (fun _ _ => None).

(** A detail page: top card 8, with the given fields.  [title] is the text
    of the [h1] (9) if any, [company] that of the company link (20) if any,
    [description] that of the description block (30) if any. *)
Definition detail (title company description : option string) : Browser :=
  page
    (fun h sc timeout c by_ sel =>
       match sc, c with
       | Driver, presence_of_element_located =>
           if String.eqb sel ".jobs-unified-top-card" then found 8%nat else missing
       | Within 8%nat, presence_of_element_located =>
           if String.eqb sel "h1" && bool_decide (is_Some title) then found 9%nat
           else if String.eqb sel "a.jobs-unified-top-card__company-name"
                   && bool_decide (is_Some company) then found 20%nat
           else missing
       | _, _ => missing
       end)
    (fun h sc by_ sel =>
       match sc with
       | Driver =>
           if String.eqb sel ".jobs-description__content .jobs-box__html-content"
              && bool_decide (is_Some description)
           then Ok [30%nat] else Ok []
       | _ => Ok []
       end)
    (fun e =>
       match e with
       | 9%nat => default "" title
       | 20%nat => default "" company
       | 30%nat => default "" description
       | _ => ""
       end)
    (fun _ _ => None).

End Fixture.

(** A search URL and a detail-page URL for the test pages. *)
Definition search : string :=
  "https://www.linkedin.com/jobs/search/?keywords=analyst&location=Spain".

Definition job_101 : string := "https://www.linkedin.com/jobs/view/101".

(** ** Notions used in the statements *)

(** A computation that returns normally whatever the past. *)
Definition safe {A} (m : M A) : Prop :=
  forall past, exists a t, run m past = (Ok a, t).

(** A computation that emits at most [n] events of kind [p]; [silent]:
    none. *)
Definition at_most (p : event -> bool) (n : nat) {A} (m : M A) : Prop :=
  forall past, (count p (snd (run m past)) <= n)%nat.

Abbreviation silent p m := (at_most p 0%nat m).

(** A kind of event that no driver call produces: only entries of
    functions can be of that kind. *)
Definition on_calls_only (p : event -> bool) : Prop :=
  forall e, match e with Ev_call _ => True | _ => p e = false end.

(** [u] was put in the set by [harvest]: it is the part before the first
    question mark of an href read in [t] that passed the test. *)
Definition harvested_in (t : trace) (u : string) : Prop :=
  exists a attr,
    In (Ev_get_attribute a "href" (Ok attr)) t /\
    PyStr.startswith (href_of attr) job_view_prefix = true /\
    u = canonical (href_of attr).

(** What the events [t] may have done to the set. *)
Definition grows (links links' : gset string) (t : trace) : Prop :=
  links ⊆ links' /\
  (forall u, u ∈ links' -> u ∈ links \/ harvested_in t u) /\
  (size links' <= size links + count is_qualifying_href t)%nat.

Definition is_scrape_call (e : event) : bool :=
  match e with Ev_call (F_scrape_job _) => true | _ => false end.

(** The selectors of [scrape_job] the statements name. *)
Definition top_card_selector : string := ".jobs-unified-top-card".
Definition title_selectors : list string := ["h1"; ".jobs-unified-top-card__job-title"].
Definition company_selector : string := "a.jobs-unified-top-card__company-name".
Definition description_selector : string :=
  ".jobs-description__content .jobs-box__html-content".

Definition is_click_ok (e : event) : bool :=
  match e with Ev_click _ (Ok _) => true | _ => false end.

(** The reading of C1 on a run of [collect_links], where every click is a
    pagination click: between a click that succeeded and a later [harvest],
    the recovery engine is entered. *)
Definition recovery_after_each_click (t : trace) : Prop :=
  forall before e mid rest,
    t = before ++ Ev_click e (Ok tt) :: mid ++ Ev_call F_harvest :: rest ->
    (0 < count is_clear_call mid)%nat.

(** What [collect_links] does instead: a click that succeeded is followed
    at once by the 1.2 s sleep and the entry of [harvest]. *)
Fixpoint clicks_then_harvest (t : trace) : bool :=
  match t with
  | [] => true
  | Ev_click _ (Ok _) :: t' =>
      match t' with
      | Ev_sleep ms :: Ev_call F_harvest :: _ => (ms =? 1200) && clicks_then_harvest t'
      | _ => false
      end
  | _ :: t' => clicks_then_harvest t'
  end.

(** ** The search URL

    [build_search_url] with the two functions of [urllib.parse] it calls,
    [urlencode] and [quote_plus], written out from the library for values
    that are [str].  A string is the list of its code points, each below
    256; a character from 128 on is two bytes in UTF-8. *)

Module Url.

(** The bytes [urllib.parse.quote] never quotes: letters, digits and
    [_.-~]. *)
Definition always_safe (b : ascii) : bool :=
  let n := nat_of_ascii b in
  ((65 <=? n) && (n <=? 90) || (97 <=? n) && (n <=? 122) || (48 <=? n) && (n <=? 57)
   || (n =? 95) || (n =? 46) || (n =? 45) || (n =? 126))%nat.

(** [c.encode("utf-8")] for a code point below 256. *)
Definition utf8 (c : ascii) : list ascii :=
  let n := nat_of_ascii c in
  if (n <? 128)%nat then [c]
  else [ascii_of_nat (192 + n / 64); ascii_of_nat (128 + n mod 64)].

Definition hex_digit (n : nat) : ascii :=
  if (n <? 10)%nat then ascii_of_nat (48 + n) else ascii_of_nat (55 + n).

(** ['%{:02X}'.format(b)] *)
Definition percent (b : ascii) : string :=
  let n := nat_of_ascii b in
  String "%" (String (hex_digit (n / 16)) (String (hex_digit (n mod 16)) EmptyString)).

(** One byte of [quote_from_bytes]: kept if always safe or in [safe]. *)
Definition quote_byte (safe : string) (b : ascii) : string :=
  if always_safe b || PyStr.contains_char b safe then String b EmptyString
  else percent b.

Definition bytes_of (s : string) : list ascii :=
  flat_map utf8 (list_ascii_of_string s).

(** [quote(s, safe)] on a [str]: the early returns of the library (empty
    string, nothing to quote) give the same result as quoting byte by
    byte. *)
Definition quote (s safe : string) : string :=
  String.concat "" (map (quote_byte safe) (bytes_of s)).

(** [s.replace(a, b)] for one-character [a] and [b]. *)
Fixpoint replace_char (a b : ascii) (s : string) : string :=
  match s with
  | EmptyString => EmptyString
  | String c s' => String (if Ascii.eqb c a then b else c) (replace_char a b s')
  end.

(** [quote_plus(s, safe)] *)
Definition quote_plus (s safe : string) : string :=
  if negb (PyStr.contains_char " " s) then quote s safe
  else replace_char " " "+" (quote s (safe ++ " ")%string).

(** [urlencode(params, quote_via=quote_plus)], the dictionary as the list
    of its items in insertion order. *)
Definition urlencode (params : list (string * string)) : string :=
  String.concat "&"
    (map (fun kv => (quote_plus (fst kv) "" ++ "=" ++ quote_plus (snd kv) "")%string)
       params).

Definition base : string := "https://www.linkedin.com/jobs/search/".

Definition build_search_url (keywords location : string) (geo_id : option string)
  : string :=
  let params := [("keywords", keywords); ("location", location)] in
  let params := if PyStr.truthy geo_id
                then params ++ [("geoId", default "" geo_id)] else params in
  (base ++ "?" ++ urlencode params)%string.

(** One character of a percent-encoded query value. *)
Definition encode_char (c : ascii) : string :=
  if Ascii.eqb c " " then "+" else String.concat "" (map (quote_byte "") (utf8 c)).

(** A query value, character by character: what [quote_plus] computes. *)
Fixpoint encode (s : string) : string :=
  match s with
  | EmptyString => EmptyString
  | String c s' => encode_char c +:+ encode s'
  end.

Definition hex_value (d : ascii) : nat :=
  let n := nat_of_ascii d in if (n <? 58)%nat then n - 48 else n - 55.

(** A decoder for what [quote_plus] produces, used to show that it loses
    nothing. *)
Fixpoint unquote_plus (s : string) : string :=
  match s with
  | EmptyString => EmptyString
  | String "%" (String h1 (String h2 rest)) =>
      let b := (16 * hex_value h1 + hex_value h2)%nat in
      if (b <? 128)%nat then String (ascii_of_nat b) (unquote_plus rest)
      else match rest with
           | String "%" (String h3 (String h4 rest')) =>
               let b' := (16 * hex_value h3 + hex_value h4)%nat in
               String (ascii_of_nat ((b - 192) * 64 + (b' - 128))) (unquote_plus rest')
           | _ => String (ascii_of_nat b) (unquote_plus rest)
           end
  | String c rest => String (if Ascii.eqb c "+" then " " else c) (unquote_plus rest)
  end.

(** The characters a URL built by [build_search_url] is made of. *)
Definition url_char (c : ascii) : bool :=
  always_safe c || PyStr.contains_char c ":/?=&+%".

Fixpoint all_chars (p : ascii -> bool) (s : string) : bool :=
  match s with
  | EmptyString => true
  | String c s' => p c && all_chars p s'
  end.

(** The [geo_id] that counts: [None] and the empty string are the same. *)
Definition given (geo_id : option string) : option string :=
  if PyStr.truthy geo_id then geo_id else None.

End Url.

(** ** More kinds of events *)

Definition is_get (e : event) : bool :=
  match e with Ev_get _ _ => true | _ => false end.

Definition is_quit (e : event) : bool :=
  match e with Ev_quit _ => true | _ => false end.

Definition is_to_csv (e : event) : bool :=
  match e with Ev_to_csv _ _ _ => true | _ => false end.

Definition is_send_keys (e : event) : bool :=
  match e with Ev_send_keys _ _ _ => true | _ => false end.

Definition is_get_attribute (e : event) : bool :=
  match e with Ev_get_attribute _ _ _ => true | _ => false end.

(** A look at the page or an action on it: not a navigation, the end of
    the browser, the write of the file or the entry of a function. *)
Definition page_event (e : event) : bool :=
  match e with
  | Ev_get _ _ | Ev_quit _ | Ev_to_csv _ _ _ | Ev_call _ => false
  | _ => true
  end.

(** A kind of event that no look at the page and no action on it is of. *)
Definition off_page (p : event -> bool) : Prop :=
  forall e, page_event e = true -> p e = false.

(** The event of a wait that timed out. *)
Definition timed_out (sc : scope) (timeout : Z) (c : condition) (sel : string) : event :=
  Ev_until sc timeout c CSS_SELECTOR sel (Raise TimeoutException).

(** A write of the file that [main] must not make: to another path than
    [out], or with no rows. *)
Definition bad_csv (out : string) (e : event) : bool :=
  match e with
  | Ev_to_csv o rows _ =>
      negb (String.eqb o out) || match rows with [] => true | _ :: _ => false end
  | _ => false
  end.

(** ** More test pages *)

Module Fixture2.


(** The overlay with a "Sign in" button (4), and a login page without
    its form. *)
Definition wall_without_form : Browser :=
  Fixture.page
    (fun h sc timeout c by_ sel =>
       match sc, c with
       | Driver, element_to_be_clickable =>
           if String.eqb sel "//button[contains(., 'Sign in')]" then Fixture.found 4%nat
           else Fixture.missing
       | _, _ => Fixture.missing
       end)
    (on_find_elements Fixture.stubborn_authwall)
    (fun _ => "")
    (fun _ _ => None).

(** The two-page search of [Fixture.two_pages] whose detail pages all have
    a top card (8) with the title "Data Analyst" (9). *)
Definition site : Browser :=
  Fixture.page
    (fun h sc timeout c by_ sel =>
       match on_until Fixture.two_pages h sc timeout c by_ sel with
       | Ok e => Ok e
       | Raise _ =>
           on_until (Fixture.detail (Some "Data Analyst") None None) h sc timeout c by_ sel
       end)
    (on_find_elements Fixture.two_pages)
    (fun e => match e with 9%nat => "Data Analyst" | _ => "" end)
    (fun e name =>
       match on_get_attribute Fixture.two_pages [] e name with
       | Ok v => v
       | Raise _ => None
       end).

End Fixture2.

(** ** Notions of the revised statements *)

(** The field of [sel] gives no text: whenever it is looked up, the
    element is not found, or its text cannot be read, or its text is
    blank. *)
Definition blank_field (B : Browser) (sc : scope) (timeout : Z) (sel : string) : Prop :=
  forall h,
    match on_until B h sc timeout presence_of_element_located CSS_SELECTOR sel with
    | Ok e =>
        match on_text B (h ++ [Ev_until sc timeout presence_of_element_located
                                 CSS_SELECTOR sel (Ok e)]) e with
        | Ok txt => PyStr.strip txt = ""
        | Raise _ => True
        end
    | Raise _ => True
    end.

(** The page gives no title: in any top card it shows, both title fields
    give no text. *)
Definition no_title (B : Browser) : Prop :=
  forall h top,
    on_until B h Driver 8 presence_of_element_located CSS_SELECTOR top_card_selector
    = Ok top ->
    forall sel, In sel title_selectors -> blank_field B (Within top) 6 sel.

(** The page gives no description: whenever the description block is
    searched, the search fails or finds nothing, or the text of the first
    block found cannot be read or is blank. *)
Definition no_description (B : Browser) : Prop :=
  forall h,
    match on_find_elements B h Driver CSS_SELECTOR description_selector with
    | Ok (e :: es) =>
        match on_text B (h ++ [Ev_find_elements Driver CSS_SELECTOR description_selector
                                 (Ok (e :: es))]) e with
        | Ok txt => PyStr.strip txt = ""
        | Raise _ => True
        end
    | _ => True
    end.

(** The two searches of [is_authwall_modal]. *)
Definition authwall_heading : string := "//h2[contains(., 'Sign in to view more jobs')]".
Definition authwall_modals : string := ".artdeco-modal, .sign-in-modal".

(** An opening of the page [u], with whatever outcome. *)
Definition is_get_to (u : string) (e : event) : bool :=
  match e with
  | Ev_get u' _ => String.eqb u' u
  | _ => false
  end.

(** A run that logs in once, then opens [u], then looks for the overlay:
    a [login] entry with no other before the opening of [u], and a search
    after it. *)
Definition reauth_then_renavigate_then_recheck (u : string) (t : trace) : Prop :=
  exists a b c r,
    t = a ++ Ev_call F_login :: b ++ Ev_get u r :: c /\
    count is_login_call (a ++ b) = 0%nat /\
    (0 < count is_find_elements c)%nat.

(** * Properties *)

(** ** Running computations *)

Lemma run_bind {A C} (m : M A) (f : A -> M C) past :
  run (bind m f) past =
  match run m past with
  | (Ok a, t1) => let '(r, t2) := run (f a) (past ++ t1) in (r, t1 ++ t2)
  | (Raise e, t1) => (Raise e, t1)
  end.
Proof. reflexivity. Qed.

Lemma run_bind_ok {A C} (m : M A) (f : A -> M C) past a t1 :
  run m past = (Ok a, t1) ->
  run (bind m f) past = (let '(r, t2) := run (f a) (past ++ t1) in (r, t1 ++ t2)).
Proof. intros H. rewrite run_bind, H. reflexivity. Qed.

Lemma run_bind_raise {A C} (m : M A) (f : A -> M C) past e t1 :
  run m past = (Raise e, t1) -> run (bind m f) past = (Raise e, t1).
Proof. intros H. rewrite run_bind, H. reflexivity. Qed.

Lemma bind_inv {A C} (m : M A) (f : A -> M C) past c t :
  run (bind m f) past = (Ok c, t) ->
  exists a t1 t2,
    run m past = (Ok a, t1) /\ run (f a) (past ++ t1) = (Ok c, t2) /\ t = t1 ++ t2.
Proof.
  rewrite run_bind. destruct (run m past) as [[a|e] t1]; [|discriminate].
  destruct (run (f a) (past ++ t1)) as [r t2] eqn:E. intros [= -> <-].
  exists a, t1, t2. auto.
Qed.

Lemma run_try {A} (m : M A) past :
  run (try m) past = (Ok (fst (run m past)), snd (run m past)).
Proof. unfold run, try. destruct (m past). reflexivity. Qed.

Lemma run_try_eq {A} (m : M A) past r t :
  run m past = (r, t) -> run (try m) past = (Ok r, t).
Proof. intros E. rewrite run_try, E. reflexivity. Qed.

Lemma run_until B sc timeout c by_ sel past :
  run (until B sc timeout c by_ sel) past =
  (on_until B past sc timeout c by_ sel,
   [Ev_until sc timeout c by_ sel (on_until B past sc timeout c by_ sel)]).
Proof. reflexivity. Qed.

Lemma run_text B e past :
  run (text B e) past = (on_text B past e, [Ev_text e (on_text B past e)]).
Proof. reflexivity. Qed.

Lemma run_get B u past :
  run (get B u) past = (on_get B past u, [Ev_get u (on_get B past u)]).
Proof. reflexivity. Qed.

Lemma run_find_elements B sc by_ sel past :
  run (find_elements B sc by_ sel) past =
  (on_find_elements B past sc by_ sel,
   [Ev_find_elements sc by_ sel (on_find_elements B past sc by_ sel)]).
Proof. reflexivity. Qed.

Lemma run_ret {A} (a : A) past : run (ret a) past = (Ok a, []).
Proof. reflexivity. Qed.

Lemma count_app p t1 t2 : count p (t1 ++ t2) = (count p t1 + count p t2)%nat.
Proof. induction t1 as [|e t1 IH]; simpl; [reflexivity|]. rewrite IH. lia. Qed.

(** ** Computations that cannot raise *)

Lemma safe_ret {A} (a : A) : safe (ret a).
Proof. intros past. exists a, []. reflexivity. Qed.

Lemma safe_emit e : safe (emit e).
Proof. intros past. exists tt, [e]. reflexivity. Qed.

Lemma safe_try {A} (m : M A) : safe (try m).
Proof. intros past. rewrite run_try. eauto. Qed.

Lemma safe_bind {A C} (m : M A) (f : A -> M C) :
  safe m -> (forall a, safe (f a)) -> safe (bind m f).
Proof.
  intros Hm Hf past. destruct (Hm past) as (a & t1 & E).
  destruct (Hf a (past ++ t1)) as (c & t2 & E2).
  exists c, (t1 ++ t2). rewrite (run_bind_ok _ _ _ _ _ E), E2. reflexivity.
Qed.

Ltac safe_step :=
  first
    [ apply safe_ret
    | apply safe_emit
    | apply safe_try
    | apply safe_bind; [|intros ?]
    | assumption
    | match goal with
      | |- safe (match ?x with _ => _ end) => destruct x
      end ].

Ltac safety := repeat safe_step.

(** ** Counting events of a kind in what a computation emits *)

Lemma at_most_le p n n' {A} (m : M A) :
  at_most p n m -> (n <= n')%nat -> at_most p n' m.
Proof. intros H Hle past. specialize (H past). lia. Qed.

Lemma at_most_ret p {A} (a : A) : silent p (ret a).
Proof. intros past. simpl. lia. Qed.

Lemma at_most_raise p {A} e : silent p (@raise A e).
Proof. intros past. simpl. lia. Qed.

Lemma at_most_ask p {A} (answer : trace -> result A) ev :
  (forall r, p (ev r) = false) -> silent p (ask answer ev).
Proof. intros H past. simpl. rewrite H. lia. Qed.

Lemma at_most_emit p e : p e = false -> silent p (emit e).
Proof. intros H past. simpl. rewrite H. lia. Qed.

Lemma at_most_emit_1 p e : at_most p 1 (emit e).
Proof. intros past. simpl. destruct (p e); lia. Qed.

Lemma at_most_try p n {A} (m : M A) : at_most p n m -> at_most p n (try m).
Proof. intros H past. rewrite run_try. apply H. Qed.

Lemma at_most_bind p a b {A C} (m : M A) (f : A -> M C) :
  at_most p a m -> (forall x, at_most p b (f x)) -> at_most p (a + b) (bind m f).
Proof.
  intros Hm Hf past. rewrite run_bind. specialize (Hm past).
  destruct (run m past) as [[x|e] t1]; simpl in *; [|lia].
  specialize (Hf x (past ++ t1)).
  destruct (run (f x) (past ++ t1)) as [r t2]. simpl in *.
  rewrite count_app. lia.
Qed.

Lemma silent_bind p {A C} (m : M A) (f : A -> M C) :
  silent p m -> (forall x, silent p (f x)) -> silent p (bind m f).
Proof. intros Hm Hf. apply (at_most_bind p 0 0); assumption. Qed.

Lemma at_most_finally p a b {A} (m : M A) (f : M unit) :
  at_most p a m -> at_most p b f -> at_most p (a + b) (finally m f).
Proof.
  intros Hm Hf past. unfold run, finally. specialize (Hm past). unfold run in Hm.
  destruct (m past) as [r t1]. specialize (Hf (past ++ t1)). unfold run in Hf.
  destruct (f (past ++ t1)) as [[[]|e] t2]; simpl in *; rewrite count_app; lia.
Qed.

Lemma is_login_call_on_calls : on_calls_only is_login_call.
Proof. intros []; simpl; auto. Qed.

Lemma is_clear_call_on_calls : on_calls_only is_clear_call.
Proof. intros []; simpl; auto. Qed.

Lemma is_harvest_call_on_calls : on_calls_only is_harvest_call.
Proof. intros []; simpl; auto. Qed.

Ltac driver_calls :=
  unfold get, find_elements, find_element, until, execute_script, click,
    send_keys, text, get_attribute, page_source, current_url, quit, to_csv,
    sleep, enter.

Ltac silent_step Hp :=
  first
    [ apply at_most_ret
    | apply at_most_raise
    | apply at_most_try
    | apply silent_bind; [|intros ?]
    | apply at_most_ask; intros ?;
      first [reflexivity | match goal with |- _ ?e = false => exact (Hp e) end]
    | apply at_most_emit;
      first [reflexivity | match goal with |- _ ?e = false => exact (Hp e) end]
    | assumption
    | progress cbv zeta
    | match goal with
      | |- at_most _ _ (match ?x with _ => _ end) => destruct x
      end ].

Ltac silence Hp := driver_calls; repeat silent_step Hp.

Section Silent.

Variable B : Browser.
Variable p : event -> bool.
Hypothesis Hp : on_calls_only p.

Lemma try_click_silent by_ sel timeout : silent p (try_click B by_ sel timeout).
Proof. unfold try_click. silence Hp. Qed.

Lemma first_text_silent sc selectors timeout :
  silent p (first_text B sc selectors timeout).
Proof.
  induction selectors as [|[by_ sel] rest IH]; simpl; silence Hp.
Qed.

Lemma is_authwall_modal_silent : silent p (is_authwall_modal B).
Proof. unfold is_authwall_modal. silence Hp. Qed.

Lemma login_consent_silent sels : silent p (login_consent B sels).
Proof.
  induction sels as [|sel rest IH]; simpl; silence Hp; apply try_click_silent.
Qed.

Lemma dismiss_overlay_silent sels : silent p (dismiss_overlay B sels).
Proof.
  induction sels as [|sel rest IH]; simpl; silence Hp;
    auto using try_click_silent, is_authwall_modal_silent.
Qed.

Lemma click_sign_in_silent : silent p (click_sign_in B).
Proof.
  unfold click_sign_in. apply silent_bind; [apply try_click_silent|].
  intros []; simpl; [apply at_most_ret | apply try_click_silent].
Qed.

Lemma press_escape_silent : silent p (press_escape B).
Proof. unfold press_escape. silence Hp. Qed.

Lemma find_first_container_silent candidates :
  silent p (find_first_container B candidates).
Proof. induction candidates as [|sel rest IH]; simpl; silence Hp. Qed.

Lemma harvest_anchors_silent anchors links :
  silent p (harvest_anchors B anchors links).
Proof.
  revert links. induction anchors as [|a rest IH]; intros links; simpl; silence Hp;
    apply IH.
Qed.

Lemma click_page_silent sels : silent p (click_page B sels).
Proof. induction sels as [|sel rest IH]; simpl; silence Hp. Qed.

Lemma login_at_most_1 user pwd : at_most p 1 (login B user pwd).
Proof.
  unfold login. apply (at_most_bind p 1 0); [apply at_most_emit_1|]. intros _.
  silence Hp; auto using login_consent_silent, try_click_silent.
Qed.

Lemma login_silent user pwd :
  p (Ev_call F_login) = false -> silent p (login B user pwd).
Proof.
  intros H. unfold login. apply silent_bind; [apply at_most_emit, H|]. intros _.
  silence Hp; auto using login_consent_silent, try_click_silent.
Qed.

Lemma harvest_silent links :
  p (Ev_call F_harvest) = false -> silent p (harvest B links).
Proof.
  intros H. unfold harvest, _find_results_container.
  apply silent_bind; [apply at_most_emit, H|]. intros _.
  apply silent_bind; [apply find_first_container_silent|].
  intros [c|]; silence Hp. apply harvest_anchors_silent.
Qed.

Lemma paginate_silent pages links :
  p (Ev_call F_harvest) = false -> silent p (paginate B pages links).
Proof.
  intros H. revert links.
  induction pages as [|page rest IH]; intros links; cbn [paginate].
  - apply at_most_ret.
  - apply silent_bind; [apply click_page_silent|]. intros []; cbn [negb].
    + apply silent_bind; [apply at_most_emit, (Hp (Ev_sleep 1200))|]. intros _.
      apply silent_bind; [apply harvest_silent, H|]. intros ?. apply IH.
    + apply at_most_ret.
Qed.

Lemma collect_links_silent pages :
  p (Ev_call F_harvest) = false -> silent p (collect_links B pages).
Proof.
  intros H. unfold collect_links.
  apply silent_bind; [apply harvest_silent, H|]. intros ?.
  apply silent_bind; [apply paginate_silent, H|]. intros ?. apply at_most_ret.
Qed.

End Silent.

Lemma at_most_bind_l p b {A C} (m : M A) (f : A -> M C) :
  silent p m -> (forall x, at_most p b (f x)) -> at_most p b (bind m f).
Proof. intros Hm Hf. apply (at_most_bind p 0 b); assumption. Qed.

Lemma at_most_bind_r p a {A C} (m : M A) (f : A -> M C) :
  at_most p a m -> (forall x, silent p (f x)) -> at_most p a (bind m f).
Proof.
  intros Hm Hf. apply (at_most_le p (a + 0)); [|lia].
  apply at_most_bind; assumption.
Qed.

(** ** The recovery engine *)

(** The equation of the source: the recursion is on [attempts], guarded by
    [attempts > 0], and continues with [attempts - 1]. *)
Lemma clear_signin_overlay_or_reauth_unfold B search_url user pwd attempts :
  clear_signin_overlay_or_reauth B search_url user pwd attempts =
  (enter F_clear_signin_overlay_or_reauth >>
   let* m := is_authwall_modal B in
   if negb m then ret tt
   else
     let* dismissed := dismiss_overlay B dismiss_selectors in
     if dismissed then ret tt
     else
       let* clicked := click_sign_in B in
       if clicked then
         login B user pwd >>
         get B search_url >>
         sleep 1000 >>
         if 0 <? attempts then
           let* m' := is_authwall_modal B in
           if m' then clear_signin_overlay_or_reauth B search_url user pwd (attempts - 1)
           else ret tt
         else ret tt
       else press_escape B).
Proof.
  unfold clear_signin_overlay_or_reauth.
  destruct (0 <? attempts) eqn:E.
  - apply Z.ltb_lt in E.
    replace (Z.to_nat attempts) with (S (Z.to_nat (attempts - 1))) by lia.
    reflexivity.
  - apply Z.ltb_ge in E. replace (Z.to_nat attempts) with 0%nat by lia.
    reflexivity.
Qed.

(** Each round of the recovery costs one entry and at most one login. *)
Lemma clear_retries_at_most B p search_url user pwd c1 c2 retries :
  on_calls_only p ->
  at_most p c1 (enter F_clear_signin_overlay_or_reauth) ->
  at_most p c2 (login B user pwd) ->
  at_most p (S retries * (c1 + c2)) (clear_retries B search_url user pwd retries).
Proof.
  intros Hp H1 H2. induction retries as [|n IH].
  - cbn [clear_retries].
    apply (at_most_le p (c1 + c2)); [|lia].
    apply at_most_bind; [exact H1|]. intros _.
    apply at_most_bind_l; [apply is_authwall_modal_silent, Hp|].
    intros []; cbn [negb]; [|apply at_most_le with 0%nat; [apply at_most_ret|lia]].
    apply at_most_bind_l; [apply dismiss_overlay_silent, Hp|].
    intros []; [apply at_most_le with 0%nat; [apply at_most_ret|lia]|].
    apply at_most_bind_l; [apply click_sign_in_silent, Hp|].
    intros []; [|apply at_most_le with 0%nat; [apply press_escape_silent, Hp|lia]].
    apply at_most_bind_r; [exact H2|]. intros _. silence Hp.
  - cbn [clear_retries].
    apply (at_most_le p (c1 + (c2 + S n * (c1 + c2)))); [|lia].
    apply at_most_bind; [exact H1|]. intros _.
    apply at_most_bind_l; [apply is_authwall_modal_silent, Hp|].
    intros []; cbn [negb]; [|apply at_most_le with 0%nat; [apply at_most_ret|lia]].
    apply at_most_bind_l; [apply dismiss_overlay_silent, Hp|].
    intros []; [apply at_most_le with 0%nat; [apply at_most_ret|lia]|].
    apply at_most_bind_l; [apply click_sign_in_silent, Hp|].
    intros []; [|apply at_most_le with 0%nat; [apply press_escape_silent, Hp|lia]].
    apply at_most_bind; [exact H2|]. intros _.
    apply at_most_bind_l; [silence Hp|]. intros _.
    apply at_most_bind_l; [silence Hp|]. intros _.
    apply at_most_bind_l; [apply is_authwall_modal_silent, Hp|].
    intros []; [exact IH|apply at_most_le with 0%nat; [apply at_most_ret|lia]].
Qed.

(** C6. For every attempt budget and every behaviour of the page, the
    recovery engine returns (it is a total function, by recursion on the
    retries left), is entered at most once plus the budget, so retries at
    most that many times, and logs in at most once plus the budget; a
    negative budget counts as none.  With the default budget 1 that is one
    retry and two logins. *)
Theorem recovery_retries_bounded B search_url user pwd attempts past :
  let t := snd (run (clear_signin_overlay_or_reauth B search_url user pwd attempts) past) in
  Z.of_nat (count is_clear_call t) <= Z.max 0 attempts + 1 /\
  Z.of_nat (count is_login_call t) <= Z.max 0 attempts + 1.
Proof.
  unfold clear_signin_overlay_or_reauth. split.
  - pose proof (clear_retries_at_most B is_clear_call search_url user pwd 1 0
                  (Z.to_nat attempts) is_clear_call_on_calls) as H.
    specialize (H (at_most_emit_1 is_clear_call (Ev_call F_clear_signin_overlay_or_reauth))
                  (login_silent B _ is_clear_call_on_calls user pwd eq_refl) past).
    lia.
  - pose proof (clear_retries_at_most B is_login_call search_url user pwd 0 1
                  (Z.to_nat attempts) is_login_call_on_calls) as H.
    specialize (H (at_most_emit is_login_call
                     (Ev_call F_clear_signin_overlay_or_reauth) eq_refl)
                  (login_at_most_1 B _ is_login_call_on_calls user pwd) past).
    lia.
Qed.

Ltac flatten :=
  repeat first [ rewrite <- app_assoc | rewrite app_nil_r | progress cbn [app] ].

Lemma try_click_safe B by_ sel timeout : safe (try_click B by_ sel timeout).
Proof. unfold try_click. safety. Qed.

Lemma is_authwall_modal_safe B : safe (is_authwall_modal B).
Proof. unfold is_authwall_modal. safety. Qed.

(** The dismissal loop over [before ++ rest], when no control of [before]
    cleared the overlay, goes on with [rest]. *)
Lemma dismiss_overlay_app B before rest past t1 :
  run (dismiss_overlay B before) past = (Ok false, t1) ->
  run (dismiss_overlay B (before ++ rest)) past =
  (let '(r, t2) := run (dismiss_overlay B rest) (past ++ t1) in (r, t1 ++ t2)).
Proof.
  revert past t1. induction before as [|sel before IH]; intros past t1.
  - intros [= <-]. rewrite app_nil_r. cbn [app].
    destruct (run (dismiss_overlay B rest) past). reflexivity.
  - cbn [dismiss_overlay app]. rewrite !run_bind.
    destruct (try_click_safe B CSS_SELECTOR sel 2 past) as (c & tc & ->).
    destruct c.
    + rewrite !run_bind. cbn [run sleep emit].
      destruct (is_authwall_modal_safe B ((past ++ tc) ++ [Ev_sleep 500]))
        as (m & tm & Em).
      rewrite !run_bind, Em. destruct m; cbn [negb].
      * specialize (IH (((past ++ tc) ++ [Ev_sleep 500]) ++ tm)).
        destruct (run (dismiss_overlay B before) _) as [r tb] eqn:Eb.
        intros [= -> <-]. rewrite (IH tb eq_refl).
        flatten.
        destruct (run (dismiss_overlay B rest) _). flatten. reflexivity.
      * cbn. discriminate.
    + specialize (IH (past ++ tc)).
      destruct (run (dismiss_overlay B before) (past ++ tc)) as [r tb] eqn:Eb.
      intros [= -> <-]. rewrite (IH tb eq_refl).
      flatten.
      destruct (run (dismiss_overlay B rest) _). flatten. reflexivity.
Qed.

Lemma count_silent p {A} (m : M A) past r t :
  silent p m -> run m past = (r, t) -> count p t = 0%nat.
Proof. intros H E. specialize (H past). rewrite E in H. simpl in H. lia. Qed.

(** C5. When the overlay is present and some dismissal control can be
    clicked, after which the overlay is found gone, the recovery is complete
    there: the engine returns normally and never enters [login]. *)
Theorem dismissal_completes_without_login
    B search_url user pwd attempts past t0 before sel after t1 t2 t3 :
  let h0 := past ++ [Ev_call F_clear_signin_overlay_or_reauth] in
  run (is_authwall_modal B) h0 = (Ok true, t0) ->
  dismiss_selectors = before ++ sel :: after ->
  run (dismiss_overlay B before) (h0 ++ t0) = (Ok false, t1) ->
  run (try_click B CSS_SELECTOR sel 2) (h0 ++ t0 ++ t1) = (Ok true, t2) ->
  run (is_authwall_modal B) (h0 ++ t0 ++ t1 ++ t2 ++ [Ev_sleep 500]) = (Ok false, t3) ->
  let t := Ev_call F_clear_signin_overlay_or_reauth
             :: t0 ++ t1 ++ t2 ++ [Ev_sleep 500] ++ t3 in
  run (clear_signin_overlay_or_reauth B search_url user pwd attempts) past = (Ok tt, t)
  /\ count is_login_call t = 0%nat.
Proof.
  intros h0 H0 Hsel H1 H2 H3 t. split.
  - rewrite clear_signin_overlay_or_reauth_unfold.
    rewrite run_bind. cbn [run enter emit]. fold h0.
    change (is_authwall_modal B h0) with (run (is_authwall_modal B) h0) in *.
    rewrite !run_bind, H0. cbn [negb]. rewrite run_bind.
    rewrite Hsel, (dismiss_overlay_app B before (sel :: after) _ t1 H1).
    cbn [dismiss_overlay]. rewrite run_bind.
    rewrite <- !app_assoc. rewrite H2.
    rewrite !run_bind. cbn [run sleep emit].
    rewrite run_bind. flatten. rewrite H3. cbn [negb].
    unfold run, ret. subst t. flatten. reflexivity.
  - subst t. cbn [count is_login_call]. rewrite !count_app.
    rewrite (count_silent _ _ _ _ _ (is_authwall_modal_silent B _ is_login_call_on_calls) H0).
    rewrite (count_silent _ _ _ _ _
               (dismiss_overlay_silent B _ is_login_call_on_calls before) H1).
    rewrite (count_silent _ _ _ _ _
               (try_click_silent B _ is_login_call_on_calls _ _ _) H2).
    rewrite (count_silent _ _ _ _ _ (is_authwall_modal_silent B _ is_login_call_on_calls) H3).
    reflexivity.
Qed.

Lemma try_click_no_search B by_ sel timeout :
  silent is_find_elements (try_click B by_ sel timeout).
Proof. unfold try_click. silence is_login_call_on_calls. Qed.

Lemma login_consent_no_search B sels : silent is_find_elements (login_consent B sels).
Proof.
  induction sels as [|sel rest IH]; cbn [login_consent];
    silence is_login_call_on_calls; apply try_click_no_search.
Qed.

Lemma login_no_search B user pwd : silent is_find_elements (login B user pwd).
Proof.
  unfold login. silence is_login_call_on_calls;
    auto using login_consent_no_search, try_click_no_search.
Qed.

Lemma click_sign_in_no_search B : silent is_find_elements (click_sign_in B).
Proof.
  unfold click_sign_in. apply silent_bind; [apply try_click_no_search|].
  intros []; cbn [negb]; [apply at_most_ret | apply try_click_no_search].
Qed.

Lemma login_enters_once B user pwd past r t :
  run (login B user pwd) past = (r, t) -> count is_login_call t = 1%nat.
Proof.
  intros E.
  pose proof (login_at_most_1 B _ is_login_call_on_calls user pwd past) as Hle.
  rewrite E in Hle. cbn [snd] in Hle.
  unfold login in E. rewrite run_bind in E. cbn [run enter emit] in E.
  destruct (run _ (past ++ [Ev_call F_login])) as [r' t'] in E.
  injection E as _ <-. cbn [app count is_login_call] in *. lia.
Qed.

Lemma is_authwall_modal_trace B past :
  exists m t',
    run (is_authwall_modal B) past
    = (Ok m, Ev_find_elements Driver XPATH authwall_heading
               (on_find_elements B past Driver XPATH authwall_heading) :: t') /\
    (length t' <= 1)%nat /\
    Forall (fun e => is_find_elements e = true) t' /\
    (m = true <->
     exists sc by_ sel e es,
       In (Ev_find_elements sc by_ sel (Ok (e :: es)))
          (Ev_find_elements Driver XPATH authwall_heading
             (on_find_elements B past Driver XPATH authwall_heading) :: t')).
Proof.
  unfold is_authwall_modal. rewrite run_bind, run_try, run_find_elements. cbn [fst snd].
  change "//h2[contains(., 'Sign in to view more jobs')]" with authwall_heading.
  destruct (on_find_elements B past Driver XPATH authwall_heading) as [[|e es]|x] eqn:E1.
  2:{ rewrite run_ret. exists true, []. split; [reflexivity|]. split; [cbn; lia|].
      split; [constructor|]. split; [|reflexivity].
      intros _. exists Driver, XPATH, authwall_heading, e, es. left. reflexivity. }
  all: rewrite run_bind, run_try, run_find_elements; cbn [fst snd];
    destruct (on_find_elements B _ Driver CSS_SELECTOR _) as [[|e' es']|y] eqn:E2;
    rewrite run_ret; eexists _, _; (split; [reflexivity|]);
    (split; [cbn; lia|]); (split; [repeat constructor|]).
  all: cbn [length Z.of_nat Z.ltb Z.compare].
  all: try (split; [discriminate|];
            intros (sc & by_ & sel & e0 & es0 & [H|[H|[]]]); discriminate H).
  all: split; [intros _|reflexivity]; do 5 eexists; right; left; reflexivity.
Qed.

(** The engine from the sign-in click on. *)
Lemma clear_after_sign_in B search_url user pwd attempts past t0 t1 t2 :
  let h0 := past ++ [Ev_call F_clear_signin_overlay_or_reauth] in
  run (is_authwall_modal B) h0 = (Ok true, t0) ->
  run (dismiss_overlay B dismiss_selectors) (h0 ++ t0) = (Ok false, t1) ->
  run (click_sign_in B) (h0 ++ t0 ++ t1) = (Ok true, t2) ->
  let before_login := Ev_call F_clear_signin_overlay_or_reauth :: t0 ++ t1 ++ t2 in
  run (clear_signin_overlay_or_reauth B search_url user pwd attempts) past
  = (let '(r, t) :=
       run (login B user pwd >> get B search_url >> sleep 1000 >>
            if 0 <? attempts
            then let* m' := is_authwall_modal B in
                 if m' then clear_signin_overlay_or_reauth B search_url user pwd
                              (attempts - 1)
                 else ret tt
            else ret tt) (past ++ before_login) in
     (r, before_login ++ t)).
Proof.
  intros h0 H0 H1 H2 before_login.
  rewrite clear_signin_overlay_or_reauth_unfold.
  rewrite run_bind. cbn [run enter emit]. fold h0.
  change (bind (is_authwall_modal B) ?k h0) with (run (bind (is_authwall_modal B) k) h0).
  rewrite run_bind, H0. cbn [negb].
  rewrite run_bind, H1, run_bind. flatten. rewrite H2.
  subst h0 before_login. flatten.
  match goal with |- context [run ?m ?h] => destruct (run m h) as [r t] end.
  flatten. reflexivity.
Qed.

(** C4, as amended. When the overlay is present, the dismissal loop does
    not clear it (in particular when no dismissal control can be clicked)
    and the sign-in control is clicked, the engine enters [login] next, and
    it is the only [login] so far; nothing is searched between the sign-in
    click and the end of [login].  If [login] raises, the engine raises the
    same exception and does nothing more: no navigation, no re-check.  If
    [login] returns, the next driver call is [driver.get(search_url)] (the
    URL [main] opened before calling the engine); if that raises, the
    engine raises with it; if not, the engine sleeps 1 s and then, with a
    positive budget (the default is 1), re-checks: the next driver call is
    the search for the overlay heading, followed by at most one more
    search.  The engine returns there if the re-check finds nothing, and
    starts over with one attempt less if it finds the overlay.  With no
    budget left it returns after the sleep without a re-check. *)
Theorem reauth_once_then_renavigate_then_recheck
    B search_url user pwd attempts past t0 t1 t2 :
  let h0 := past ++ [Ev_call F_clear_signin_overlay_or_reauth] in
  run (is_authwall_modal B) h0 = (Ok true, t0) ->
  run (dismiss_overlay B dismiss_selectors) (h0 ++ t0) = (Ok false, t1) ->
  run (click_sign_in B) (h0 ++ t0 ++ t1) = (Ok true, t2) ->
  let before_login := Ev_call F_clear_signin_overlay_or_reauth :: t0 ++ t1 ++ t2 in
  exists rl t3 r rest,
    run (login B user pwd) (past ++ before_login) = (rl, t3) /\
    run (clear_signin_overlay_or_reauth B search_url user pwd attempts) past
      = (r, before_login ++ t3 ++ rest) /\
    count is_login_call (before_login ++ t3) = 1%nat /\
    count is_find_elements (t2 ++ t3) = 0%nat /\
    match rl with
    | Raise x => r = Raise x /\ rest = []
    | Ok _ =>
        let rg := on_get B (past ++ before_login ++ t3) search_url in
        exists rest', rest = Ev_get search_url rg :: rest' /\
        match rg with
        | Raise x => r = Raise x /\ rest' = []
        | Ok _ =>
            let h4 := past ++ before_login ++ t3 ++ [Ev_get search_url rg; Ev_sleep 1000] in
            exists rest'', rest' = Ev_sleep 1000 :: rest'' /\
            (attempts <= 0 -> r = Ok tt /\ rest'' = []) /\
            (0 < attempts ->
             exists m t4 again,
               rest'' =
                 Ev_find_elements Driver XPATH authwall_heading
                   (on_find_elements B h4 Driver XPATH authwall_heading) :: t4 ++ again /\
               (length t4 <= 1)%nat /\
               Forall (fun e => is_find_elements e = true) t4 /\
               (let recheck :=
                  Ev_find_elements Driver XPATH authwall_heading
                    (on_find_elements B h4 Driver XPATH authwall_heading) :: t4 in
                run (is_authwall_modal B) h4 = (Ok m, recheck) /\
                (m = true <->
                 exists sc by_ sel e es,
                   In (Ev_find_elements sc by_ sel (Ok (e :: es))) recheck) /\
                (m = false -> r = Ok tt /\ again = []) /\
                (m = true ->
                 run (clear_signin_overlay_or_reauth B search_url user pwd (attempts - 1))
                     (h4 ++ recheck) = (r, again))))
        end
    end.
Proof.
  intros h0 H0 H1 H2 before_login.
  pose proof (clear_after_sign_in B search_url user pwd attempts past t0 t1 t2 H0 H1 H2)
    as Hrun.
  cbv zeta in Hrun. fold before_login in Hrun.
  destruct (run (login B user pwd) (past ++ before_login)) as [rl t3] eqn:El.
  assert (Hlogin : count is_login_call (before_login ++ t3) = 1%nat).
  { unfold before_login. cbn [count is_login_call app]. rewrite !count_app.
    rewrite (count_silent _ _ _ _ _ (is_authwall_modal_silent B _ is_login_call_on_calls) H0).
    rewrite (count_silent _ _ _ _ _
               (dismiss_overlay_silent B _ is_login_call_on_calls _) H1).
    rewrite (count_silent _ _ _ _ _ (click_sign_in_silent B _ is_login_call_on_calls) H2).
    rewrite (login_enters_once _ _ _ _ _ _ El). reflexivity. }
  assert (Hsearch : count is_find_elements (t2 ++ t3) = 0%nat).
  { rewrite count_app.
    rewrite (count_silent _ _ _ _ _ (click_sign_in_no_search B) H2).
    rewrite (count_silent _ _ _ _ _ (login_no_search B user pwd) El). reflexivity. }
  rewrite run_bind, El in Hrun.
  exists rl, t3.
  destruct rl as [[]|x].
  2:{ exists (Raise x), []. rewrite app_nil_r. repeat split; auto. }
  rewrite run_bind, run_get in Hrun.
  replace ((past ++ before_login) ++ t3) with (past ++ before_login ++ t3) in Hrun
    by (flatten; reflexivity).
  cbv zeta.
  destruct (on_get B (past ++ before_login ++ t3) search_url) as [[]|x] eqn:Eg.
  2:{ exists (Raise x), [Ev_get search_url (Raise x)].
      split; [reflexivity|]. split; [exact Hrun|]. split; [exact Hlogin|].
      split; [exact Hsearch|]. eexists. split; [reflexivity|]. auto. }
  rewrite run_bind in Hrun. cbn [run sleep emit] in Hrun.
set (h4 := past ++ before_login ++ t3 ++ [Ev_get search_url (Ok tt); Ev_sleep 1000]).
  replace (((past ++ before_login ++ t3) ++ [Ev_get search_url (Ok tt)]) ++ [Ev_sleep 1000])
    with h4 in Hrun by (subst h4; flatten; reflexivity).
  destruct (0 <? attempts) eqn:Hpos.
  - apply Z.ltb_lt in Hpos.
    rewrite run_bind in Hrun.
    destruct (is_authwall_modal_trace B h4) as (m & t4 & Em & Hlen & Hall & Hiff).
    rewrite Em in Hrun.
    set (recheck := Ev_find_elements Driver XPATH authwall_heading
                      (on_find_elements B h4 Driver XPATH authwall_heading) :: t4) in *.
    destruct m.
    + destruct (run (clear_signin_overlay_or_reauth B search_url user pwd (attempts - 1))
                    (h4 ++ recheck)) as [r' again] eqn:Er.
      exists r', ([Ev_get search_url (Ok tt); Ev_sleep 1000] ++ recheck ++ again).
      split; [reflexivity|]. split; [rewrite Hrun; flatten; reflexivity|].
      split; [exact Hlogin|]. split; [exact Hsearch|].
      eexists. split; [reflexivity|]. eexists. split; [reflexivity|].
      split; [intros; lia|]. intros _.
      exists true, t4, again. split; [reflexivity|]. split; [exact Hlen|].
      split; [exact Hall|]. split; [exact Em|]. split; [exact Hiff|].
      split; [discriminate|]. intros _. exact Er.
    + rewrite run_ret in Hrun.
      exists (Ok tt), ([Ev_get search_url (Ok tt); Ev_sleep 1000] ++ recheck).
      split; [reflexivity|]. split; [rewrite Hrun; flatten; reflexivity|].
      split; [exact Hlogin|]. split; [exact Hsearch|].
      eexists. split; [reflexivity|]. eexists. split; [reflexivity|].
      split; [intros; lia|]. intros _.
      exists false, t4, []. split; [rewrite app_nil_r; reflexivity|]. split; [exact Hlen|].
      split; [exact Hall|]. split; [exact Em|]. split; [exact Hiff|].
      split; [auto|]. discriminate.
  - apply Z.ltb_ge in Hpos. rewrite run_ret in Hrun.
    exists (Ok tt), [Ev_get search_url (Ok tt); Ev_sleep 1000].
    split; [reflexivity|]. split; [rewrite Hrun; flatten; reflexivity|].
    split; [exact Hlogin|]. split; [exact Hsearch|].
    eexists. split; [reflexivity|]. eexists. split; [reflexivity|].
    split; [auto|]. intros; lia.
Qed.

(** ** The link set *)

Lemma split_item0_no_sep sep s :
  PyStr.contains_char sep (PyStr.item0 (PyStr.split sep s)) = false.
Proof.
  induction s as [|c s IH]; cbn [PyStr.split]; [reflexivity|].
  destruct (Ascii.eqb c sep) eqn:E; [reflexivity|].
  destruct (PyStr.split sep s) as [|x xs]; cbn in *; rewrite E; [reflexivity|].
  exact IH.
Qed.

Lemma canonical_no_query href : PyStr.contains_char "?" (canonical href) = false.
Proof. apply split_item0_no_sep. Qed.

Lemma harvested_in_no_query t u : harvested_in t u -> PyStr.contains_char "?" u = false.
Proof. intros (a & attr & _ & _ & ->). apply canonical_no_query. Qed.

Lemma harvested_in_app_l t1 t2 u : harvested_in t1 u -> harvested_in (t1 ++ t2) u.
Proof.
  intros (a & attr & Hin & H). exists a, attr. split; [|exact H].
  apply in_or_app. auto.
Qed.

Lemma harvested_in_app_r t1 t2 u : harvested_in t2 u -> harvested_in (t1 ++ t2) u.
Proof.
  intros (a & attr & Hin & H). exists a, attr. split; [|exact H].
  apply in_or_app. auto.
Qed.

Lemma grows_refl links : grows links links [].
Proof. repeat split; [set_solver | auto | simpl; lia]. Qed.

Lemma grows_trans links1 links2 links3 t1 t2 :
  grows links1 links2 t1 -> grows links2 links3 t2 -> grows links1 links3 (t1 ++ t2).
Proof.
  intros (S1 & M1 & C1) (S2 & M2 & C2). repeat split.
  - set_solver.
  - intros u Hu. destruct (M2 u Hu) as [H|H].
    + destruct (M1 u H) as [H'|H']; auto using harvested_in_app_l.
    + auto using harvested_in_app_r.
  - rewrite count_app. lia.
Qed.

Lemma grows_skip links links' t0 t :
  grows links links' t -> grows links links' (t0 ++ t).
Proof.
  intros (S1 & M1 & C1). repeat split; [exact S1| |rewrite count_app; lia].
  intros u Hu. destruct (M1 u Hu); auto using harvested_in_app_r.
Qed.

Lemma size_add_le (x : string) (X : gset string) : (size ({[ x ]} ∪ X) <= S (size X))%nat.
Proof.
  rewrite size_union_alt, size_singleton.
  assert (Hsub : X ∖ {[ x ]} ⊆ X) by apply subseteq_difference_l, reflexivity.
  apply subseteq_size in Hsub. lia.
Qed.

Lemma harvest_anchors_grows B anchors links past links' t :
  run (harvest_anchors B anchors links) past = (Ok links', t) -> grows links links' t.
Proof.
  revert links past t. induction anchors as [|a rest IH]; intros links past t.
  - intros [= <- <-]. apply grows_refl.
  - cbn [harvest_anchors]. intros E.
    apply bind_inv in E as (attr & t1 & t2 & E1 & E2 & ->).
    unfold get_attribute in E1. cbn [run ask] in E1.
    injection E1 as Hattr <-. rewrite Hattr. cbv zeta in E2.
    destruct (PyStr.startswith (href_of attr) job_view_prefix) eqn:Q.
    + apply IH in E2 as (S1 & M1 & C1). repeat split.
      * set_solver.
      * intros u Hu. destruct (M1 u Hu) as [H|H].
        -- apply elem_of_union in H as [H|H]; [|auto].
           apply elem_of_singleton in H. right. exists a, attr.
           cbn [app In]. auto.
        -- right. apply (harvested_in_app_r [_]), H.
      * cbn [app count is_qualifying_href].
        rewrite String.eqb_refl, Q. cbn [andb].
        pose proof (size_add_le (canonical (href_of attr)) links). lia.
    + apply IH in E2. apply (grows_skip _ _ [_]), E2.
Qed.

Lemma harvest_grows B links past links' t :
  run (harvest B links) past = (Ok links', t) -> grows links links' t.
Proof.
  unfold harvest. intros E.
  apply bind_inv in E as ([] & t0 & t1 & _ & E & ->). apply grows_skip.
  apply bind_inv in E as (container & t2 & t3 & _ & E & ->). apply grows_skip.
  destruct container as [c|].
  - apply bind_inv in E as (a1 & t4 & t5 & _ & E & ->). apply grows_skip.
    apply bind_inv in E as (a2 & t6 & t7 & _ & E & ->). apply grows_skip.
    apply bind_inv in E as (a3 & t8 & t9 & _ & E & ->). apply grows_skip.
    eapply harvest_anchors_grows, E.
  - apply bind_inv in E as (s & t4 & t5 & _ & E & ->).
    apply bind_inv in E as (u & t6 & t7 & _ & E & ->). discriminate E.
Qed.

Lemma paginate_grows B pages links past links' t :
  run (paginate B pages links) past = (Ok links', t) -> grows links links' t.
Proof.
  revert links past t. induction pages as [|page rest IH]; intros links past t.
  - intros [= <- <-]. apply grows_refl.
  - cbn [paginate]. intros E.
    apply bind_inv in E as (clicked & t0 & t1 & _ & E & ->). apply grows_skip.
    destruct clicked; cbn [negb] in E.
    + apply bind_inv in E as ([] & t2 & t3 & _ & E & ->). apply grows_skip.
      apply bind_inv in E as (links1 & t4 & t5 & E1 & E & ->).
      eapply grows_trans; [eapply harvest_grows, E1 | eapply IH, E].
    + injection E as <- <-. apply grows_refl.
Qed.

Lemma harvest_enters_first B links past r t :
  run (harvest B links) past = (r, t) -> exists t', t = Ev_call F_harvest :: t'.
Proof.
  unfold harvest. rewrite run_bind. cbn [run enter emit].
  destruct (run _ (past ++ [Ev_call F_harvest])) as [r' t'] eqn:E.
  intros [= _ <-]. exists t'. reflexivity.
Qed.

Lemma collect_links_grows B pages past l t :
  run (collect_links B pages) past = (Ok l, t) ->
  exists links t', l = elements links /\ grows ∅ links t /\ t = Ev_call F_harvest :: t'.
Proof.
  unfold collect_links. intros E.
  apply bind_inv in E as (links1 & t1 & t2 & E1 & E & ->).
  apply bind_inv in E as (links2 & t3 & t4 & E2 & E & ->).
  injection E as <- <-.
  destruct (harvest_enters_first _ _ _ _ _ E1) as (t' & ->).
  exists links2, (t' ++ t3 ++ []). split; [reflexivity|]. split; [|reflexivity].
  eapply grows_trans; [eapply harvest_grows, E1|].
  rewrite app_nil_r. eapply paginate_grows, E2.
Qed.

Lemma sum_page_yields_from cur t :
  sum_list (page_yields_from cur t) = (cur + count is_qualifying_href t)%nat.
Proof.
  revert cur. induction t as [|e t IH]; intros cur; cbn [page_yields_from count].
  - cbn. lia.
  - destruct (is_harvest_call e) eqn:H.
    + destruct e as [| | | | | | | | | | | | | |[]]; try discriminate H.
      change (sum_list (cur :: page_yields_from 0 t))
        with (cur + sum_list (page_yields_from 0 t))%nat.
      rewrite IH. cbn [is_qualifying_href]. lia.
    + rewrite IH. destruct (is_qualifying_href e); lia.
Qed.

Lemma length_page_yields_from cur t :
  length (page_yields_from cur t) = S (count is_harvest_call t).
Proof.
  revert cur. induction t as [|e t IH]; intros cur; cbn [page_yields_from count].
  - reflexivity.
  - destruct (is_harvest_call e); cbn [length]; rewrite IH; reflexivity.
Qed.

Lemma sum_list_le_max (l : list nat) : (sum_list l <= max_list l * length l)%nat.
Proof.
  induction l as [|x l IH]; [cbn; lia|].
  change (sum_list (x :: l)) with (x + sum_list l)%nat.
  change (max_list (x :: l)) with (x `max` max_list l)%nat.
  cbn [length]. nia.
Qed.

(** C2. Whatever [pages] is (so for every [pages >= 1]) and whatever hrefs
    the pages give, the list [collect_links] returns has no duplicates;
    each member is the part before the first question mark of a harvested
    href that passed the test, and so has no query string; and its length
    is at most the qualifying anchors read, page by page, hence at most the
    largest number of them on one page times the number of pages visited. *)
Theorem collect_links_unique_canonical_bounded B pages past l t :
  run (collect_links B pages) past = (Ok l, t) ->
  NoDup l /\
  Forall (fun u => harvested_in t u /\ PyStr.contains_char "?" u = false) l /\
  length (page_yields t) = pages_visited t /\
  (length l <= sum_list (page_yields t))%nat /\
  (length l <= max_list (page_yields t) * pages_visited t)%nat.
Proof.
  intros E. apply collect_links_grows in E as (links & t' & -> & (_ & Hm & Hc) & ->).
  assert (Hy : page_yields (Ev_call F_harvest :: t') = page_yields_from 0 t')
    by reflexivity.
  assert (Hs : sum_list (page_yields (Ev_call F_harvest :: t'))
               = count is_qualifying_href (Ev_call F_harvest :: t')).
  { rewrite Hy, sum_page_yields_from. reflexivity. }
  assert (Hl : length (page_yields (Ev_call F_harvest :: t'))
               = pages_visited (Ev_call F_harvest :: t')).
  { rewrite Hy, length_page_yields_from. reflexivity. }
  assert (Hlen : (length (elements links) <= sum_list (page_yields (Ev_call F_harvest :: t')))%nat).
  { rewrite Hs. rewrite size_empty in Hc. exact Hc. }
  split; [apply NoDup_elements|]. split; [|split; [exact Hl|split; [exact Hlen|]]].
  - apply Forall_forall. intros u Hu. apply elem_of_elements in Hu.
    destruct (Hm u Hu) as [H|H]; [set_solver|].
    split; [exact H | eapply harvested_in_no_query, H].
  - rewrite <- Hl. etransitivity; [exact Hlen | apply sum_list_le_max].
Qed.

(** ** Pagination *)

Lemma paginate_visited B before rest links past links' t :
  visited B before links past links' t ->
  run (paginate B (before ++ rest) links) past =
  (let '(r, t2) := run (paginate B rest links') (past ++ t) in (r, t ++ t2)).
Proof.
  induction 1 as [links past | page pages links past t1 links1 t2 links2 t3 Hc Hh Hv IH].
  - flatten. destruct (run (paginate B rest links) past). reflexivity.
  - cbn [app paginate]. rewrite run_bind, Hc. cbn [negb].
    rewrite run_bind. cbn [run sleep emit].
    change (bind (harvest B links) ?k ?h) with (run (bind (harvest B links) k) h).
    rewrite run_bind. flatten. cbn [app] in Hh. rewrite Hh.
    flatten. cbn [app] in IH. rewrite IH. clear IH. flatten.
    destruct (run (paginate B rest links2) _). flatten. reflexivity.
Qed.

Lemma paginate_stops B page rest links past t :
  run (click_page B (page_selectors page)) past = (Ok false, t) ->
  run (paginate B (page :: rest) links) past = (Ok links, t).
Proof.
  intros H. cbn [paginate]. rewrite run_bind, H. cbn [negb].
  unfold run, ret. flatten. reflexivity.
Qed.

(** C7. For every page index of the loop, [2 .. pages]: when the pages
    before it were reached and harvested and no control for it can be
    clicked, [collect_links] ends there and returns, as a normal result,
    the set accumulated so far, which contains the links of page 1. *)
Theorem missing_page_control_stops_pagination
    B pages past links1 t1 before page after links t2 t3 :
  range 2 (Z.max 2 (pages + 1)) = before ++ page :: after ->
  run (harvest B ∅) past = (Ok links1, t1) ->
  visited B before links1 (past ++ t1) links t2 ->
  run (click_page B (page_selectors page)) (past ++ t1 ++ t2) = (Ok false, t3) ->
  run (collect_links B pages) past = (Ok (elements links), t1 ++ t2 ++ t3)
  /\ links1 ⊆ links
  /\ 2 <= page <= pages.
Proof.
  intros Hr Hh Hv Hc. split; [|split].
  - unfold collect_links. rewrite run_bind, Hh, run_bind, Hr.
    rewrite (paginate_visited _ _ _ _ _ _ _ Hv). flatten.
    rewrite (paginate_stops _ _ _ _ _ _ Hc).
    unfold run, ret. flatten. reflexivity.
  - clear Hr Hc Hh. induction Hv as [|? ? ? ? ? ? ? ? ? _ Hh _ IH]; [set_solver|].
    apply harvest_grows in Hh as (Hs & _). set_solver.
  - assert (Hin : page ∈ range 2 (Z.max 2 (pages + 1))).
    { rewrite Hr. apply elem_of_app. right. apply elem_of_cons. auto. }
    unfold range in Hin. apply elem_of_seqZ in Hin. lia.
Qed.

(** ** One page only *)

Lemma find_first_container_no_click B candidates :
  silent is_click_attempt (find_first_container B candidates).
Proof.
  induction candidates as [|sel rest IH]; cbn [find_first_container];
    silence is_login_call_on_calls.
Qed.

Lemma harvest_anchors_no_click B anchors links :
  silent is_click_attempt (harvest_anchors B anchors links).
Proof.
  revert links. induction anchors as [|a rest IH]; intros links;
    cbn [harvest_anchors]; silence is_login_call_on_calls; apply IH.
Qed.

Lemma harvest_no_click B links : silent is_click_attempt (harvest B links).
Proof.
  unfold harvest, _find_results_container.
  apply silent_bind; [apply at_most_emit; reflexivity|]. intros _.
  apply silent_bind; [apply find_first_container_no_click|].
  intros [c|]; silence is_login_call_on_calls. apply harvest_anchors_no_click.
Qed.

Lemma harvest_enters_once B links past r t :
  run (harvest B links) past = (r, t) -> count is_harvest_call t = 1%nat.
Proof.
  unfold harvest. rewrite run_bind. cbn [run enter emit].
  destruct (run _ (past ++ [Ev_call F_harvest])) as [r' t'] eqn:E.
  intros [= _ <-]. cbn [app count is_harvest_call].
  assert (H : count is_harvest_call t' = 0%nat); [|lia].
  eapply (count_silent is_harvest_call), E.
  unfold _find_results_container.
  apply silent_bind; [apply find_first_container_silent, is_harvest_call_on_calls|].
  intros [c|]; silence is_harvest_call_on_calls.
  apply harvest_anchors_silent, is_harvest_call_on_calls.
Qed.

(** C10. For [pages <= 1], zero and negative values included, the loop
    over the pages has nothing to run on: [collect_links] is one [harvest]
    from the empty set, whose links it returns; [harvest] is entered exactly
    once and no control is waited for or clicked. *)
Theorem single_page_harvests_once B pages past :
  pages <= 1 ->
  let '(r, t) := run (harvest B ∅) past in
  run (collect_links B pages) past
    = (match r with Ok links => Ok (elements links) | Raise e => Raise e end, t)
  /\ range 2 (Z.max 2 (pages + 1)) = []
  /\ count is_harvest_call t = 1%nat
  /\ count is_click_attempt t = 0%nat.
Proof.
  intros Hp. destruct (run (harvest B ∅) past) as [r t] eqn:E.
  assert (Hr : range 2 (Z.max 2 (pages + 1)) = []).
  { unfold range. replace (Z.max 2 (pages + 1) - 2) with 0 by lia. reflexivity. }
  split; [|split; [exact Hr|split]].
  - unfold collect_links. rewrite run_bind, E, Hr. destruct r as [links|e]; [|reflexivity].
    cbn [paginate]. unfold run, bind, ret. flatten. reflexivity.
  - eapply harvest_enters_once, E.
  - eapply count_silent, E. apply harvest_no_click.
Qed.

(** ** The detail page *)

Lemma is_scrape_call_on_calls : on_calls_only is_scrape_call.
Proof. intros []; simpl; auto. Qed.

Lemma first_text_safe B sc selectors timeout : safe (first_text B sc selectors timeout).
Proof.
  induction selectors as [|[by_ sel] rest IH]; cbn [first_text]; safety.
Qed.

Lemma description_of_silent B p desc_container :
  on_calls_only p -> silent p (description_of B desc_container).
Proof. intros Hp. destruct desc_container; cbn [description_of]; silence Hp. Qed.

Lemma scrape_job_try_silent B p link :
  on_calls_only p -> silent p (scrape_job_try B link).
Proof.
  intros Hp. unfold scrape_job_try.
  repeat first
    [ apply silent_bind; [|intros ?]
    | apply try_click_silent, Hp
    | apply first_text_silent, Hp
    | apply description_of_silent, Hp
    | progress silence Hp ].
Qed.

Lemma scrape_job_safe B link : safe (scrape_job B link).
Proof. unfold scrape_job. safety. Qed.

Lemma scrape_links_safe B links records : safe (scrape_links B links records).
Proof.
  revert records. induction links as [|link rest IH]; intros records;
    cbn [scrape_links]; [apply safe_ret|].
  apply safe_bind; [apply scrape_job_safe|]. intros rec. cbv zeta.
  apply safe_bind; [apply safe_emit|]. intros _. apply IH.
Qed.

Lemma scraped_app t1 t2 : scraped (t1 ++ t2) = scraped t1 ++ scraped t2.
Proof.
  induction t1 as [|e t1 IH]; [reflexivity|].
  destruct e as [| | | | | | | | | | | | | |[]]; cbn [app scraped]; rewrite IH;
    reflexivity.
Qed.

Lemma scraped_none t : count is_scrape_call t = 0%nat -> scraped t = [].
Proof.
  induction t as [|e t IH]; [reflexivity|].
  destruct e as [| | | | | | | | | | | | | |[]]; cbn [count is_scrape_call scraped];
    try (intros H; apply IH; lia). discriminate.
Qed.

Lemma scrape_job_scraped B link past r t :
  run (scrape_job B link) past = (r, t) -> scraped t = [link].
Proof.
  unfold scrape_job. rewrite run_bind. cbn [run enter emit].
  change (bind (try (scrape_job_try B link)) ?k ?h)
    with (run (bind (try (scrape_job_try B link)) k) h).
  rewrite run_bind, run_try.
  pose proof (scrape_job_try_silent B _ link is_scrape_call_on_calls
                (past ++ [Ev_call (F_scrape_job link)])) as Hs.
  destruct (run (scrape_job_try B link) _) as [[o|e] t']; cbn [fst snd] in *.
  - unfold run, ret. intros [= _ <-]. flatten. cbn [scraped].
    rewrite scraped_none by lia. reflexivity.
  - destruct e; unfold run, ret; intros [= _ <-]; flatten; cbn [scraped];
      rewrite scraped_none by lia; reflexivity.
Qed.

Lemma scrape_links_scraped B links records past r t :
  run (scrape_links B links records) past = (r, t) -> scraped t = links.
Proof.
  revert records past r t. induction links as [|link rest IH]; intros records past r t.
  - intros [= _ <-]. reflexivity.
  - cbn [scrape_links]. rewrite run_bind.
    destruct (scrape_job_safe B link past) as (rec & t1 & E1). rewrite E1.
    cbv zeta. rewrite run_bind. cbn [run sleep emit].
    destruct (run (scrape_links B rest _) _) as [r2 t2] eqn:E2.
    intros [= _ <-]. flatten. rewrite scraped_app.
    rewrite (scrape_job_scraped _ _ _ _ _ E1). cbn [scraped app].
    rewrite (IH _ _ _ _ E2). reflexivity.
Qed.

(** C9. Whatever exception the body of [scrape_job] raises on a detail
    page (the time-out on the top card or any other), [scrape_job] returns
    [None] for that page; it never raises; and the loop of [main] over the
    links calls it on every link in turn and ends normally, whatever
    happened on each page. *)
Theorem scrape_failure_stays_on_its_page B link e t1 past links records past' :
  (run (scrape_job_try B link) (past ++ [Ev_call (F_scrape_job link)]) = (Raise e, t1) ->
   run (scrape_job B link) past = (Ok None, Ev_call (F_scrape_job link) :: t1)) /\
  (exists o t, run (scrape_job B link) past = (Ok o, t)) /\
  (exists recs t,
     run (scrape_links B links records) past' = (Ok recs, t) /\ scraped t = links).
Proof.
  split; [|split].
  - intros E. unfold scrape_job. rewrite run_bind. cbn [run enter emit].
    change (bind (try (scrape_job_try B link)) ?k ?h)
      with (run (bind (try (scrape_job_try B link)) k) h).
    rewrite run_bind, run_try, E. cbn [fst snd].
    destruct e; unfold run, ret; flatten; reflexivity.
  - apply scrape_job_safe.
  - destruct (scrape_links_safe B links records past') as (recs & t & E).
    exists recs, t. split; [exact E|]. eapply scrape_links_scraped, E.
Qed.

(** A field none of whose selectors is ever found has no text. *)
Lemma first_text_missing B sc sels timeout past :
  (forall h sel, In sel sels ->
     exists x, on_until B h sc timeout presence_of_element_located CSS_SELECTOR sel
               = Raise x) ->
  exists t,
    run (first_text B sc (map (fun sel => (CSS_SELECTOR, sel)) sels) timeout) past
    = (Ok None, t).
Proof.
  revert past. induction sels as [|sel rest IH]; intros past H.
  - exists []. reflexivity.
  - cbn [map first_text]. rewrite run_bind.
    destruct (H past sel (or_introl eq_refl)) as (x & Hx).
    erewrite run_try_eq by (rewrite run_bind, run_until, Hx; reflexivity).
    destruct (IH (past ++ [Ev_until sc timeout presence_of_element_located
                             CSS_SELECTOR sel (Raise x)])) as (t & E).
    { intros h s Hs. apply H. right. exact Hs. }
    rewrite E. eexists. reflexivity.
Qed.

(** A field whose first selector is always found, with a text that is not
    blank, has that text, stripped. *)
Lemma first_text_found B sc sel rest timeout el s past :
  (forall h, on_until B h sc timeout presence_of_element_located CSS_SELECTOR sel = Ok el) ->
  (forall h, on_text B h el = Ok s) ->
  PyStr.strip s <> "" ->
  exists t,
    run (first_text B sc ((CSS_SELECTOR, sel) :: rest) timeout) past
    = (Ok (Some (PyStr.strip s)), t).
Proof.
  intros Hu Ht Hs. cbn [first_text]. rewrite run_bind.
  erewrite run_try_eq
    by (rewrite run_bind, run_until, Hu, run_bind, run_text, Ht, run_ret; reflexivity).
  cbn [PyStr.truthy]. apply String.eqb_neq in Hs. rewrite Hs. cbn [negb].
  rewrite run_ret. eexists. reflexivity.
Qed.

(** What [scrape_job] makes of the outcome of its body. *)
Lemma scrape_job_of_try B link past o t :
  run (scrape_job_try B link) (past ++ [Ev_call (F_scrape_job link)]) = (Ok o, t) ->
  run (scrape_job B link) past = (Ok o, Ev_call (F_scrape_job link) :: t).
Proof.
  intros E. unfold scrape_job. rewrite run_bind. cbn [run enter emit].
  change (bind (try (scrape_job_try B link)) ?k ?h)
    with (run (bind (try (scrape_job_try B link)) k) h).
  rewrite run_bind, run_try, E. cbn [fst snd]. unfold run, ret. flatten. reflexivity.
Qed.

Lemma scrape_job_inv B link past rec t :
  run (scrape_job B link) past = (Ok (Some rec), t) ->
  exists t', run (scrape_job_try B link) (past ++ [Ev_call (F_scrape_job link)])
             = (Ok (Some rec), t').
Proof.
  unfold scrape_job. rewrite run_bind. cbn [run enter emit].
  change (bind (try (scrape_job_try B link)) ?k ?h)
    with (run (bind (try (scrape_job_try B link)) k) h).
  rewrite run_bind, run_try.
  destruct (run (scrape_job_try B link) _) as [[o|e] t']; cbn [fst snd].
  - unfold run, ret. intros [= -> _]. exists t'. reflexivity.
  - destruct e; unfold run, ret; discriminate.
Qed.

(** A record comes with a title or a description. *)
Lemma scrape_job_try_valid B link past rec t :
  run (scrape_job_try B link) past = (Ok (Some rec), t) ->
  PyStr.truthy (job_title rec) || PyStr.truthy (job_description rec) = true.
Proof.
  unfold scrape_job_try. intros E.
  repeat (apply bind_inv in E as (? & ? & ? & _ & E & _)).
  match type of E with
  | run (if ?c then _ else _) _ = _ => destruct c eqn:V
  end; [discriminate E|].
  injection E as <- _. cbn [job_title job_description].
  destruct (PyStr.truthy _), (PyStr.truthy _); try reflexivity; discriminate V.
Qed.

Ltac step_safe H :=
  rewrite run_bind;
  match goal with
  | |- context [run _ ?h] =>
      let E := fresh "E" in
      destruct (H h) as (? & ? & E); rewrite E; clear E
  end.

Lemma first_text_blank B sc sels timeout past :
  (forall sel, In sel sels -> blank_field B sc timeout sel) ->
  exists t,
    run (first_text B sc (map (fun sel => (CSS_SELECTOR, sel)) sels) timeout) past
    = (Ok None, t).
Proof.
  revert past. induction sels as [|sel rest IH]; intros past H.
  - exists []. reflexivity.
  - cbn [map first_text]. rewrite run_bind.
    pose proof (H sel (or_introl eq_refl) past) as Hb.
    destruct (IH (past ++ snd (run (let* elem := until B sc timeout presence_of_element_located
                                                   CSS_SELECTOR sel in
                                    let* t := text B elem in ret (PyStr.strip t)) past)))
      as (t & E).
    { intros s Hs. apply H. right. exact Hs. }
    match goal with
    | |- context [run (try ?m) past] => destruct (run m past) as [r tb] eqn:Eb
    end.
    rewrite (run_try_eq _ _ _ _ Eb). cbn [snd] in E.
    rewrite run_bind, run_until in Eb.
    destruct (on_until B past sc timeout presence_of_element_located CSS_SELECTOR sel)
      as [el|x].
    + rewrite run_bind, run_text in Eb.
      destruct (on_text B _ el) as [txt|x].
      * rewrite run_ret in Eb. injection Eb as <- <-. rewrite Hb.
        change (PyStr.truthy (Some "")) with false. cbv iota. rewrite E. eexists. reflexivity.
      * injection Eb as <- <-. rewrite E. eexists. reflexivity.
    + injection Eb as <- <-. rewrite E. eexists. reflexivity.
Qed.

Lemma scrape_job_try_blank B link past rec t :
  no_title B -> no_description B ->
  run (scrape_job_try B link) past <> (Ok (Some rec), t).
Proof.
  intros Ht Hd E. unfold scrape_job_try in E.
  apply bind_inv in E as (? & ? & ? & _ & E & _).
  apply bind_inv in E as (? & ? & ? & _ & E & _).
  apply bind_inv in E as (? & ? & ? & _ & E & _).
  apply bind_inv in E as (top & ? & ? & Etop & E & _).
  rewrite run_until in Etop. injection Etop as Etop _.
  apply bind_inv in E as (title & ? & ? & E1 & E & _).
  match type of E1 with
  | run _ ?h = _ =>
      destruct (first_text_blank B (Within top) title_selectors 6 h (Ht _ _ Etop))
        as (t1 & E1')
  end.
  cbn [map title_selectors] in E1'. rewrite E1' in E1. injection E1 as <- _.
  do 5 (apply bind_inv in E as (? & ? & ? & _ & E & _)).
  apply bind_inv in E as (dc & ? & ? & Ed & E & _).
  rewrite run_find_elements in Ed. injection Ed as Ed <-.
  apply bind_inv in E as (description & ? & ? & Ed' & E & _).
  assert (Hdesc : PyStr.truthy description = false).
  { change ".jobs-description__content .jobs-box__html-content"
      with description_selector in Ed.
    match type of Ed with on_find_elements B ?h _ _ _ = _ => pose proof (Hd h) as Hd' end.
    rewrite Ed in Hd'. destruct dc as [|e es]; cbn [description_of] in Ed'.
    - rewrite run_ret in Ed'. injection Ed' as <- _. reflexivity.
    - apply bind_inv in Ed' as (txt & ? & ? & Etxt & Ed' & _).
      rewrite run_text in Etxt. injection Etxt as Etxt _.
      change ".jobs-description__content .jobs-box__html-content"
        with description_selector in Etxt.
      rewrite Ed in Etxt. rewrite Etxt in Hd'. rewrite run_ret in Ed'. injection Ed' as <- _.
      rewrite Hd'. reflexivity. }
  rewrite Hdesc in E. cbn [PyStr.truthy negb andb] in E. rewrite run_ret in E.
  discriminate E.
Qed.

(** C3. [scrape_job] returns a record only with a title or a description
    that is not empty.  On a page that gives neither (in any top card it
    shows, no title field gives a text that is not blank, and the
    description block is missing, unreadable or blank) it returns [None],
    whatever else the page does.  On a page whose top card is found, whose
    title selectors are never found and whose description block has a text
    that is not blank, it returns a record, without a title and with that
    description. *)
Theorem record_needs_title_or_description B link past :
  (forall rec t,
     run (scrape_job B link) past = (Ok (Some rec), t) ->
     PyStr.truthy (job_title rec) || PyStr.truthy (job_description rec) = true) /\
  (no_title B -> no_description B ->
   exists t, run (scrape_job B link) past = (Ok None, t)) /\
  (forall top e es d,
     (forall h, on_get B h link = Ok tt) ->
     (forall h, on_until B h Driver 8 presence_of_element_located CSS_SELECTOR
                  top_card_selector = Ok top) ->
     (forall h sel, In sel title_selectors ->
        exists x, on_until B h (Within top) 6 presence_of_element_located CSS_SELECTOR sel
                  = Raise x) ->
     (forall h, on_find_elements B h Driver CSS_SELECTOR description_selector
                = Ok (e :: es)) ->
     (forall h, on_text B h e = Ok d) ->
     PyStr.strip d <> "" ->
     exists rec t,
       run (scrape_job B link) past = (Ok (Some rec), t) /\
       job_title rec = None /\
       job_description rec = Some (PyStr.strip d) /\
       url rec = link).
Proof.
  split; [|split].
  - intros rec t E. apply scrape_job_inv in E as (t' & E).
    eapply scrape_job_try_valid, E.
  - intros Ht Hd. destruct (scrape_job_safe B link past) as (o & t & E).
    exists t. destruct o as [rec|]; [|exact E].
    apply scrape_job_inv in E as (t' & E).
    destruct (scrape_job_try_blank B link _ rec t' Ht Hd E).
  - intros top e es d Hget Htop Htitle Hfind Htext Hd.
    set (h0 := past ++ [Ev_call (F_scrape_job link)]).
    assert (exists rec t, run (scrape_job_try B link) h0 = (Ok (Some rec), t) /\
              job_title rec = None /\ job_description rec = Some (PyStr.strip d) /\
              url rec = link) as (rec & t & E & H).
    { unfold scrape_job_try. generalize h0. intros h.
      rewrite run_bind, run_get, Hget.
      step_safe (try_click_safe B CSS_SELECTOR ".show-more-less-html__button" 4).
      step_safe (try_click_safe B CSS_SELECTOR ".artdeco-card__actions button" 3).
      rewrite run_bind, run_until.
      change ".jobs-unified-top-card" with top_card_selector. rewrite Htop.
      rewrite run_bind.
      match goal with
      | |- context [run (first_text B (Within top) ?l 6) ?h] =>
          destruct (first_text_missing B (Within top) title_selectors 6 h Htitle)
            as (tt1 & E1); cbn [map title_selectors] in E1; rewrite E1; clear E1
      end.
      do 5 (rewrite run_bind;
            match goal with
            | |- context [run (first_text B (Within top) ?l 6) ?h] =>
                let E := fresh "E" in
                destruct (first_text_safe B (Within top) l 6 h) as (? & ? & E);
                rewrite E; clear E
            end).
      rewrite run_bind, run_find_elements.
      change ".jobs-description__content .jobs-box__html-content"
        with description_selector. rewrite Hfind.
      rewrite run_bind. cbn [description_of].
      rewrite run_bind, run_text, Htext, run_ret.
      cbn [PyStr.truthy negb andb].
      apply String.eqb_neq in Hd. rewrite Hd. cbn [negb andb].
      rewrite run_ret. eexists _, _. split; [reflexivity|]. cbn. auto. }
    exists rec, (Ev_call (F_scrape_job link) :: t).
    split; [apply scrape_job_of_try, E | exact H].
Qed.

(** C8, as amended. On a detail page whose top card is found, whose [h1]
    has the text "Data Analyst" (or any text that is not blank), whose
    company link has a text that is not blank and which has no description
    block, [scrape_job] returns a record with that title, that company
    name, the input URL, and no description: [None], not the empty
    string. *)
Theorem record_without_description_block B link past top e_title title e_company company :
  (forall h, on_get B h link = Ok tt) ->
  (forall h, on_until B h Driver 8 presence_of_element_located CSS_SELECTOR
               top_card_selector = Ok top) ->
  (forall h, on_until B h (Within top) 6 presence_of_element_located CSS_SELECTOR "h1"
             = Ok e_title) ->
  (forall h, on_text B h e_title = Ok title) ->
  PyStr.strip title <> "" ->
  (forall h, on_until B h (Within top) 6 presence_of_element_located CSS_SELECTOR
               company_selector = Ok e_company) ->
  (forall h, on_text B h e_company = Ok company) ->
  PyStr.strip company <> "" ->
  (forall h, on_find_elements B h Driver CSS_SELECTOR description_selector = Ok []) ->
  exists rec t,
    run (scrape_job B link) past = (Ok (Some rec), t) /\
    job_title rec = Some (PyStr.strip title) /\
    company_name rec = Some (PyStr.strip company) /\
    job_description rec = None /\
    url rec = link.
Proof.
  intros Hget Htop Hh1 Htitle Ht Hco Hcompany Hc Hfind.
  set (h0 := past ++ [Ev_call (F_scrape_job link)]).
  assert (exists rec t, run (scrape_job_try B link) h0 = (Ok (Some rec), t) /\
            job_title rec = Some (PyStr.strip title) /\
            company_name rec = Some (PyStr.strip company) /\
            job_description rec = None /\ url rec = link) as (rec & t & E & H).
  { unfold scrape_job_try. generalize h0. intros h.
    rewrite run_bind, run_get, Hget.
    step_safe (try_click_safe B CSS_SELECTOR ".show-more-less-html__button" 4).
    step_safe (try_click_safe B CSS_SELECTOR ".artdeco-card__actions button" 3).
    rewrite run_bind, run_until.
    change ".jobs-unified-top-card" with top_card_selector. rewrite Htop.
    rewrite run_bind.
    match goal with
    | |- context [run (first_text B (Within top) (_ :: ?l) 6) ?h] =>
        destruct (first_text_found B (Within top) "h1" l 6 e_title title h Hh1 Htitle Ht)
          as (tt1 & E1); rewrite E1; clear E1
    end.
    rewrite run_bind.
    match goal with
    | |- context [run (first_text B (Within top) (_ :: ?l) 6) ?h] =>
        destruct (first_text_found B (Within top) company_selector l 6 e_company company
                    h Hco Hcompany Hc)
          as (tt2 & E2); unfold company_selector in E2; rewrite E2; clear E2
    end.
    do 4 (rewrite run_bind;
          match goal with
          | |- context [run (first_text B (Within top) ?l 6) ?h] =>
              let E := fresh "E" in
              destruct (first_text_safe B (Within top) l 6 h) as (? & ? & E);
              rewrite E; clear E
          end).
    rewrite run_bind, run_find_elements.
    change ".jobs-description__content .jobs-box__html-content"
      with description_selector. rewrite Hfind.
    rewrite run_bind. cbn [description_of]. rewrite run_ret.
    cbn [PyStr.truthy negb andb].
    apply String.eqb_neq in Ht. rewrite Ht. cbn [negb andb].
    rewrite run_ret. eexists _, _. split; [reflexivity|]. cbn. auto. }
  exists rec, (Ev_call (F_scrape_job link) :: t).
  split; [apply scrape_job_of_try, E | exact H].
Qed.

(** ** When the recovery engine runs *)

Lemma count_le p q t :
  (forall e, p e = true -> q e = true) -> (count p t <= count q t)%nat.
Proof.
  intros H. induction t as [|e t IH]; cbn [count]; [lia|].
  destruct (p e) eqn:P; [rewrite (H e P)|]; destruct (q e); lia.
Qed.

Lemma is_click_ok_attempt e : is_click_ok e = true -> is_click_attempt e = true.
Proof. destruct e as [| | | | |? []| | | | | | | | |]; simpl; congruence. Qed.

Lemma clicks_then_harvest_skip t1 t2 :
  count is_click_ok t1 = 0%nat ->
  clicks_then_harvest (t1 ++ t2) = clicks_then_harvest t2.
Proof.
  induction t1 as [|e t1 IH]; [reflexivity|]. cbn [count app]. intros H.
  destruct e as [| | | | |? []| | | | | | | | |]; cbn [is_click_ok] in H;
    try discriminate H; cbn [clicks_then_harvest]; apply IH; lia.
Qed.

Lemma clicks_then_harvest_none t :
  count is_click_ok t = 0%nat -> clicks_then_harvest t = true.
Proof.
  intros H. rewrite <- (app_nil_r t). rewrite clicks_then_harvest_skip by exact H.
  reflexivity.
Qed.

Lemma click_page_safe B sels : safe (click_page B sels).
Proof. induction sels as [|sel rest IH]; cbn [click_page]; safety. Qed.

(** One attempt at a control: it ends on the click when that succeeds. *)
Lemma click_attempt_shape B timeout by_ sel past r t :
  run (let* btn := until B Driver timeout element_to_be_clickable by_ sel in
       execute_script B scroll_into_view btn >> click B btn) past = (r, t) ->
  match r with
  | Ok _ => exists t' e, t = t' ++ [Ev_click e (Ok tt)] /\ count is_click_ok t' = 0%nat
  | Raise _ => count is_click_ok t = 0%nat
  end.
Proof.
  rewrite run_bind, run_until.
  destruct (on_until B past Driver timeout element_to_be_clickable by_ sel) as [btn|x];
    [|intros [= <- <-]; reflexivity].
  rewrite run_bind. unfold execute_script at 1. cbn [run ask].
  destruct (on_execute_script B _ scroll_into_view btn) as [[]|x];
    [|intros [= <- <-]; reflexivity].
  unfold click at 1. cbn [run ask].
  destruct (on_click B _ btn) as [[]|x]; intros [= <- <-]; [|reflexivity].
  eexists [_; _], btn. split; reflexivity.
Qed.

(** The inner loop ends on the click that succeeded, if any. *)
Lemma click_page_shape B sels past clicked t :
  run (click_page B sels) past = (Ok clicked, t) ->
  if clicked
  then exists t' e, t = t' ++ [Ev_click e (Ok tt)] /\ count is_click_ok t' = 0%nat
  else count is_click_ok t = 0%nat.
Proof.
  revert past t. induction sels as [|sel rest IH]; intros past t.
  - intros [= <- <-]. reflexivity.
  - cbn [click_page]. rewrite run_bind.
    match goal with
    | |- context [run (try ?m) past] => destruct (run m past) as [[[]|x] tb] eqn:Eb
    end; rewrite (run_try_eq _ _ _ _ Eb); apply click_attempt_shape in Eb.
    + rewrite run_ret. intros [= <- <-]. flatten. exact Eb.
    + destruct (run (click_page B rest) _) as [r t'] eqn:E.
      intros [= -> <-]. apply IH in E. destruct clicked.
      * destruct E as (t1 & e & -> & H). exists (tb ++ t1), e.
        split; [flatten; reflexivity|]. rewrite count_app. lia.
      * rewrite count_app. lia.
Qed.

Lemma harvest_no_click_ok B links past r t :
  run (harvest B links) past = (r, t) -> count is_click_ok t = 0%nat.
Proof.
  intros E. pose proof (count_le _ _ t is_click_ok_attempt) as H.
  rewrite (count_silent _ _ _ _ _ (harvest_no_click B links) E) in H. lia.
Qed.

Lemma paginate_clicks_then_harvest B pages links past r t :
  run (paginate B pages links) past = (r, t) -> clicks_then_harvest t = true.
Proof.
  revert links past r t. induction pages as [|page rest IH]; intros links past r t.
  - intros [= _ <-]. reflexivity.
  - cbn [paginate]. rewrite run_bind.
    destruct (click_page_safe B (page_selectors page) past) as (clicked & tc & Ec).
    rewrite Ec. apply click_page_shape in Ec. destruct clicked; cbn [negb].
    + destruct Ec as (t' & e & -> & Hn).
      rewrite run_bind. cbn [run sleep emit].
      change (bind (harvest B links) ?k ?h) with (run (bind (harvest B links) k) h).
      rewrite run_bind.
      destruct (run (harvest B links) _) as [rh th] eqn:Eh.
      destruct (harvest_enters_first _ _ _ _ _ Eh) as (th' & ->).
      pose proof (harvest_no_click_ok _ _ _ _ _ Eh) as Hh.
      assert (Hstep : forall tl, clicks_then_harvest tl = true ->
                clicks_then_harvest
                  ((t' ++ [Ev_click e (Ok ())]) ++ [Ev_sleep 1200]
                     ++ (Ev_call F_harvest :: th') ++ tl) = true).
      { intros tl Htl. flatten. rewrite clicks_then_harvest_skip by exact Hn.
        cbn [clicks_then_harvest Z.eqb Pos.eqb andb].
        change (Ev_call F_harvest :: th' ++ tl) with ((Ev_call F_harvest :: th') ++ tl).
        rewrite clicks_then_harvest_skip by exact Hh. exact Htl. }
      destruct rh as [links1|x].
      * destruct (run (paginate B rest links1) _) as [r2 t2] eqn:E2.
        intros [= _ <-]. apply Hstep. eapply IH, E2.
      * intros [= _ <-]. rewrite <- (app_nil_r (Ev_call F_harvest :: th')).
        apply Hstep. reflexivity.
    + rewrite run_ret. intros [= _ <-]. flatten. apply clicks_then_harvest_none, Ec.
Qed.

Lemma collect_links_clicks_then_harvest B pages past r t :
  run (collect_links B pages) past = (r, t) -> clicks_then_harvest t = true.
Proof.
  unfold collect_links. rewrite run_bind.
  destruct (run (harvest B ∅) past) as [[links|x] th] eqn:Eh.
  - rewrite run_bind.
    destruct (run (paginate B _ links) _) as [[links'|x] tp] eqn:Ep.
    + rewrite run_ret. intros [= _ <-]. flatten.
      rewrite clicks_then_harvest_skip by (eapply harvest_no_click_ok, Eh).
      eapply paginate_clicks_then_harvest, Ep.
    + intros [= _ <-].
      rewrite clicks_then_harvest_skip by (eapply harvest_no_click_ok, Eh).
      eapply paginate_clicks_then_harvest, Ep.
  - intros [= _ <-]. eapply clicks_then_harvest_none, harvest_no_click_ok, Eh.
Qed.

Lemma clear_retries_enters_first B search_url user pwd retries past r t :
  run (clear_retries B search_url user pwd retries) past = (r, t) ->
  exists t', t = Ev_call F_clear_signin_overlay_or_reauth :: t'.
Proof.
  destruct retries; cbn [clear_retries]; rewrite run_bind; cbn [run enter emit];
    destruct (run _ (past ++ [Ev_call F_clear_signin_overlay_or_reauth])) as [r' t'];
    intros [= _ <-]; eexists; reflexivity.
Qed.

Lemma run_finally {A} (m : M A) (f : M unit) past :
  run (finally m f) past =
  (let '(r, t1) := run m past in
   match run f (past ++ t1) with
   | (Ok _, t2) => (r, t1 ++ t2)
   | (Raise e, t2) => (Raise e, t1 ++ t2)
   end).
Proof. reflexivity. Qed.

(** C1, as amended. In a run of [main] that reads results at all, the
    recovery engine is entered right after [search_url] was opened, and
    nothing was harvested, nor the engine entered, before; [collect_links]
    itself never enters the engine or [login]: a pagination click that
    succeeded is followed at once by the 1.2 s sleep and the harvest of the
    new page. *)
Theorem recovery_runs_before_first_page_only B user pwd search_url pages out past past' :
  let t := snd (run (main B user pwd search_url pages out) past) in
  let t' := snd (run (collect_links B pages) past') in
  ((0 < count is_harvest_call t)%nat ->
   exists before after,
     t = before ++ Ev_get search_url (Ok tt) :: Ev_sleep 1000
           :: Ev_call F_clear_signin_overlay_or_reauth :: after /\
     count is_harvest_call before = 0%nat /\
     count is_clear_call before = 0%nat) /\
  count is_clear_call t' = 0%nat /\
  count is_login_call t' = 0%nat /\
  clicks_then_harvest t' = true.
Proof.
  intros t t'. split; [|split; [|split]].
  - subst t. unfold main. rewrite run_finally, run_bind.
    destruct (run (login B user pwd) past) as [[[]|x] tl] eqn:El.
    + pose proof (count_silent _ _ _ _ _
                    (login_silent B _ is_harvest_call_on_calls user pwd eq_refl) El) as Hh.
      pose proof (count_silent _ _ _ _ _
                    (login_silent B _ is_clear_call_on_calls user pwd eq_refl) El) as Hc.
      rewrite run_bind, run_get.
      destruct (on_get B (past ++ tl) search_url) as [[]|x].
      * rewrite run_bind. cbn [run sleep emit].
        rewrite run_bind.
        destruct (run (clear_signin_overlay_or_reauth B _ _ _ _) _) as [rc tc] eqn:Ec.
        destruct (clear_retries_enters_first _ _ _ _ _ _ _ _ Ec) as (tc' & ->).
        intros _. exists tl.
        destruct rc as [[]|x].
        -- destruct (run _ (_ ++ Ev_call _ :: tc')) as [r2 t2].
           destruct (run (quit B) _) as [[[]|x] tq]; cbn [snd]; flatten;
             (eexists; split; [reflexivity|auto]).
        -- destruct (run (quit B) _) as [[[]|x'] tq]; cbn [snd]; flatten;
             (eexists; split; [reflexivity|auto]).
      * unfold quit at 1. cbn [run ask]. intros H. exfalso. revert H.
        destruct (on_quit B _) as [[]|?]; cbn [snd]; rewrite !count_app, Hh;
          cbn; lia.
    + pose proof (count_silent _ _ _ _ _
                    (login_silent B _ is_harvest_call_on_calls user pwd eq_refl) El) as Hh.
      unfold quit at 1. cbn [run ask]. intros H. exfalso. revert H.
      destruct (on_quit B _) as [[]|?]; cbn [snd]; rewrite !count_app, Hh; cbn; lia.
  - subst t'. destruct (run (collect_links B pages) past') as [r t'] eqn:E.
    eapply (count_silent is_clear_call), E.
    apply collect_links_silent; [apply is_clear_call_on_calls | reflexivity].
  - subst t'. destruct (run (collect_links B pages) past') as [r t'] eqn:E.
    eapply (count_silent is_login_call), E.
    apply collect_links_silent; [apply is_login_call_on_calls | reflexivity].
  - subst t'. destruct (run (collect_links B pages) past') as [r t'] eqn:E.
    eapply collect_links_clicks_then_harvest, E.
Qed.

(** ** The statements on the test pages *)

(** C1 fails on the code: on the two-page search, with [pages = 2], the
    click on "Page 2" is followed by the sleep and the harvest of page 2,
    and the recovery engine is not entered in between. *)
Lemma pagination_click_without_recovery :
  ~ recovery_after_each_click (snd (run (collect_links Fixture.two_pages 2) [])).
Proof.
  intros H.
  set (t := snd (run (collect_links Fixture.two_pages 2) [])) in H.
  specialize (H (firstn 9 t) 2%nat [Ev_sleep 1200] (skipn 12 t)).
  vm_compute in H. specialize (H eq_refl). lia.
Qed.

Lemma recovery_runs_before_first_page_only_witness :
  let t := snd (run (main Fixture.two_pages "user" "secret" search 2 "job_offers.csv") []) in
  let t' := snd (run (collect_links Fixture.two_pages 2) []) in
  (0 < count is_harvest_call t)%nat /\
  (exists before after,
     t = before ++ Ev_get search (Ok tt) :: Ev_sleep 1000
           :: Ev_call F_clear_signin_overlay_or_reauth :: after /\
     count is_harvest_call before = 0%nat /\
     count is_clear_call before = 0%nat) /\
  count is_clear_call t' = 0%nat /\
  count is_login_call t' = 0%nat /\
  clicks_then_harvest t' = true.
Proof.
  intros t t'.
  assert (Hpos : (0 < count is_harvest_call t)%nat) by (vm_compute; lia).
  split; [exact Hpos|].
  destruct (recovery_runs_before_first_page_only
              Fixture.two_pages "user" "secret" search 2 "job_offers.csv" [] [])
    as (Ha & Hb).
  split; [exact (Ha Hpos) | exact Hb].
Defined.

Lemma collect_links_unique_canonical_bounded_witness :
  let r := run (collect_links Fixture.two_pages 3) [] in
  let l := [ "https://www.linkedin.com/jobs/view/103";
             "https://www.linkedin.com/jobs/view/101";
             "https://www.linkedin.com/jobs/view/102" ] in
  r = (Ok l, snd r) /\
  NoDup l /\
  Forall (fun u => harvested_in (snd r) u /\ PyStr.contains_char "?" u = false) l /\
  length (page_yields (snd r)) = pages_visited (snd r) /\
  (length l <= sum_list (page_yields (snd r)))%nat /\
  (length l <= max_list (page_yields (snd r)) * pages_visited (snd r))%nat.
Proof.
  intros r l.
  assert (E : r = (Ok l, snd r)) by (vm_compute; reflexivity).
  split; [exact E|].
  exact (collect_links_unique_canonical_bounded Fixture.two_pages 3 [] l (snd r) E).
Defined.

Lemma record_needs_title_or_description_witness :
  let B := Fixture.detail None None (Some "  We are hiring analysts.  ") in
  let B' := Fixture.detail (Some "   ") (Some "Acme") (Some " ") in
  let r := run (scrape_job B job_101) [] in
  (exists rec, r = (Ok (Some rec), snd r) /\
     PyStr.truthy (job_title rec) || PyStr.truthy (job_description rec) = true) /\
  (exists t, run (scrape_job B' job_101) [] = (Ok None, t)) /\
  (exists rec t,
     r = (Ok (Some rec), t) /\
     job_title rec = None /\
     job_description rec = Some "We are hiring analysts." /\
     url rec = job_101).
Proof.
  intros B B' r.
  destruct (record_needs_title_or_description B job_101 []) as (Ha & _ & Hc).
  destruct (record_needs_title_or_description B' job_101 []) as (_ & Hb & _).
  split; [|split].
  - exists {| job_title := None; company_name := None; company_location := None;
              work_method := None; post_date := None; work_time := None;
              job_description := Some "We are hiring analysts."; url := job_101 |}.
    assert (E : r = (Ok (Some {| job_title := None; company_name := None;
                                 company_location := None; work_method := None;
                                 post_date := None; work_time := None;
                                 job_description := Some "We are hiring analysts.";
                                 url := job_101 |}), snd r))
      by (vm_compute; reflexivity).
    split; [exact E | exact (Ha _ _ E)].
  - apply Hb.
    + intros h top Htop sel Hin h'.
      assert (top = 8%nat) as -> by (vm_compute in Htop; congruence).
      destruct Hin as [<-|[<-|[]]]; vm_compute; trivial.
    + intros h. vm_compute. reflexivity.
  - apply (Hc 8%nat 30%nat [] "  We are hiring analysts.  ").
    + intros h. reflexivity.
    + intros h. reflexivity.
    + intros h sel [<-|[<-|[]]]; exists TimeoutException; reflexivity.
    + intros h. reflexivity.
    + intros h. reflexivity.
    + vm_compute. discriminate.
Defined.

(** C4 as worded fails on the code: on the overlay with a sign-in button
    and a login page without its form, the overlay is seen, no dismissal
    works and the sign-in control is clicked, but [login] raises and the
    engine with it: the search page is never opened again and the overlay
    is never looked for again. *)
Lemma failed_login_skips_renavigation :
  let B := Fixture2.wall_without_form in
  let h0 := [Ev_call F_clear_signin_overlay_or_reauth] in
  let t0 := snd (run (is_authwall_modal B) h0) in
  let t1 := snd (run (dismiss_overlay B dismiss_selectors) (h0 ++ t0)) in
  let t2 := snd (run (click_sign_in B) (h0 ++ t0 ++ t1)) in
  ~ (run (is_authwall_modal B) h0 = (Ok true, t0) ->
     run (dismiss_overlay B dismiss_selectors) (h0 ++ t0) = (Ok false, t1) ->
     run (click_sign_in B) (h0 ++ t0 ++ t1) = (Ok true, t2) ->
     reauth_then_renavigate_then_recheck search
       (snd (run (clear_signin_overlay_or_reauth B search "user" "secret" 1) []))).
Proof.
  intros B h0 t0 t1 t2 H.
  assert (H0 : run (is_authwall_modal B) h0 = (Ok true, t0)) by (vm_compute; reflexivity).
  assert (H1 : run (dismiss_overlay B dismiss_selectors) (h0 ++ t0) = (Ok false, t1))
    by (vm_compute; reflexivity).
  assert (H2 : run (click_sign_in B) (h0 ++ t0 ++ t1) = (Ok true, t2))
    by (vm_compute; reflexivity).
  specialize (H H0 H1 H2).
  set (t := snd (run (clear_signin_overlay_or_reauth B search "user" "secret" 1) [])) in H.
  assert (Hc : count (is_get_to search) t = 0%nat) by (vm_compute; reflexivity).
  destruct H as (a & b & c & r & E & _).
  rewrite E in Hc. rewrite count_app in Hc. cbn [count is_login_call is_get_to] in Hc.
  rewrite count_app in Hc. cbn [count is_get_to] in Hc.
  rewrite String.eqb_refl in Hc. lia.
Qed.

Lemma reauth_once_then_renavigate_then_recheck_witness :
  let B := Fixture.authwall in
  let h0 := [] ++ [Ev_call F_clear_signin_overlay_or_reauth] in
  let t0 := snd (run (is_authwall_modal B) h0) in
  let t1 := snd (run (dismiss_overlay B dismiss_selectors) (h0 ++ t0)) in
  let t2 := snd (run (click_sign_in B) (h0 ++ t0 ++ t1)) in
  run (is_authwall_modal B) h0 = (Ok true, t0) /\
  run (dismiss_overlay B dismiss_selectors) (h0 ++ t0) = (Ok false, t1) /\
  run (click_sign_in B) (h0 ++ t0 ++ t1) = (Ok true, t2) /\
  fst (run (clear_signin_overlay_or_reauth B search "user" "secret" 1) []) = Ok tt /\
  count (is_get_to search)
    (snd (run (clear_signin_overlay_or_reauth B search "user" "secret" 1) [])) = 1%nat /\
  (
  let before_login := Ev_call F_clear_signin_overlay_or_reauth :: t0 ++ t1 ++ t2 in
  exists rl t3 r rest,
    run (login B "user" "secret") ([] ++ before_login) = (rl, t3) /\
    run (clear_signin_overlay_or_reauth B search "user" "secret" 1) []
      = (r, before_login ++ t3 ++ rest) /\
    count is_login_call (before_login ++ t3) = 1%nat /\
    count is_find_elements (t2 ++ t3) = 0%nat /\
    match rl with
    | Raise x => r = Raise x /\ rest = []
    | Ok _ =>
        let rg := on_get B ([] ++ before_login ++ t3) search in
        exists rest', rest = Ev_get search rg :: rest' /\
        match rg with
        | Raise x => r = Raise x /\ rest' = []
        | Ok _ =>
            let h4 := [] ++ before_login ++ t3 ++ [Ev_get search rg; Ev_sleep 1000] in
            exists rest'', rest' = Ev_sleep 1000 :: rest'' /\
            (1 <= 0 -> r = Ok tt /\ rest'' = []) /\
            (0 < 1 ->
             exists m t4 again,
               rest'' =
                 Ev_find_elements Driver XPATH authwall_heading
                   (on_find_elements B h4 Driver XPATH authwall_heading) :: t4 ++ again /\
               (length t4 <= 1)%nat /\
               Forall (fun e => is_find_elements e = true) t4 /\
               (let recheck :=
                  Ev_find_elements Driver XPATH authwall_heading
                    (on_find_elements B h4 Driver XPATH authwall_heading) :: t4 in
                run (is_authwall_modal B) h4 = (Ok m, recheck) /\
                (m = true <->
                 exists sc by_ sel e es,
                   In (Ev_find_elements sc by_ sel (Ok (e :: es))) recheck) /\
                (m = false -> r = Ok tt /\ again = []) /\
                (m = true ->
                 run (clear_signin_overlay_or_reauth B search "user" "secret" (1 - 1))
                     (h4 ++ recheck) = (r, again))))
        end
    end).
Proof.
  intros B h0 t0 t1 t2.
  assert (H0 : run (is_authwall_modal B) h0 = (Ok true, t0)) by (vm_compute; reflexivity).
  assert (H1 : run (dismiss_overlay B dismiss_selectors) (h0 ++ t0) = (Ok false, t1))
    by (vm_compute; reflexivity).
  assert (H2 : run (click_sign_in B) (h0 ++ t0 ++ t1) = (Ok true, t2))
    by (vm_compute; reflexivity).
  split; [exact H0|]. split; [exact H1|]. split; [exact H2|].
  split; [vm_compute; reflexivity|]. split; [vm_compute; reflexivity|].
  exact (reauth_once_then_renavigate_then_recheck
           B search "user" "secret" 1 [] t0 t1 t2 H0 H1 H2).
Defined.

Lemma dismissal_completes_without_login_witness :
  let B := Fixture.dismissable in
  let h0 := [Ev_call F_clear_signin_overlay_or_reauth] in
  let t0 := snd (run (is_authwall_modal B) h0) in
  let t1 := snd (run (dismiss_overlay B ["button[aria-label='Dismiss']"]) (h0 ++ t0)) in
  let t2 := snd (run (try_click B CSS_SELECTOR "button[aria-label='Close']" 2)
                   (h0 ++ t0 ++ t1)) in
  let t3 := snd (run (is_authwall_modal B) (h0 ++ t0 ++ t1 ++ t2 ++ [Ev_sleep 500])) in
  let t := Ev_call F_clear_signin_overlay_or_reauth
             :: t0 ++ t1 ++ t2 ++ [Ev_sleep 500] ++ t3 in
  run (is_authwall_modal B) h0 = (Ok true, t0) /\
  run (try_click B CSS_SELECTOR "button[aria-label='Close']" 2) (h0 ++ t0 ++ t1)
    = (Ok true, t2) /\
  run (is_authwall_modal B) (h0 ++ t0 ++ t1 ++ t2 ++ [Ev_sleep 500]) = (Ok false, t3) /\
  run (clear_signin_overlay_or_reauth B search "user" "secret" 1) [] = (Ok tt, t) /\
  count is_login_call t = 0%nat.
Proof.
  intros B h0 t0 t1 t2 t3 t.
  assert (H0 : run (is_authwall_modal B) h0 = (Ok true, t0)) by (vm_compute; reflexivity).
  assert (H1 : run (dismiss_overlay B ["button[aria-label='Dismiss']"]) (h0 ++ t0)
               = (Ok false, t1)) by (vm_compute; reflexivity).
  assert (H2 : run (try_click B CSS_SELECTOR "button[aria-label='Close']" 2)
                 (h0 ++ t0 ++ t1) = (Ok true, t2)) by (vm_compute; reflexivity).
  assert (H3 : run (is_authwall_modal B) (h0 ++ t0 ++ t1 ++ t2 ++ [Ev_sleep 500])
               = (Ok false, t3)) by (vm_compute; reflexivity).
  split; [exact H0|]. split; [exact H2|]. split; [exact H3|].
  exact (dismissal_completes_without_login B search "user" "secret" 1 [] t0
           ["button[aria-label='Dismiss']"] "button[aria-label='Close']"
           [".artdeco-modal__dismiss"] t1 t2 t3 H0 eq_refl H1 H2 H3).
Defined.

Lemma missing_page_control_stops_pagination_witness :
  let B := Fixture.two_pages in
  let page1 : gset string :=
    {[ "https://www.linkedin.com/jobs/view/101";
       "https://www.linkedin.com/jobs/view/102" ]} in
  let both : gset string :=
    {[ "https://www.linkedin.com/jobs/view/101";
       "https://www.linkedin.com/jobs/view/102";
       "https://www.linkedin.com/jobs/view/103" ]} in
  let t1 := snd (run (harvest B ∅) []) in
  let c2 := snd (run (click_page B (page_selectors 2)) t1) in
  let h2 := snd (run (harvest B page1) (t1 ++ c2 ++ [Ev_sleep 1200])) in
  let t2 := c2 ++ [Ev_sleep 1200] ++ h2 ++ [] in
  let t3 := snd (run (click_page B (page_selectors 3)) (t1 ++ t2)) in
  range 2 (Z.max 2 (3 + 1)) = [2] ++ 3 :: [] /\
  run (harvest B ∅) [] = (Ok page1, t1) /\
  visited B [2] page1 t1 both t2 /\
  run (click_page B (page_selectors 3)) (t1 ++ t2) = (Ok false, t3) /\
  run (collect_links B 3) [] = (Ok (elements both), t1 ++ t2 ++ t3) /\
  page1 ⊆ both /\
  2 <= 3 <= 3.
Proof.
  intros B page1 both t1 c2 h2 t2 t3.
  assert (Hr : range 2 (Z.max 2 (3 + 1)) = [2] ++ 3 :: []) by reflexivity.
  assert (Hh : run (harvest B ∅) [] = (Ok page1, t1)) by (vm_compute; reflexivity).
  assert (Hv : visited B [2] page1 ([] ++ t1) both t2).
  { apply (visited_cons B 2 [] page1 ([] ++ t1) c2 both h2 both []).
    - vm_compute; reflexivity.
    - vm_compute; reflexivity.
    - apply visited_nil. }
  assert (Hc : run (click_page B (page_selectors 3)) ([] ++ t1 ++ t2) = (Ok false, t3))
    by (vm_compute; reflexivity).
  split; [exact Hr|]. split; [exact Hh|]. split; [exact Hv|]. split; [exact Hc|].
  exact (missing_page_control_stops_pagination B 3 [] page1 t1 [2] 3 [] both t2 t3
           Hr Hh Hv Hc).
Defined.

(** C8 fails on the code: on a detail page with the title "Data Analyst",
    a company name and no description block, the record has the title, the
    company name and the URL, but its description is [None], which is not
    the empty string. *)
Lemma data_analyst_description_is_not_empty_string :
  exists rec,
    fst (run (scrape_job (Fixture.detail (Some "Data Analyst") (Some "Acme") None)
                job_101) []) = Ok (Some rec) /\
    job_title rec = Some "Data Analyst" /\
    company_name rec = Some "Acme" /\
    url rec = job_101 /\
    job_description rec <> Some "".
Proof.
  eexists. split; [vm_compute; reflexivity|].
  cbn. repeat split; discriminate.
Qed.

Lemma record_without_description_block_witness :
  let B := Fixture.detail (Some "Data Analyst") (Some "Acme") None in
  PyStr.strip "Data Analyst" <> "" /\
  PyStr.strip "Acme" <> "" /\
  exists rec t,
    run (scrape_job B job_101) [] = (Ok (Some rec), t) /\
    job_title rec = Some "Data Analyst" /\
    company_name rec = Some "Acme" /\
    job_description rec = None /\
    url rec = job_101.
Proof.
  intros B.
  assert (Ht : PyStr.strip "Data Analyst" <> "") by (vm_compute; discriminate).
  assert (Hc : PyStr.strip "Acme" <> "") by (vm_compute; discriminate).
  split; [exact Ht|]. split; [exact Hc|].
  apply (record_without_description_block B job_101 [] 8%nat 9%nat "Data Analyst"
           20%nat "Acme"); try (intros h; reflexivity); assumption.
Defined.

Lemma scrape_failure_stays_on_its_page_witness :
  let B := Fixture.blank in
  let t1 := snd (run (scrape_job_try B job_101) [Ev_call (F_scrape_job job_101)]) in
  run (scrape_job_try B job_101) [Ev_call (F_scrape_job job_101)]
    = (Raise TimeoutException, t1) /\
  run (scrape_job B job_101) [] = (Ok None, Ev_call (F_scrape_job job_101) :: t1) /\
  exists recs t,
    run (scrape_links B [job_101; search] []) [] = (Ok recs, t) /\
    scraped t = [job_101; search].
Proof.
  intros B t1.
  assert (E : run (scrape_job_try B job_101) ([] ++ [Ev_call (F_scrape_job job_101)])
              = (Raise TimeoutException, t1)) by (vm_compute; reflexivity).
  destruct (scrape_failure_stays_on_its_page B job_101 TimeoutException t1 []
              [job_101; search] [] []) as (Ha & _ & Hc).
  split; [exact E|]. split; [exact (Ha E) | exact Hc].
Defined.

Lemma single_page_harvests_once_witness :
  let B := Fixture.two_pages in
  let r := run (harvest B ∅) [] in
  0 <= 1 /\
  run (collect_links B 0) []
    = (Ok [ "https://www.linkedin.com/jobs/view/101";
            "https://www.linkedin.com/jobs/view/102" ], snd r) /\
  range 2 (Z.max 2 (0 + 1)) = [] /\
  count is_harvest_call (snd r) = 1%nat /\
  count is_click_attempt (snd r) = 0%nat.
Proof.
  intros B r.
  assert (Hp : 0 <= 1) by lia.
  split; [exact Hp|].
  pose proof (single_page_harvests_once B 0 [] Hp) as H.
  assert (E : run (harvest B ∅) []
              = (Ok ({[ "https://www.linkedin.com/jobs/view/101";
                        "https://www.linkedin.com/jobs/view/102" ]} : gset string), snd r))
    by (vm_compute; reflexivity).
  rewrite E in H. destruct H as (H1 & H2 & H3 & H4).
  split; [|auto]. rewrite H1. vm_compute. reflexivity.
Defined.

(** The bound of C6 is reached: under an overlay that never goes away, the
    default budget gives two recovery rounds and two logins. *)
Example stubborn_overlay_two_logins :
  let t := snd (run (clear_signin_overlay_or_reauth Fixture.stubborn_authwall
                       search "user" "secret" 1) []) in
  count is_clear_call t = 2%nat /\ count is_login_call t = 2%nat.
Proof. vm_compute. split; reflexivity. Qed.

(** * Further properties of the code *)

(** ** The search URL *)

Example default_search_url :
  Url.build_search_url "junior data analyst" "Spain" (Some "105646813")
  = "https://www.linkedin.com/jobs/search/?keywords=junior+data+analyst&location=Spain&geoId=105646813".
Proof. reflexivity. Qed.

(** "Malaga" with an acute accent on its first a, code point 225. *)
Example quoted_search_url :
  Url.build_search_url "R&D / C++" (String "M" (String "225" "laga")) None
  = "https://www.linkedin.com/jobs/search/?keywords=R%26D+%2F+C%2B%2B&location=M%C3%A1laga".
Proof. vm_compute. reflexivity. Qed.

Lemma append_cons c (s t : string) : String c s +:+ t = String c (s +:+ t).
Proof. reflexivity. Qed.

Lemma append_nil_right (s : string) : s +:+ "" = s.
Proof. induction s as [|c s IH]; [reflexivity|]. rewrite append_cons, IH. reflexivity. Qed.

Lemma append_assoc_string (a b c : string) : (a +:+ b) +:+ c = a +:+ (b +:+ c).
Proof. induction a as [|x a IH]; [reflexivity|]. rewrite !append_cons, IH. reflexivity. Qed.

Lemma concat_empty_cons x xs : String.concat "" (x :: xs) = x +:+ String.concat "" xs.
Proof.
  destruct xs; [|reflexivity].
  cbn [String.concat]. symmetry. apply append_nil_right.
Qed.

Lemma concat_empty_app l1 l2 :
  String.concat "" (l1 ++ l2) = String.concat "" l1 +:+ String.concat "" l2.
Proof.
  induction l1 as [|x l1 IH]; [reflexivity|].
  cbn [app]. rewrite !concat_empty_cons, IH, append_assoc_string. reflexivity.
Qed.

Lemma replace_char_append a b s1 s2 :
  Url.replace_char a b (s1 +:+ s2) = Url.replace_char a b s1 +:+ Url.replace_char a b s2.
Proof.
  induction s1 as [|c s1 IH]; [reflexivity|].
  rewrite append_cons. cbn [Url.replace_char]. rewrite IH, append_cons. reflexivity.
Qed.

Lemma quote_cons c s safe :
  Url.quote (String c s) safe
  = String.concat "" (map (Url.quote_byte safe) (Url.utf8 c)) +:+ Url.quote s safe.
Proof.
  unfold Url.quote, Url.bytes_of. cbn [list_ascii_of_string flat_map].
  rewrite map_app, concat_empty_app. reflexivity.
Qed.

(** With spaces kept and then replaced, each character is encoded on its
    own. *)
Lemma replace_quote_space s :
  Url.replace_char " " "+" (Url.quote s " ") = Url.encode s.
Proof.
  induction s as [|c s IH]; [reflexivity|].
  rewrite quote_cons, replace_char_append, IH. cbn [Url.encode]. f_equal.
  destruct c as [[] [] [] [] [] [] [] []]; vm_compute; reflexivity.
Qed.

Lemma quote_no_space s :
  PyStr.contains_char " " s = false -> Url.quote s "" = Url.encode s.
Proof.
  induction s as [|c s IH]; [reflexivity|].
  cbn [PyStr.contains_char]. intros H. apply orb_false_iff in H as [Hc Hs].
  rewrite quote_cons, (IH Hs). cbn [Url.encode]. f_equal.
  unfold Url.encode_char. rewrite Hc. reflexivity.
Qed.

Lemma quote_plus_encode s : Url.quote_plus s "" = Url.encode s.
Proof.
  unfold Url.quote_plus. destruct (PyStr.contains_char " " s) eqn:E; cbn [negb].
  - apply replace_quote_space.
  - apply quote_no_space, E.
Qed.

Lemma unquote_encode_char c rest :
  Url.unquote_plus (Url.encode_char c +:+ rest) = String c (Url.unquote_plus rest).
Proof. destruct c as [[] [] [] [] [] [] [] []]; reflexivity. Qed.

Lemma unquote_encode s : Url.unquote_plus (Url.encode s) = s.
Proof.
  induction s as [|c s IH]; [reflexivity|].
  cbn [Url.encode]. rewrite unquote_encode_char, IH. reflexivity.
Qed.

Lemma all_chars_append p s1 s2 :
  Url.all_chars p (s1 +:+ s2) = Url.all_chars p s1 && Url.all_chars p s2.
Proof.
  induction s1 as [|c s1 IH]; [reflexivity|].
  rewrite append_cons. cbn [Url.all_chars]. rewrite IH, andb_assoc. reflexivity.
Qed.

Lemma contains_char_append c s1 s2 :
  PyStr.contains_char c (s1 +:+ s2) = PyStr.contains_char c s1 || PyStr.contains_char c s2.
Proof.
  induction s1 as [|a s1 IH]; [reflexivity|].
  rewrite append_cons. cbn [PyStr.contains_char]. rewrite IH, orb_assoc. reflexivity.
Qed.

Lemma encode_char_url_chars c :
  Url.all_chars Url.url_char (Url.encode_char c) = true /\
  PyStr.contains_char "&" (Url.encode_char c) = false.
Proof. destruct c as [[] [] [] [] [] [] [] []]; vm_compute; split; reflexivity. Qed.

Lemma encode_url_chars s :
  Url.all_chars Url.url_char (Url.encode s) = true /\
  PyStr.contains_char "&" (Url.encode s) = false.
Proof.
  induction s as [|c s [IH1 IH2]]; [split; reflexivity|].
  cbn [Url.encode]. rewrite all_chars_append, contains_char_append.
  destruct (encode_char_url_chars c) as [-> ->]. rewrite IH1, IH2. split; reflexivity.
Qed.

(** What [build_search_url] builds: the base, the two encoded parameters
    in order, and the encoded [geoId] when it is given and not empty. *)
Lemma build_search_url_form keywords location geo_id :
  Url.build_search_url keywords location geo_id
  = Url.base +:+ "?keywords=" +:+ Url.encode keywords
      +:+ "&location=" +:+ Url.encode location
      +:+ (if PyStr.truthy geo_id then "&geoId=" +:+ Url.encode (default "" geo_id)
           else "").
Proof.
  unfold Url.build_search_url, Url.urlencode.
  destruct (PyStr.truthy geo_id); cbn [map app fst snd String.concat];
    rewrite !quote_plus_encode;
    change (Url.encode "keywords") with "keywords";
    change (Url.encode "location") with "location";
    change (Url.encode "geoId") with "geoId";
    rewrite ?append_assoc_string, ?append_nil_right; reflexivity.
Qed.

Lemma append_inv_head (s a b : string) : s +:+ a = s +:+ b -> a = b.
Proof.
  induction s as [|c s IH]; [auto|]. rewrite !append_cons. intros [= H]. auto.
Qed.

(** Two strings cut at the first occurrence of a character are equal piece
    by piece. *)
Lemma append_sep_inv c (s1 s2 x y : string) :
  PyStr.contains_char c s1 = false ->
  PyStr.contains_char c s2 = false ->
  s1 +:+ String c x = s2 +:+ String c y ->
  s1 = s2 /\ x = y.
Proof.
  revert s2. induction s1 as [|a s1 IH]; intros [|b s2] H1 H2; rewrite ?append_cons.
  - intros [= ->]. auto.
  - cbn in H2. intros [= <- _]. rewrite Ascii.eqb_refl in H2. discriminate.
  - cbn in H1. intros [= -> _]. rewrite Ascii.eqb_refl in H1. discriminate.
  - cbn in H1, H2. apply orb_false_iff in H1 as [_ H1], H2 as [_ H2].
    intros [= -> H]. destruct (IH s2 H1 H2 H) as [-> ->]. auto.
Qed.

Lemma encode_inj s1 s2 : Url.encode s1 = Url.encode s2 -> s1 = s2.
Proof.
  intros H. rewrite <- (unquote_encode s1), <- (unquote_encode s2), H. reflexivity.
Qed.

(** X1. Every character of the URL [build_search_url] returns is a letter,
    a digit or one of [_ . - ~ : / ? = & + %]: whatever the keywords, the
    location and the region are (strings of code points below 256), the
    URL has no space, quote, hash or control character. *)
Theorem search_url_has_only_url_characters keywords location geo_id :
  Url.all_chars Url.url_char (Url.build_search_url keywords location geo_id) = true.
Proof.
  rewrite build_search_url_form, !all_chars_append.
  rewrite (proj1 (encode_url_chars keywords)), (proj1 (encode_url_chars location)).
  destruct (PyStr.truthy geo_id).
  - rewrite all_chars_append, (proj1 (encode_url_chars _)). reflexivity.
  - reflexivity.
Qed.

(** X2. [build_search_url] loses nothing: two searches have the same URL
    exactly when they have the same keywords, the same location and the
    same region, a missing region and an empty one counting as the same. *)
Theorem search_url_determines_the_search k1 l1 g1 k2 l2 g2 :
  Url.build_search_url k1 l1 g1 = Url.build_search_url k2 l2 g2
  <-> k1 = k2 /\ l1 = l2 /\ Url.given g1 = Url.given g2.
Proof.
  rewrite !build_search_url_form. split.
  - intros H. apply append_inv_head in H.
    apply (append_inv_head "?keywords=") in H.
    change "&location=" with (String "&" "location=") in H.
    rewrite !append_cons in H.
    apply append_sep_inv in H as [Hk H];
      [|apply encode_url_chars|apply encode_url_chars].
    apply encode_inj in Hk. apply (append_inv_head "location=") in H.
    split; [exact Hk|]. unfold Url.given.
    destruct (PyStr.truthy g1) eqn:T1, (PyStr.truthy g2) eqn:T2.
    + change ("&geoId=" +:+ Url.encode (default "" g1))
        with (String "&" ("geoId=" +:+ Url.encode (default "" g1))) in H.
      change ("&geoId=" +:+ Url.encode (default "" g2))
        with (String "&" ("geoId=" +:+ Url.encode (default "" g2))) in H.
      apply append_sep_inv in H as [Hl H];
        [|apply encode_url_chars|apply encode_url_chars].
      apply encode_inj in Hl. apply (append_inv_head "geoId=") in H.
      apply encode_inj in H.
      destruct g1, g2; try discriminate T1; try discriminate T2.
      cbn in H. subst. auto.
    + exfalso. rewrite append_nil_right in H.
      pose proof (proj2 (encode_url_chars l2)) as C. rewrite <- H in C.
      rewrite contains_char_append in C. apply orb_false_iff in C as [_ C].
      discriminate C.
    + exfalso. rewrite append_nil_right in H.
      pose proof (proj2 (encode_url_chars l1)) as C. rewrite H in C.
      rewrite contains_char_append in C. apply orb_false_iff in C as [_ C].
      discriminate C.
    + rewrite !append_nil_right in H. apply encode_inj in H. auto.
  - intros (-> & -> & H). unfold Url.given in H.
    destruct (PyStr.truthy g1) eqn:T1, (PyStr.truthy g2) eqn:T2;
      try reflexivity; subst; try discriminate T1; try discriminate T2.
    congruence.
Qed.

(** ** Events the helpers never emit *)

Ltac quiet_step Hp :=
  first
    [ apply at_most_ret
    | apply at_most_raise
    | apply at_most_try
    | apply silent_bind; [|intros ?]
    | apply at_most_ask; intros ?; first [reflexivity | apply Hp; reflexivity]
    | apply at_most_emit; first [reflexivity | apply Hp; reflexivity]
    | assumption
    | progress cbv zeta
    | match goal with
      | |- at_most _ _ (match ?x with _ => _ end) => destruct x
      end ].

Ltac quieten Hp := driver_calls; repeat quiet_step Hp.

Section Quiet.

Variable B : Browser.
Variable p : event -> bool.
Hypothesis Hp : off_page p.

Lemma try_click_quiet by_ sel timeout : silent p (try_click B by_ sel timeout).
Proof. unfold try_click. quieten Hp. Qed.

Lemma first_text_quiet sc selectors timeout :
  silent p (first_text B sc selectors timeout).
Proof. induction selectors as [|[by_ sel] rest IH]; cbn [first_text]; quieten Hp. Qed.

Lemma is_authwall_modal_quiet : silent p (is_authwall_modal B).
Proof. unfold is_authwall_modal. quieten Hp. Qed.

Lemma login_consent_quiet sels : silent p (login_consent B sels).
Proof.
  induction sels as [|sel rest IH]; cbn [login_consent]; quieten Hp;
    apply try_click_quiet.
Qed.

Lemma dismiss_overlay_quiet sels : silent p (dismiss_overlay B sels).
Proof.
  induction sels as [|sel rest IH]; cbn [dismiss_overlay]; quieten Hp;
    auto using try_click_quiet, is_authwall_modal_quiet.
Qed.

Lemma click_sign_in_quiet : silent p (click_sign_in B).
Proof.
  unfold click_sign_in. apply silent_bind; [apply try_click_quiet|].
  intros []; cbn [negb]; [apply at_most_ret | apply try_click_quiet].
Qed.

Lemma press_escape_quiet : silent p (press_escape B).
Proof. unfold press_escape. quieten Hp. Qed.

Lemma find_first_container_quiet candidates :
  silent p (find_first_container B candidates).
Proof.
  induction candidates as [|sel rest IH]; cbn [find_first_container]; quieten Hp.
Qed.

Lemma harvest_anchors_quiet anchors links :
  silent p (harvest_anchors B anchors links).
Proof.
  revert links. induction anchors as [|a rest IH]; intros links;
    cbn [harvest_anchors]; quieten Hp; apply IH.
Qed.

Lemma click_page_quiet sels : silent p (click_page B sels).
Proof. induction sels as [|sel rest IH]; cbn [click_page]; quieten Hp. Qed.

Lemma description_of_quiet desc_container : silent p (description_of B desc_container).
Proof. destruct desc_container; cbn [description_of]; quieten Hp. Qed.

Hypothesis Hcall : forall f, p (Ev_call f) = false.

Lemma harvest_quiet links : silent p (harvest B links).
Proof.
  unfold harvest, _find_results_container.
  apply silent_bind; [apply at_most_emit, Hcall|]. intros _.
  apply silent_bind; [apply find_first_container_quiet|].
  intros [c|]; quieten Hp. apply harvest_anchors_quiet.
Qed.

Lemma paginate_quiet pages links : silent p (paginate B pages links).
Proof.
  revert links. induction pages as [|page rest IH]; intros links; cbn [paginate].
  - apply at_most_ret.
  - apply silent_bind; [apply click_page_quiet|]. intros []; cbn [negb].
    + apply silent_bind; [apply at_most_emit, Hp; reflexivity|]. intros _.
      apply silent_bind; [apply harvest_quiet|]. intros ?. apply IH.
    + apply at_most_ret.
Qed.

Lemma collect_links_quiet pages : silent p (collect_links B pages).
Proof.
  unfold collect_links.
  apply silent_bind; [apply harvest_quiet|]. intros ?.
  apply silent_bind; [apply paginate_quiet|]. intros ?. apply at_most_ret.
Qed.

Hypothesis Hget : forall u r, p (Ev_get u r) = false.

Lemma login_quiet user pwd : silent p (login B user pwd).
Proof.
  unfold login. apply silent_bind; [apply at_most_emit, Hcall|]. intros _.
  apply silent_bind; [apply at_most_ask; intros ?; apply Hget|]. intros _.
  quieten Hp; auto using login_consent_quiet, try_click_quiet.
Qed.

Lemma clear_retries_quiet search_url user pwd retries :
  silent p (clear_retries B search_url user pwd retries).
Proof.
  induction retries as [|n IH]; cbn [clear_retries];
    (apply silent_bind; [apply at_most_emit, Hcall|]; intros _;
     apply silent_bind; [apply is_authwall_modal_quiet|];
     intros []; cbn [negb]; [|apply at_most_ret];
     apply silent_bind; [apply dismiss_overlay_quiet|];
     intros []; [apply at_most_ret|];
     apply silent_bind; [apply click_sign_in_quiet|];
     intros []; [|apply press_escape_quiet];
     apply silent_bind; [apply login_quiet|]; intros _;
     apply silent_bind; [apply at_most_ask; intros ?; apply Hget|]; intros _;
     apply silent_bind; [apply at_most_emit, Hp; reflexivity|]; intros _).
  - apply at_most_ret.
  - apply silent_bind; [apply is_authwall_modal_quiet|].
    intros []; [exact IH | apply at_most_ret].
Qed.

Lemma scrape_job_quiet link : silent p (scrape_job B link).
Proof.
  unfold scrape_job.
  apply silent_bind; [apply at_most_emit, Hcall|]. intros _.
  apply silent_bind.
  - apply at_most_try. unfold scrape_job_try.
    apply silent_bind; [apply at_most_ask; intros ?; apply Hget|]. intros _.
    repeat first
      [ apply silent_bind; [|intros ?]
      | apply try_click_quiet
      | apply first_text_quiet
      | apply description_of_quiet
      | progress quieten Hp ].
  - intros [o|[]]; apply at_most_ret.
Qed.

Lemma scrape_links_quiet links records : silent p (scrape_links B links records).
Proof.
  revert records. induction links as [|link rest IH]; intros records;
    cbn [scrape_links]; [apply at_most_ret|].
  apply silent_bind; [apply scrape_job_quiet|]. intros rec. cbv zeta.
  apply silent_bind; [apply at_most_emit, Hp; reflexivity|]. intros _. apply IH.
Qed.

End Quiet.

Lemma is_get_off_page : off_page is_get.
Proof. intros []; simpl; congruence. Qed.

Lemma is_quit_off_page : off_page is_quit.
Proof. intros []; simpl; congruence. Qed.

Lemma is_to_csv_off_page : off_page is_to_csv.
Proof. intros []; simpl; congruence. Qed.


(** ** Utils *)

Lemma click_attempt_cases B timeout by_ sel past r t :
  run (let* btn := until B Driver timeout element_to_be_clickable by_ sel in
       execute_script B scroll_into_view btn >> click B btn) past = (r, t) ->
  (length t <= 3)%nat /\
  match r with
  | Ok _ => exists e, last t = Some (Ev_click e (Ok tt))
  | Raise _ => forall e, last t <> Some (Ev_click e (Ok tt))
  end.
Proof.
  rewrite run_bind, run_until.
  destruct (on_until B past Driver timeout element_to_be_clickable by_ sel) as [btn|x];
    [|intros [= <- <-]; split; [cbn; lia|discriminate]].
  rewrite run_bind. unfold execute_script at 1. cbn [run ask].
  destruct (on_execute_script B _ scroll_into_view btn) as [[]|x];
    [|intros [= <- <-]; split; [cbn; lia|discriminate]].
  unfold click at 1. cbn [run ask].
  destruct (on_click B _ btn) as [[]|x]; intros [= <- <-];
    (split; [cbn; lia|]); [exists btn; reflexivity | discriminate].
Qed.

(** X3. [try_click] never raises, makes at most three driver calls (wait,
    scroll, click), and answers [True] exactly when its last call is a
    click that succeeded. *)
Theorem try_click_true_iff_clicked B by_ sel timeout past :
  exists clicked t,
    run (try_click B by_ sel timeout) past = (Ok clicked, t) /\
    (length t <= 3)%nat /\
    (clicked = true <-> exists e, last t = Some (Ev_click e (Ok tt))).
Proof.
  unfold try_click. rewrite run_bind.
  match goal with
  | |- context [run (try ?m) past] => destruct (run m past) as [[[]|x] tb] eqn:Eb
  end; rewrite (run_try_eq _ _ _ _ Eb); apply click_attempt_cases in Eb as [Hlen Hlast];
    rewrite run_ret, app_nil_r.
  - exists true, tb. split; [reflexivity|]. split; [exact Hlen|]. tauto.
  - exists false, tb. split; [reflexivity|]. split; [exact Hlen|].
    split; [discriminate|]. intros [e He]. destruct (Hlast e He).
Qed.

Lemma read_text_cases B sc timeout by_ sel past r t :
  run (let* elem := until B sc timeout presence_of_element_located by_ sel in
       let* txt := text B elem in ret (PyStr.strip txt)) past = (r, t) ->
  match r with
  | Ok s => exists e txt, t = [Ev_until sc timeout presence_of_element_located by_ sel (Ok e);
                               Ev_text e (Ok txt)] /\ s = PyStr.strip txt
  | Raise _ => forall e txt, ~ In (Ev_text e (Ok txt)) t
  end.
Proof.
  rewrite run_bind, run_until.
  destruct (on_until B past sc timeout presence_of_element_located by_ sel) as [el|x];
    [|intros [= <- <-] e txt [H|[]]; discriminate H].
  rewrite run_bind, run_text.
  destruct (on_text B _ el) as [txt|x].
  - rewrite run_ret. intros [= <- <-]. exists el, txt. split; reflexivity.
  - intros [= <- <-] e txt [H|[H|[]]]; discriminate H.
Qed.

Lemma first_text_cases B sc selectors timeout past :
  exists r t,
    run (first_text B sc selectors timeout) past = (Ok r, t) /\
    match r with
    | Some s =>
        s <> "" /\ exists e txt, last t = Some (Ev_text e (Ok txt)) /\ s = PyStr.strip txt
    | None => forall e txt, In (Ev_text e (Ok txt)) t -> PyStr.strip txt = ""
    end.
Proof.
  revert past. induction selectors as [|[by_ sel] rest IH]; intros past.
  - exists None, []. split; [reflexivity|]. intros e txt [].
  - cbn [first_text]. rewrite run_bind.
    match goal with
    | |- context [run (try ?m) past] => destruct (run m past) as [[s|x] tb] eqn:Eb
    end; rewrite (run_try_eq _ _ _ _ Eb); apply read_text_cases in Eb.
    + destruct Eb as (el & txt & -> & ->). cbn [PyStr.truthy].
      destruct (String.eqb (PyStr.strip txt) "") eqn:Eq; cbn [negb].
      * apply String.eqb_eq in Eq.
        destruct (IH (past ++ [Ev_until sc timeout presence_of_element_located by_ sel (Ok el);
                               Ev_text el (Ok txt)])) as (r & t & E & H).
        rewrite E. eexists r, _. split; [reflexivity|]. destruct r as [s|].
        -- destruct H as (Hs & e & txt' & Hl & ->). split; [exact Hs|].
           exists e, txt'. split; [|reflexivity]. rewrite last_app, Hl. reflexivity.
        -- intros e txt' Hin. apply in_app_or in Hin as [[Hin|[Hin|[]]]|Hin].
           ++ discriminate Hin.
           ++ injection Hin as _ <-. exact Eq.
           ++ eauto.
      * apply String.eqb_neq in Eq. rewrite run_ret.
        eexists (Some _), _. split; [reflexivity|]. split; [exact Eq|].
        exists el, txt. split; reflexivity.
    + destruct (IH (past ++ tb)) as (r & t & E & H).
      rewrite E. eexists r, _. split; [reflexivity|]. destruct r as [s|].
      * destruct H as (Hs & e & txt' & Hl & ->). split; [exact Hs|].
        exists e, txt'. split; [|reflexivity]. rewrite last_app, Hl. reflexivity.
      * intros e txt' Hin. apply in_app_or in Hin as [Hin|Hin]; [|eauto].
        destruct (Eb e txt' Hin).
Qed.


(** ** Auth *)

Lemma overlay_detection_only_searches_aux B past :
  exists present t,
    run (is_authwall_modal B) past = (Ok present, t) /\
    Forall (fun e => is_find_elements e = true) t.
Proof.
  unfold is_authwall_modal. rewrite run_bind, run_try, run_find_elements. cbn [fst snd].
  destruct (on_find_elements B past Driver XPATH _) as [[|e es]|x].
  2:{ rewrite run_ret. eexists _, _. split; [reflexivity|]. repeat constructor. }
  all: rewrite run_bind, run_try, run_find_elements; cbn [fst snd];
    destruct (on_find_elements B _ Driver CSS_SELECTOR _) as [l|y];
    rewrite run_ret; eexists _, _; (split; [reflexivity|]); repeat constructor.
Qed.

(** X5. [is_authwall_modal] never raises and only looks: it makes at most
    two searches and nothing else, and answers [True] exactly when one of
    them found an element (a search that fails counts as an empty one). *)
Theorem overlay_detection_only_searches B past :
  exists present t,
    run (is_authwall_modal B) past = (Ok present, t) /\
    (length t <= 2)%nat /\
    Forall (fun e => is_find_elements e = true) t /\
    (present = true <->
     exists sc by_ sel e es, In (Ev_find_elements sc by_ sel (Ok (e :: es))) t).
Proof.
  unfold is_authwall_modal. rewrite run_bind, run_try, run_find_elements. cbn [fst snd].
  destruct (on_find_elements B past Driver XPATH _) as [[|e es]|x] eqn:E1.
  2:{ rewrite run_ret. eexists true, _. split; [reflexivity|].
      split; [cbn; lia|]. split; [repeat constructor|].
      split; [intros _|reflexivity]. eexists _, _, _, e, es. left. reflexivity. }
  all: rewrite run_bind, run_try, run_find_elements; cbn [fst snd];
    destruct (on_find_elements B _ Driver CSS_SELECTOR _) as [[|e es]|y] eqn:E2;
    rewrite run_ret.
  all: try (eexists true, _; split; [reflexivity|];
            split; [cbn; lia|]; split; [repeat constructor|];
            split; [intros _|reflexivity];
            eexists _, _, _, e, es; right; left; reflexivity).
  all: eexists false, _; split; [reflexivity|];
    split; [cbn; lia|]; split; [repeat constructor|];
    split; [discriminate|];
    intros (sc & by_ & sel & e & es & [H|[H|[]]]); discriminate H.
Qed.

Lemma dismiss_overlay_safe B sels : safe (dismiss_overlay B sels).
Proof.
  induction sels as [|sel rest IH]; cbn [dismiss_overlay]; [apply safe_ret|].
  apply safe_bind; [apply try_click_safe|]. intros []; [|exact IH].
  apply safe_bind; [apply safe_emit|]. intros _.
  apply safe_bind; [apply is_authwall_modal_safe|]. intros []; [exact IH|apply safe_ret].
Qed.

Lemma click_sign_in_safe B : safe (click_sign_in B).
Proof.
  unfold click_sign_in. apply safe_bind; [apply try_click_safe|].
  intros []; cbn [negb]; [apply safe_ret | apply try_click_safe].
Qed.

Lemma press_escape_safe B : safe (press_escape B).
Proof. unfold press_escape. safety. Qed.

(** X6. When the detector finds no overlay, the recovery engine returns
    at once: apart from the detection it does nothing, so it clicks
    nothing, types nothing, opens no page and does not log in. *)
Theorem no_overlay_no_recovery B search_url user pwd attempts past t0 :
  run (is_authwall_modal B) (past ++ [Ev_call F_clear_signin_overlay_or_reauth])
    = (Ok false, t0) ->
  run (clear_signin_overlay_or_reauth B search_url user pwd attempts) past
    = (Ok tt, Ev_call F_clear_signin_overlay_or_reauth :: t0) /\
  Forall (fun e => is_find_elements e = true) t0.
Proof.
  intros H0. split.
  - rewrite clear_signin_overlay_or_reauth_unfold, run_bind. cbn [run enter emit].
    change (bind (is_authwall_modal B) ?k ?h) with (run (bind (is_authwall_modal B) k) h).
    rewrite run_bind, H0. cbn [negb]. rewrite run_ret. flatten. reflexivity.
  - destruct (overlay_detection_only_searches_aux B
                (past ++ [Ev_call F_clear_signin_overlay_or_reauth])) as (b & t & E & H).
    rewrite H0 in E. injection E as _ <-. exact H.
Qed.


Lemma clear_retries_raises_after_login B search_url user pwd retries past x t :
  run (clear_retries B search_url user pwd retries) past = (Raise x, t) ->
  (0 < count is_login_call t)%nat.
Proof.
  revert past t. induction retries as [|n IH]; intros past t; cbn [clear_retries];
    rewrite run_bind; cbn [run enter emit];
    change (bind (is_authwall_modal B) ?k ?h) with (run (bind (is_authwall_modal B) k) h);
    rewrite run_bind;
    (destruct (is_authwall_modal_safe B (past ++ [Ev_call F_clear_signin_overlay_or_reauth]))
      as (m & t0 & ->));
    (destruct m; cbn [negb]; [|rewrite run_ret; discriminate]);
    rewrite run_bind;
    match goal with
    | |- context [run (dismiss_overlay B dismiss_selectors) ?h] =>
        destruct (dismiss_overlay_safe B dismiss_selectors h) as (d & t1 & ->)
    end;
    (destruct d; [rewrite run_ret; discriminate|]);
    rewrite run_bind;
    match goal with
    | |- context [run (click_sign_in B) ?h] =>
        destruct (click_sign_in_safe B h) as (c & t2 & ->)
    end;
    (destruct c;
     [|match goal with
       | |- context [run (press_escape B) ?h] =>
           destruct (press_escape_safe B h) as ([] & t3 & ->)
       end; discriminate]);
    rewrite run_bind;
    match goal with
    | |- context [run (login B user pwd) ?h] =>
        destruct (run (login B user pwd) h) as [rl tl] eqn:El
    end;
    pose proof (login_enters_once _ _ _ _ _ _ El) as Hl;
    (destruct rl as [[]|y];
     [|intros [= _ <-]; cbn [app count]; rewrite !count_app; lia]);
    rewrite run_bind, run_get;
    match goal with
    | |- context [on_get B ?h search_url] => destruct (on_get B h search_url) as [[]|y]
    end;
    try (intros [= _ <-]; cbn [app count]; rewrite !count_app; lia);
    rewrite run_bind; cbn [run sleep emit];
    try (rewrite run_ret; discriminate).
  rewrite run_bind.
  match goal with
  | |- context [run (is_authwall_modal B) ?h] =>
      destruct (is_authwall_modal_safe B h) as (m' & t4 & ->)
  end.
  destruct m'; [|rewrite run_ret; discriminate].
  match goal with
  | |- context [run (clear_retries B search_url user pwd n) ?h] =>
      destruct (run (clear_retries B search_url user pwd n) h) as [rr tr]
  end.
  intros [= _ <-]. cbn [app count]. rewrite !count_app. lia.
Qed.

(** X8. The recovery engine can only raise from a login it started: a run
    of the engine that raises has entered [login].  Failing clicks, failing
    searches and a failing escape key never make it raise. *)
Theorem recovery_raises_only_after_login B search_url user pwd attempts past x t :
  run (clear_signin_overlay_or_reauth B search_url user pwd attempts) past = (Raise x, t) ->
  (0 < count is_login_call t)%nat.
Proof. apply clear_retries_raises_after_login. Qed.

(** ** Results *)

Lemma split_item0_without_sep sep s :
  PyStr.contains_char sep s = false -> PyStr.item0 (PyStr.split sep s) = s.
Proof.
  induction s as [|c s IH]; [reflexivity|].
  cbn [PyStr.contains_char PyStr.split]. intros H.
  apply orb_false_iff in H as [Hc Hs]. rewrite Hc.
  specialize (IH Hs). destruct (PyStr.split sep s) as [|x xs]; cbn in *.
  - rewrite <- IH. reflexivity.
  - rewrite IH. reflexivity.
Qed.

(** X9. Cutting the query string off is idempotent, and changes nothing
    in a URL that has no question mark. *)
Theorem canonical_is_idempotent href :
  canonical (canonical href) = canonical href /\
  (PyStr.contains_char "?" href = false -> canonical href = href).
Proof.
  split.
  - apply split_item0_without_sep, canonical_no_query.
  - apply split_item0_without_sep.
Qed.

Lemma prefix_item0_split sep p s :
  PyStr.contains_char sep p = false ->
  String.prefix p s = true ->
  String.prefix p (PyStr.item0 (PyStr.split sep s)) = true.
Proof.
  revert s. induction p as [|a p IH]; intros s Hp Hs.
  - destruct (PyStr.item0 _); reflexivity.
  - destruct s as [|c s]; [discriminate Hs|].
    cbn [PyStr.contains_char] in Hp. apply orb_false_iff in Hp as [Ha Hp].
    cbn [String.prefix] in Hs.
    destruct (ascii_dec a c) as [<-|Hne]; [|discriminate Hs].
    cbn [PyStr.split]. rewrite Ha.
    specialize (IH s Hp Hs).
    destruct (PyStr.split sep s) as [|x xs]; cbn [PyStr.item0 hd] in *.
    + cbn [String.prefix]. destruct (ascii_dec a a); [|congruence].
      destruct p; [reflexivity|discriminate IH].
    + cbn [String.prefix]. destruct (ascii_dec a a); [exact IH|congruence].
Qed.

(** X10. Every link [collect_links] returns starts with
    [https://www.linkedin.com/jobs/view]: the cut of the query string keeps
    the prefix the href was tested for. *)
Theorem collected_links_are_job_links B pages past l t :
  run (collect_links B pages) past = (Ok l, t) ->
  Forall (fun u => PyStr.startswith u job_view_prefix = true) l.
Proof.
  intros E. apply collect_links_grows in E as (links & t' & -> & (_ & Hm & _) & _).
  apply Forall_forall. intros u Hu. apply elem_of_elements in Hu.
  destruct (Hm u Hu) as [H|(a & attr & _ & Hq & ->)]; [set_solver|].
  apply prefix_item0_split; [reflexivity | exact Hq].
Qed.

Lemma find_first_container_cases B candidates past r t :
  run (find_first_container B candidates) past = (r, t) ->
  exists k : nat,
    let before := map (timed_out Driver 10 presence_of_element_located) (take k candidates) in
    match r with
    | Ok None => k = length candidates /\ t = before
    | Ok (Some e) =>
        exists sel, candidates !! k = Some sel /\
          t = before ++ [Ev_until Driver 10 presence_of_element_located CSS_SELECTOR sel (Ok e)]
    | Raise x =>
        x <> TimeoutException /\
        exists sel, candidates !! k = Some sel /\
          t = before ++ [Ev_until Driver 10 presence_of_element_located CSS_SELECTOR sel
                           (Raise x)]
    end.
Proof.
  revert past r t. induction candidates as [|sel rest IH]; intros past r t.
  - intros [= <- <-]. exists 0%nat. split; reflexivity.
  - cbn [find_first_container]. rewrite run_bind, run_try, run_until. cbn [fst snd].
    destruct (on_until B past Driver 10 presence_of_element_located CSS_SELECTOR sel)
      as [e|[]].
    + rewrite run_ret. intros [= <- <-]. exists 0%nat, sel. split; reflexivity.
    + destruct (run (find_first_container B rest) _) as [r' t'] eqn:E.
      intros [= <- <-]. apply IH in E as (k & H). exists (S k). cbv zeta in *.
      destruct r' as [[e|]|x].
      * destruct H as (s & Hs & ->). exists s. split; [exact Hs|reflexivity].
      * destruct H as (-> & ->). split; reflexivity.
      * destruct H as (Hx & s & Hs & ->). split; [exact Hx|].
        exists s. split; [exact Hs|reflexivity].
    + unfold run, raise. intros [= <- <-]. exists 0%nat. split; [discriminate|].
      exists sel. split; reflexivity.
    + unfold run, raise. intros [= <- <-]. exists 0%nat. split; [discriminate|].
      exists sel. split; reflexivity.
Qed.

(** X11. [_find_results_container] tries its five candidates in order
    and stops at the first that is present: before it, every wait has timed
    out.  It returns [None] only after all five have timed out, and an
    exception other than a time-out is raised at once, the candidates after
    it untried. *)
Theorem results_container_is_first_present B past r t :
  run (_find_results_container B) past = (r, t) ->
  exists k : nat,
    let before :=
      map (timed_out Driver 10 presence_of_element_located) (take k container_candidates) in
    match r with
    | Ok None => k = 5%nat /\ t = before
    | Ok (Some e) =>
        exists sel, container_candidates !! k = Some sel /\
          t = before ++ [Ev_until Driver 10 presence_of_element_located CSS_SELECTOR sel (Ok e)]
    | Raise x =>
        x <> TimeoutException /\
        exists sel, container_candidates !! k = Some sel /\
          t = before ++ [Ev_until Driver 10 presence_of_element_located CSS_SELECTOR sel
                           (Raise x)]
    end.
Proof. apply find_first_container_cases. Qed.

Lemma count_timed_out p sc timeout c sels :
  (forall sel, p (timed_out sc timeout c sel) = false) ->
  count p (map (timed_out sc timeout c) sels) = 0%nat.
Proof.
  intros H. induction sels as [|sel rest IH]; [reflexivity|].
  cbn [map count]. rewrite H, IH. reflexivity.
Qed.

(** X12. When no results list is found, and the page source and the URL
    can be read for the log, [collect_links] raises [TimeoutException]
    whatever [pages] is, having read no anchor and attempted no click. *)
Theorem no_results_container_aborts_collection B pages past t1 source u :
  let h1 := past ++ [Ev_call F_harvest] in
  run (_find_results_container B) h1 = (Ok None, t1) ->
  on_page_source B (h1 ++ t1) = Ok source ->
  on_current_url B (h1 ++ t1 ++ [Ev_page_source (Ok source)]) = Ok u ->
  let t := Ev_call F_harvest :: t1 ++ [Ev_page_source (Ok source); Ev_current_url (Ok u)] in
  run (collect_links B pages) past = (Raise TimeoutException, t) /\
  count is_get_attribute t = 0%nat /\
  count is_click_attempt t = 0%nat.
Proof.
  intros h1 H1 Hs Hu t. split; [|split].
  - unfold collect_links, harvest. rewrite !run_bind. cbn [run enter emit]. fold h1.
    change (bind (_find_results_container B) ?k ?h)
      with (run (bind (_find_results_container B) k) h).
    rewrite run_bind, H1, run_bind.
    unfold page_source at 1. cbn [run ask]. rewrite Hs.
    rewrite run_bind. unfold current_url at 1. cbn [run ask]. flatten. rewrite Hu.
    unfold run, raise. subst t. flatten. reflexivity.
  - apply find_first_container_cases in H1 as (k & _ & ->). subst t.
    cbn [count is_get_attribute]. rewrite count_app, count_timed_out by reflexivity.
    reflexivity.
  - apply find_first_container_cases in H1 as (k & _ & ->). subst t.
    cbn [count is_click_attempt]. rewrite count_app, count_timed_out by reflexivity.
    reflexivity.
Qed.

Lemma count_cons p e t : count p (e :: t) = ((if p e then 1 else 0) + count p t)%nat.
Proof. reflexivity. Qed.

Lemma count_nil p : count p [] = 0%nat.
Proof. reflexivity. Qed.

Ltac count_up :=
  repeat first [ rewrite count_app | rewrite count_cons | rewrite count_nil ];
  cbn [is_harvest_call is_login_call is_clear_call is_get is_quit is_to_csv
       is_get_attribute is_click_attempt is_send_keys is_scrape_call].

Lemma paginate_harvests_at_most B pages links past r t :
  run (paginate B pages links) past = (r, t) ->
  (count is_harvest_call t <= length pages)%nat.
Proof.
  revert links past r t. induction pages as [|page rest IH]; intros links past r t.
  - intros [= _ <-]. cbn. lia.
  - cbn [paginate]. rewrite run_bind.
    destruct (click_page_safe B (page_selectors page) past) as (clicked & tc & Ec).
    rewrite Ec.
    pose proof (count_silent _ _ _ _ _
                  (click_page_silent B _ is_harvest_call_on_calls _) Ec) as Hc.
    destruct clicked; cbn [negb].
    + rewrite run_bind. cbn [run sleep emit].
      change (bind (harvest B links) ?k ?h) with (run (bind (harvest B links) k) h).
      rewrite run_bind.
      destruct (run (harvest B links) _) as [rh th] eqn:Eh.
      pose proof (harvest_enters_once _ _ _ _ _ Eh) as Hh.
      destruct rh as [links1|x].
      * destruct (run (paginate B rest links1) _) as [r2 t2] eqn:E2.
        apply IH in E2. intros [= _ <-]. count_up. cbn [length]. lia.
      * intros [= _ <-]. count_up. cbn [length]. lia.
    + rewrite run_ret. intros [= _ <-]. count_up. cbn [length]. lia.
Qed.

(** X13. [collect_links] visits at most [pages] pages, and one page when
    [pages] is less than 1: the number of [harvest] entries in a run is at
    least 1 and at most the larger of 1 and [pages]. *)
Theorem pages_visited_bounded B pages past :
  let t := snd (run (collect_links B pages) past) in
  1 <= Z.of_nat (pages_visited t) <= Z.max 1 pages.
Proof.
  cbv zeta. unfold collect_links, pages_visited. rewrite run_bind.
  destruct (run (harvest B ∅) past) as [rh th] eqn:Eh.
  pose proof (harvest_enters_once _ _ _ _ _ Eh) as Hh.
  destruct rh as [links|x]; [|cbn [snd]; lia].
  rewrite run_bind.
  destruct (run (paginate B _ links) _) as [rp tp] eqn:Ep.
  apply paginate_harvests_at_most in Ep. unfold range in Ep. rewrite length_seqZ in Ep.
  destruct rp; rewrite ?run_ret; cbn [snd]; count_up; lia.
Qed.

(** Closes a goal on a run from a hypothesis on the same run, the past
    written with its appends grouped in another way. *)
Ltac same_past E :=
  match goal with
  | |- run _ ?h = _ =>
      match type of E with
      | run _ ?h' = _ => replace h with h' by (flatten; reflexivity); exact E
      end
  end.

Lemma paginate_raises_from_harvest B pages links past x t :
  run (paginate B pages links) past = (Raise x, t) ->
  exists links' before th,
    t = before ++ th /\ run (harvest B links') (past ++ before) = (Raise x, th).
Proof.
  revert links past t. induction pages as [|page rest IH]; intros links past t.
  - discriminate.
  - cbn [paginate]. rewrite run_bind.
    destruct (click_page_safe B (page_selectors page) past) as (clicked & tc & ->).
    destruct clicked; cbn [negb]; [|rewrite run_ret; discriminate].
    rewrite run_bind. cbn [run sleep emit].
    change (bind (harvest B links) ?k ?h) with (run (bind (harvest B links) k) h).
    rewrite run_bind.
    destruct (run (harvest B links) _) as [[links1|y] th] eqn:Eh.
    + destruct (run (paginate B rest links1) _) as [r2 t2] eqn:E2.
      intros [= -> <-]. apply IH in E2 as (links' & before & th' & -> & E).
      exists links', (tc ++ [Ev_sleep 1200] ++ th ++ before), th'.
      split; [flatten; reflexivity|]. same_past E.
    + intros [= -> <-]. exists links, (tc ++ [Ev_sleep 1200]), th.
      split; [flatten; reflexivity|]. same_past Eh.
Qed.

(** X14. [collect_links] raises only what a [harvest] raised, and stops
    there: a pagination control that is missing or cannot be clicked never
    makes it raise. *)
Theorem collection_raises_only_from_harvest B pages past x t :
  run (collect_links B pages) past = (Raise x, t) ->
  exists links before th,
    t = before ++ th /\ run (harvest B links) (past ++ before) = (Raise x, th).
Proof.
  unfold collect_links. rewrite run_bind.
  destruct (run (harvest B ∅) past) as [[links|y] th] eqn:Eh.
  - rewrite run_bind.
    destruct (run (paginate B _ links) _) as [[links'|y] tp] eqn:Ep.
    + rewrite run_ret. discriminate.
    + intros [= -> <-]. apply paginate_raises_from_harvest in Ep
        as (links' & before & th' & -> & E).
      exists links', (th ++ before), th'. split; [flatten; reflexivity|].
      same_past E.
  - intros [= -> <-]. exists ∅, [], th. split; [reflexivity|].
    rewrite app_nil_r. exact Eh.
Qed.

Lemma count_zero_not_in p t e : count p t = 0%nat -> In e t -> p e = false.
Proof.
  induction t as [|a t IH]; [intros _ []|].
  cbn [count]. intros H [<-|Hin].
  - destruct (p a); [discriminate H|reflexivity].
  - apply IH; [|exact Hin]. destruct (p a); [discriminate H|exact H].
Qed.

Lemma find_first_container_no_attribute B candidates :
  silent is_get_attribute (find_first_container B candidates).
Proof.
  induction candidates as [|sel rest IH]; cbn [find_first_container];
    quieten is_get_off_page.
Qed.

Lemma click_page_no_attribute B sels : silent is_get_attribute (click_page B sels).
Proof.
  induction sels as [|sel rest IH]; cbn [click_page]; quieten is_get_off_page.
Qed.

Lemma harvest_anchors_keeps B anchors links past links' t :
  run (harvest_anchors B anchors links) past = (Ok links', t) ->
  links ⊆ links' /\
  forall a attr, In (Ev_get_attribute a "href" (Ok attr)) t ->
    PyStr.startswith (href_of attr) job_view_prefix = true ->
    canonical (href_of attr) ∈ links'.
Proof.
  revert links past t. induction anchors as [|a0 rest IH]; intros links past t.
  - intros [= <- <-]. split; [set_solver|]. intros a attr [].
  - cbn [harvest_anchors]. intros E.
    apply bind_inv in E as (attr0 & t1 & t2 & E1 & E2 & ->).
    unfold get_attribute in E1. cbn [run ask] in E1. injection E1 as Hattr <-.
    rewrite Hattr. cbv zeta in E2.
    destruct (PyStr.startswith (href_of attr0) job_view_prefix) eqn:Q;
      apply IH in E2 as (Hs & Hk); (split; [set_solver|]);
      intros a attr [H|H] Hq; try (apply (Hk a attr H Hq)).
    + injection H as _ <-. set_solver.
    + injection H as _ <-. congruence.
Qed.

Lemma harvest_keeps B links past links' t :
  run (harvest B links) past = (Ok links', t) ->
  links ⊆ links' /\
  forall a attr, In (Ev_get_attribute a "href" (Ok attr)) t ->
    PyStr.startswith (href_of attr) job_view_prefix = true ->
    canonical (href_of attr) ∈ links'.
Proof.
  unfold harvest. intros E.
  apply bind_inv in E as ([] & t0 & t1 & E0 & E & ->).
  cbn [run enter emit] in E0. injection E0 as <-.
  apply bind_inv in E as (container & t2 & t3 & Ec & E & ->).
  pose proof (count_silent _ _ _ _ _ (find_first_container_no_attribute B _) Ec) as Hc.
  destruct container as [c|].
  - apply bind_inv in E as (a1 & t4 & t5 & E4 & E & ->).
    apply bind_inv in E as (a2 & t6 & t7 & E6 & E & ->).
    apply bind_inv in E as (a3 & t8 & t9 & E8 & E & ->).
    cbn [run find_elements ask] in E4, E6, E8.
    injection E4 as _ <-. injection E6 as _ <-. injection E8 as _ <-.
    apply harvest_anchors_keeps in E as (Hs & Hk). split; [exact Hs|].
    intros a attr Hin Hq. apply (Hk a attr); [|exact Hq].
    rewrite !in_app_iff in Hin.
    destruct Hin as [[H|[]]|[H|[[H|[]]|[[H|[]]|[[H|[]]|H]]]]];
      try discriminate H; [|exact H].
    apply (count_zero_not_in _ _ _ Hc) in H. discriminate H.
  - apply bind_inv in E as (s & t4 & t5 & _ & E & ->).
    apply bind_inv in E as (u & t6 & t7 & _ & E & ->). discriminate E.
Qed.

Lemma paginate_keeps B pages links past links' t :
  run (paginate B pages links) past = (Ok links', t) ->
  links ⊆ links' /\
  forall a attr, In (Ev_get_attribute a "href" (Ok attr)) t ->
    PyStr.startswith (href_of attr) job_view_prefix = true ->
    canonical (href_of attr) ∈ links'.
Proof.
  revert links past t. induction pages as [|page rest IH]; intros links past t.
  - intros [= <- <-]. split; [set_solver|]. intros a attr [].
  - cbn [paginate]. intros E.
    apply bind_inv in E as (clicked & t0 & t1 & Ec & E & ->).
    pose proof (count_silent _ _ _ _ _ (click_page_no_attribute B _) Ec) as Hc.
    destruct clicked; cbn [negb] in E.
    + apply bind_inv in E as ([] & t2 & t3 & E2 & E & ->).
      cbn [run sleep emit] in E2. injection E2 as <-.
      apply bind_inv in E as (links1 & t4 & t5 & E1 & E & ->).
      apply harvest_keeps in E1 as (Hs1 & Hk1). apply IH in E as (Hs2 & Hk2).
      split; [set_solver|]. intros a attr Hin Hq.
      rewrite !in_app_iff in Hin.
      destruct Hin as [H|[[H|[]]|[H|H]]]; try discriminate H.
      * apply (count_zero_not_in _ _ _ Hc) in H. discriminate H.
      * specialize (Hk1 a attr H Hq). set_solver.
      * eauto.
    + injection E as <- <-. split; [set_solver|]. intros a attr Hin Hq.
      rewrite in_app_iff in Hin. destruct Hin as [H|[]].
      apply (count_zero_not_in _ _ _ Hc) in H. discriminate H.
Qed.

(** X15. No link is lost: every href that [collect_links] read and that
    passed the test is in the list it returns, cut at its question mark. *)
Theorem every_qualifying_href_is_collected B pages past l t a attr :
  run (collect_links B pages) past = (Ok l, t) ->
  In (Ev_get_attribute a "href" (Ok attr)) t ->
  PyStr.startswith (href_of attr) job_view_prefix = true ->
  In (canonical (href_of attr)) l.
Proof.
  unfold collect_links. intros E Hin Hq.
  apply bind_inv in E as (links1 & t1 & t2 & E1 & E & ->).
  apply bind_inv in E as (links2 & t3 & t4 & E2 & E & ->).
  injection E as <- <-.
  apply harvest_keeps in E1 as (_ & Hk1). apply paginate_keeps in E2 as (Hs2 & Hk2).
  apply list_elem_of_In, elem_of_elements.
  rewrite !in_app_iff in Hin. destruct Hin as [H|[H|[]]]; [|eauto].
  specialize (Hk1 a attr H Hq). set_solver.
Qed.

(** ** Job page *)

Lemma first_text_truthy B sc selectors timeout past o t :
  run (first_text B sc selectors timeout) past = (Ok o, t) ->
  o = None \/ PyStr.truthy o = true.
Proof.
  intros E. destruct (first_text_cases B sc selectors timeout past) as (r & t' & E' & H).
  rewrite E in E'. injection E' as <- _. destruct o as [s|]; [right|left; reflexivity].
  destruct H as (Hs & _). cbn. apply String.eqb_neq in Hs. rewrite Hs. reflexivity.
Qed.

Lemma scrape_job_try_fields B link past rec t :
  run (scrape_job_try B link) past = (Ok (Some rec), t) ->
  url rec = link /\
  Forall (fun o => o = None \/ PyStr.truthy o = true)
    [job_title rec; company_name rec; company_location rec;
     work_method rec; post_date rec; work_time rec] /\
  exists t', t = Ev_get link (Ok tt) :: t'.
Proof.
  unfold scrape_job_try. intros E.
  apply bind_inv in E as ([] & tg & ? & Eg & E & ->).
  rewrite run_get in Eg. injection Eg as Hg <-.
  apply bind_inv in E as (? & ? & ? & _ & E & ->).
  apply bind_inv in E as (? & ? & ? & _ & E & ->).
  apply bind_inv in E as (top & ? & ? & _ & E & ->).
  apply bind_inv in E as (title & ? & ? & E1 & E & ->).
  apply bind_inv in E as (company & ? & ? & E2 & E & ->).
  apply bind_inv in E as (location & ? & ? & E3 & E & ->).
  apply bind_inv in E as (workplace & ? & ? & E4 & E & ->).
  apply bind_inv in E as (posted & ? & ? & E5 & E & ->).
  apply bind_inv in E as (schedule & ? & ? & E6 & E & ->).
  apply bind_inv in E as (? & ? & ? & _ & E & ->).
  apply bind_inv in E as (description & ? & ? & _ & E & ->).
  match type of E with
  | run (if ?c then _ else _) _ = _ => destruct c
  end; [discriminate E|].
  injection E as <- _. cbn [url job_title company_name company_location work_method
                           post_date work_time].
  split; [reflexivity|]. split.
  - do 6 (constructor; [eapply first_text_truthy; eassumption|]). constructor.
  - rewrite Hg. eexists. reflexivity.
Qed.

(** X16. A record [scrape_job] returns has the link it was called on as
    its URL; each of its six top-card fields (title, company, location,
    work method, post date, work time) is either missing or a text that is
    not empty; and the page was opened first, with success. *)
Theorem record_fields_are_missing_or_not_empty B link past rec t :
  run (scrape_job B link) past = (Ok (Some rec), t) ->
  url rec = link /\
  Forall (fun o => o = None \/ PyStr.truthy o = true)
    [job_title rec; company_name rec; company_location rec;
     work_method rec; post_date rec; work_time rec] /\
  exists t', t = Ev_call (F_scrape_job link) :: Ev_get link (Ok tt) :: t'.
Proof.
  intros E. pose proof E as E'.
  apply scrape_job_inv in E as (t1 & E1).
  pose proof (scrape_job_of_try _ _ _ _ _ E1) as E2. rewrite E' in E2.
  injection E2 as ->.
  apply scrape_job_try_fields in E1 as (Hu & Hf & (t' & ->)).
  split; [exact Hu|]. split; [exact Hf|]. exists t'. reflexivity.
Qed.

Lemma scrape_job_url B link past rec t :
  run (scrape_job B link) past = (Ok (Some rec), t) -> url rec = link.
Proof.
  intros E. apply scrape_job_inv in E as (t1 & E1).
  apply scrape_job_try_fields in E1 as (Hu & _). exact Hu.
Qed.

Lemma scrape_links_sublist B links records past recs t :
  run (scrape_links B links records) past = (Ok recs, t) ->
  exists new, recs = records ++ new /\ sublist (map url new) links.
Proof.
  revert records past recs t. induction links as [|link rest IH];
    intros records past recs t.
  - intros [= <- _]. exists []. split; [rewrite app_nil_r; reflexivity|constructor].
  - cbn [scrape_links]. intros E.
    apply bind_inv in E as (rec & t1 & t2 & E1 & E & ->). cbv zeta in E.
    apply bind_inv in E as ([] & t3 & t4 & _ & E & ->).
    apply IH in E as (new & -> & Hsub). destruct rec as [r|].
    + apply scrape_job_url in E1. exists (r :: new).
      split; [rewrite <- app_assoc; reflexivity|].
      cbn [map]. rewrite E1. apply sublist_skip, Hsub.
    + exists new. split; [reflexivity|]. apply sublist_cons, Hsub.
Qed.

(** X17. The loop of [main] over the links only adds records, at the end
    and in the order of the links: the URLs of the records it adds are a
    sublist of the links, so there is at most one record per link. *)
Theorem records_follow_the_links B links records past recs t :
  run (scrape_links B links records) past = (Ok recs, t) ->
  exists new,
    recs = records ++ new /\
    sublist (map url new) links /\
    (length new <= length links)%nat.
Proof.
  intros E. apply scrape_links_sublist in E as (new & -> & Hsub).
  exists new. split; [reflexivity|]. split; [exact Hsub|].
  apply sublist_length in Hsub. rewrite length_map in Hsub. exact Hsub.
Qed.

(** ** Main *)

Lemma at_most_ask_1 p {A} (answer : trace -> result A) ev : at_most p 1 (ask answer ev).
Proof. intros past. cbn. destruct (p _); lia. Qed.

Section MainTrace.

Variable B : Browser.
Variable p : event -> bool.
Hypothesis Hp : off_page p.
Hypothesis Hcall : forall f, p (Ev_call f) = false.
Hypothesis Hget : forall u r, p (Ev_get u r) = false.
Variables user pwd search_url out : string.
Variable pages : Z.
Variable n : nat.
Hypothesis Hcsv :
  forall rec rows r, p (Ev_to_csv out (rec :: rows) r) = true -> (1 <= n)%nat.

(** Before the browser is closed, [main] emits at most [n] events of a
    kind that only a write of the file can be of. *)
Lemma main_before_quit past :
  exists t1 rq,
    snd (run (main B user pwd search_url pages out) past) = t1 ++ [Ev_quit rq] /\
    (count p t1 <= n)%nat.
Proof.
  unfold main. rewrite run_finally.
  match goal with
  | |- context [run ?m past] =>
      assert (Hb : at_most p n m); [|specialize (Hb past); destruct (run m past) as [r t1]]
  end.
  - apply at_most_bind_l; [apply login_quiet; assumption|]. intros _.
    apply at_most_bind_l; [apply at_most_ask; intros ?; apply Hget|]. intros _.
    apply at_most_bind_l; [apply at_most_emit, Hp; reflexivity|]. intros _.
    apply at_most_bind_l; [apply clear_retries_quiet; assumption|]. intros _.
    apply at_most_bind_l; [apply collect_links_quiet; assumption|]. intros links.
    apply at_most_bind_l; [apply scrape_links_quiet; assumption|]. intros [|rec rows].
    + apply at_most_le with 0%nat; [apply at_most_ret|lia].
    + intros h. unfold to_csv. cbn [run ask snd count].
      destruct (p (Ev_to_csv out (rec :: rows) _)) eqn:E; [|lia].
      apply Hcsv in E. lia.
  - cbn [snd] in Hb. unfold quit. cbn [run ask].
    exists t1, (on_quit B (past ++ t1)). split; [|exact Hb].
    destruct (on_quit B (past ++ t1)) as [[]|x]; reflexivity.
Qed.

End MainTrace.

(** X18. Whatever happens, [main] closes the browser, once, and that is
    the last thing it does: the last event of every run is the [quit], and
    there is no other. *)
Theorem browser_is_closed_last B user pwd search_url pages out past :
  exists t1 rq,
    snd (run (main B user pwd search_url pages out) past) = t1 ++ [Ev_quit rq] /\
    count is_quit t1 = 0%nat.
Proof.
  destruct (main_before_quit B is_quit is_quit_off_page (fun _ => eq_refl)
              (fun _ _ => eq_refl) user pwd search_url out pages 0) with (past := past)
    as (t1 & rq & E & H).
  - intros rec rows r H. discriminate H.
  - exists t1, rq. split; [exact E|lia].
Qed.

Lemma bad_csv_off_page out : off_page (bad_csv out).
Proof. intros []; simpl; congruence. Qed.

(** X19. [main] writes the file at most once, and only to [out] and with
    at least one row: it never writes an empty file. *)
Theorem file_is_written_once_and_not_empty B user pwd search_url pages out past :
  let t := snd (run (main B user pwd search_url pages out) past) in
  (count is_to_csv t <= 1)%nat /\
  forall out' rows r, In (Ev_to_csv out' rows r) t -> out' = out /\ rows <> [].
Proof.
  cbv zeta. split.
  - destruct (main_before_quit B is_to_csv is_to_csv_off_page (fun _ => eq_refl)
                (fun _ _ => eq_refl) user pwd search_url out pages 1) with (past := past)
      as (t1 & rq & -> & H); [intros; lia|].
    rewrite count_app. cbn. lia.
  - destruct (main_before_quit B (bad_csv out) (bad_csv_off_page out) (fun _ => eq_refl)
                (fun _ _ => eq_refl) user pwd search_url out pages 0) with (past := past)
      as (t1 & rq & -> & H).
    { intros rec rows r E. cbn in E. rewrite String.eqb_refl in E. discriminate E. }
    intros out' rows r Hin. apply in_app_or in Hin as [Hin|[Hin|[]]]; [|discriminate Hin].
    assert (H0 : count (bad_csv out) t1 = 0%nat) by lia.
    apply (count_zero_not_in _ _ _ H0) in Hin. cbn in Hin.
    apply orb_false_iff in Hin as [Ho Hr].
    apply negb_false_iff, String.eqb_eq in Ho.
    split; [exact Ho|]. destruct rows; [discriminate Hr|discriminate].
Qed.

(** X20. When the login raises, [main] opens no search page and reads no
    result: it closes the browser and raises the exception of the login,
    or that of the [quit] if the [quit] raises too. *)
Theorem failed_login_stops_the_run B user pwd search_url pages out past x t1 :
  run (login B user pwd) past = (Raise x, t1) ->
  exists rq,
    run (main B user pwd search_url pages out) past
    = (match rq with Ok _ => Raise x | Raise y => Raise y end, t1 ++ [Ev_quit rq]).
Proof.
  intros E. unfold main. rewrite run_finally, run_bind, E.
  unfold quit. cbn [run ask]. exists (on_quit B (past ++ t1)).
  destruct (on_quit B (past ++ t1)) as [[]|y]; reflexivity.
Qed.

(** ** Login *)

Lemma try_click_no_keys B by_ sel timeout :
  silent is_send_keys (try_click B by_ sel timeout).
Proof. unfold try_click. quieten is_get_off_page. Qed.

Lemma login_consent_no_keys B sels : silent is_send_keys (login_consent B sels).
Proof.
  induction sels as [|sel rest IH]; cbn [login_consent];
    quieten is_get_off_page; apply try_click_no_keys.
Qed.

Lemma login_consent_safe B sels : safe (login_consent B sels).
Proof.
  induction sels as [|sel rest IH]; cbn [login_consent]; [apply safe_ret|].
  apply safe_bind; [apply try_click_safe|]. intros []; [apply safe_ret|].
  apply safe_bind; [apply try_click_safe|]. intros []; [apply safe_ret|exact IH].
Qed.

Lemma filter_silent p t : count p t = 0%nat -> List.filter p t = [].
Proof.
  induction t as [|e t IH]; [reflexivity|]. cbn [count List.filter].
  destruct (p e); [discriminate|]. exact IH.
Qed.

(** X21. The cookie banner and the submit button are best effort: when
    the login page opens, both fields become visible and the keys can be
    typed, [login] returns normally whether or not any consent button or
    the submit button could be clicked, and the only keys it types are the
    user name in the first field, then the password in the second. *)
Theorem login_needs_only_the_form B user pwd past e_user e_pwd :
  (forall h, on_get B h login_url = Ok tt) ->
  (forall h, on_until B h Driver 20 visibility_of_element_located ID "username"
             = Ok e_user) ->
  (forall h, on_until B h Driver 20 visibility_of_element_located ID "password"
             = Ok e_pwd) ->
  (forall h e k, on_send_keys B h e k = Ok tt) ->
  exists t,
    run (login B user pwd) past = (Ok tt, t) /\
    List.filter is_send_keys t
    = [Ev_send_keys e_user (Text user) (Ok tt); Ev_send_keys e_pwd (Text pwd) (Ok tt)].
Proof.
  intros Hget Hu Hpw Hk. unfold login.
  rewrite run_bind. cbn [run enter emit].
  change (bind (get B login_url) ?k ?h) with (run (bind (get B login_url) k) h).
  rewrite run_bind, run_get, Hget, run_bind.
  match goal with
  | |- context [run (login_consent B consent_selectors) ?h] =>
      destruct (login_consent_safe B consent_selectors h) as ([] & tc & Ec)
  end.
  rewrite Ec.
  pose proof (count_silent _ _ _ _ _ (login_consent_no_keys B _) Ec) as Hc.
  rewrite run_bind, run_until, Hu, run_bind.
  unfold send_keys at 1. cbn [run ask]. rewrite Hk.
  rewrite run_bind, run_until, Hpw, run_bind.
  unfold send_keys at 1. cbn [run ask]. rewrite Hk.
  rewrite run_bind.
  match goal with
  | |- context [run (try_click B XPATH ?s 10) ?h] =>
      destruct (try_click_safe B XPATH s 10 h) as (b & ts & Es)
  end.
  rewrite Es, run_ret.
  pose proof (count_silent _ _ _ _ _ (try_click_no_keys B _ _ _) Es) as Hs.
  eexists. split; [reflexivity|].
  flatten. cbn [List.filter is_send_keys].
  rewrite List.filter_app, (filter_silent _ _ Hc). cbn [app List.filter is_send_keys].
  rewrite (filter_silent _ _ Hs). reflexivity.
Qed.

(** X22. When the login page opens but the user name field never becomes
    visible, [login] raises the exception of that wait and has typed
    nothing, the password included. *)
Theorem login_types_nothing_without_the_form B user pwd past x :
  (forall h, on_get B h login_url = Ok tt) ->
  (forall h, on_until B h Driver 20 visibility_of_element_located ID "username"
             = Raise x) ->
  exists t,
    run (login B user pwd) past = (Raise x, t) /\
    count is_send_keys t = 0%nat.
Proof.
  intros Hget Hu. unfold login.
  rewrite run_bind. cbn [run enter emit].
  change (bind (get B login_url) ?k ?h) with (run (bind (get B login_url) k) h).
  rewrite run_bind, run_get, Hget, run_bind.
  match goal with
  | |- context [run (login_consent B consent_selectors) ?h] =>
      destruct (login_consent_safe B consent_selectors h) as ([] & tc & Ec)
  end.
  rewrite Ec.
  pose proof (count_silent _ _ _ _ _ (login_consent_no_keys B _) Ec) as Hc.
  rewrite run_bind, run_until, Hu.
  eexists. split; [reflexivity|]. count_up. rewrite Hc. reflexivity.
Qed.

(** ** The further properties on the test pages *)

Lemma no_overlay_no_recovery_witness :
  let B := Fixture.two_pages in
  let t0 := snd (run (is_authwall_modal B) [Ev_call F_clear_signin_overlay_or_reauth]) in
  run (is_authwall_modal B) [Ev_call F_clear_signin_overlay_or_reauth] = (Ok false, t0) /\
  run (clear_signin_overlay_or_reauth B search "user" "secret" 1) []
    = (Ok tt, Ev_call F_clear_signin_overlay_or_reauth :: t0) /\
  Forall (fun e => is_find_elements e = true) t0.
Proof.
  intros B t0.
  assert (H0 : run (is_authwall_modal B) ([] ++ [Ev_call F_clear_signin_overlay_or_reauth])
               = (Ok false, t0)) by (vm_compute; reflexivity).
  split; [exact H0|].
  exact (no_overlay_no_recovery B search "user" "secret" 1 [] t0 H0).
Defined.


Lemma recovery_raises_only_after_login_witness :
  let r := run (clear_signin_overlay_or_reauth Fixture2.wall_without_form
                  search "user" "secret" 1) [] in
  r = (Raise TimeoutException, snd r) /\ (0 < count is_login_call (snd r))%nat.
Proof.
  intros r.
  assert (E : r = (Raise TimeoutException, snd r)) by (vm_compute; reflexivity).
  split; [exact E|].
  exact (recovery_raises_only_after_login Fixture2.wall_without_form
           search "user" "secret" 1 [] TimeoutException (snd r) E).
Defined.

Lemma canonical_is_idempotent_witness :
  PyStr.contains_char "?" job_101 = false /\
  canonical (canonical job_101) = canonical job_101 /\
  canonical job_101 = job_101.
Proof.
  assert (H : PyStr.contains_char "?" job_101 = false) by reflexivity.
  split; [exact H|].
  destruct (canonical_is_idempotent job_101) as [H1 H2].
  split; [exact H1 | exact (H2 H)].
Defined.

Lemma collected_links_are_job_links_witness :
  let r := run (collect_links Fixture.two_pages 3) [] in
  let l := [ "https://www.linkedin.com/jobs/view/103";
             "https://www.linkedin.com/jobs/view/101";
             "https://www.linkedin.com/jobs/view/102" ] in
  r = (Ok l, snd r) /\
  Forall (fun u => PyStr.startswith u job_view_prefix = true) l.
Proof.
  intros r l.
  assert (E : r = (Ok l, snd r)) by (vm_compute; reflexivity).
  split; [exact E|].
  exact (collected_links_are_job_links Fixture.two_pages 3 [] l (snd r) E).
Defined.

Lemma results_container_is_first_present_witness :
  let r := run (_find_results_container Fixture.two_pages) [] in
  r = (Ok (Some 1%nat), snd r) /\
  exists k : nat,
    exists sel, container_candidates !! k = Some sel /\
      snd r =
      map (timed_out Driver 10 presence_of_element_located) (take k container_candidates)
      ++ [Ev_until Driver 10 presence_of_element_located CSS_SELECTOR sel (Ok 1%nat)].
Proof.
  intros r.
  assert (E : r = (Ok (Some 1%nat), snd r)) by (vm_compute; reflexivity).
  split; [exact E|].
  exact (results_container_is_first_present Fixture.two_pages [] _ _ E).
Defined.

Lemma no_results_container_aborts_collection_witness :
  let B := Fixture.blank in
  let t1 := snd (run (_find_results_container B) [Ev_call F_harvest]) in
  let t := Ev_call F_harvest :: t1 ++ [Ev_page_source (Ok ""); Ev_current_url (Ok "")] in
  run (_find_results_container B) [Ev_call F_harvest] = (Ok None, t1) /\
  run (collect_links B 13) [] = (Raise TimeoutException, t) /\
  count is_get_attribute t = 0%nat /\
  count is_click_attempt t = 0%nat.
Proof.
  intros B t1 t.
  assert (H1 : run (_find_results_container B) ([] ++ [Ev_call F_harvest]) = (Ok None, t1))
    by (vm_compute; reflexivity).
  split; [exact H1|].
  exact (no_results_container_aborts_collection B 13 [] t1 "" "" H1 eq_refl eq_refl).
Defined.

Lemma collection_raises_only_from_harvest_witness :
  let r := run (collect_links Fixture.blank 13) [] in
  r = (Raise TimeoutException, snd r) /\
  exists links before th,
    snd r = before ++ th /\
    run (harvest Fixture.blank links) ([] ++ before) = (Raise TimeoutException, th).
Proof.
  intros r.
  assert (E : r = (Raise TimeoutException, snd r)) by (vm_compute; reflexivity).
  split; [exact E|].
  exact (collection_raises_only_from_harvest Fixture.blank 13 [] _ _ E).
Defined.

Lemma every_qualifying_href_is_collected_witness :
  let r := run (collect_links Fixture.two_pages 3) [] in
  let l := [ "https://www.linkedin.com/jobs/view/103";
             "https://www.linkedin.com/jobs/view/101";
             "https://www.linkedin.com/jobs/view/102" ] in
  let attr := Some " https://www.linkedin.com/jobs/view/102?trk=x&pos=2 " in
  r = (Ok l, snd r) /\
  In (Ev_get_attribute 11%nat "href" (Ok attr)) (snd r) /\
  PyStr.startswith (href_of attr) job_view_prefix = true /\
  In (canonical (href_of attr)) l.
Proof.
  intros r l attr.
  assert (E : r = (Ok l, snd r)) by (vm_compute; reflexivity).
  assert (Hin : In (Ev_get_attribute 11%nat "href" (Ok attr)) (snd r))
    by (vm_compute; do 6 right; left; reflexivity).
  assert (Hq : PyStr.startswith (href_of attr) job_view_prefix = true) by reflexivity.
  split; [exact E|]. split; [exact Hin|]. split; [exact Hq|].
  exact (every_qualifying_href_is_collected Fixture.two_pages 3 [] l (snd r) 11%nat attr
           E Hin Hq).
Defined.

Lemma record_fields_are_missing_or_not_empty_witness :
  let B := Fixture.detail (Some "Data Analyst") (Some "Acme") None in
  let r := run (scrape_job B job_101) [] in
  exists rec,
    r = (Ok (Some rec), snd r) /\
    url rec = job_101 /\
    job_title rec = Some "Data Analyst" /\
    work_time rec = None /\
    Forall (fun o => o = None \/ PyStr.truthy o = true)
      [job_title rec; company_name rec; company_location rec;
       work_method rec; post_date rec; work_time rec].
Proof.
  intros B r.
  destruct (fst r) as [[rec|]|x] eqn:Er; [|vm_compute in Er; discriminate Er..].
  exists rec.
  assert (E : r = (Ok (Some rec), snd r)) by (rewrite <- Er; destruct r; reflexivity).
  split; [exact E|].
  destruct (record_fields_are_missing_or_not_empty B job_101 [] rec (snd r) E)
    as (Hu & Hf & _).
  split; [exact Hu|].
  vm_compute in Er. injection Er as <-.
  split; [reflexivity|]. split; [reflexivity|]. exact Hf.
Defined.

Lemma records_follow_the_links_witness :
  let B := Fixture.detail (Some "Data Analyst") (Some "Acme") None in
  let r := run (scrape_links B [job_101; search] []) [] in
  exists recs,
    r = (Ok recs, snd r) /\
    map url recs = [job_101; search] /\
    exists new,
      recs = [] ++ new /\
      sublist (map url new) [job_101; search] /\
      (length new <= 2)%nat.
Proof.
  intros B r.
  destruct (fst r) as [recs|x] eqn:Er; [|vm_compute in Er; discriminate Er].
  exists recs.
  assert (E : r = (Ok recs, snd r)) by (rewrite <- Er; destruct r; reflexivity).
  split; [exact E|].
  split; [vm_compute in Er; injection Er as <-; reflexivity|].
  exact (records_follow_the_links B [job_101; search] [] [] recs (snd r) E).
Defined.

Lemma file_is_written_once_and_not_empty_witness :
  let t := snd (run (main Fixture2.site "user" "secret" search 2 "job_offers.csv") []) in
  let rows := match List.find is_to_csv t with
              | Some (Ev_to_csv _ rows _) => rows
              | _ => []
              end in
  In (Ev_to_csv "job_offers.csv" rows (Ok tt)) t /\
  length rows = 3%nat /\
  rows <> [].
Proof.
  intros t rows.
  assert (Hin : In (Ev_to_csv "job_offers.csv" rows (Ok tt)) t)
    by (vm_compute; repeat (first [left; reflexivity | right])).
  split; [exact Hin|]. split; [reflexivity|].
  exact (proj2 (proj2 (file_is_written_once_and_not_empty Fixture2.site "user" "secret"
                         search 2 "job_offers.csv" []) _ _ _ Hin)).
Defined.

Lemma failed_login_stops_the_run_witness :
  let B := Fixture.blank in
  let t1 := snd (run (login B "user" "secret") []) in
  run (login B "user" "secret") [] = (Raise TimeoutException, t1) /\
  exists rq,
    run (main B "user" "secret" search 13 "job_offers.csv") []
    = (match rq with Ok _ => Raise TimeoutException | Raise y => Raise y end,
       t1 ++ [Ev_quit rq]).
Proof.
  intros B t1.
  assert (E : run (login B "user" "secret") [] = (Raise TimeoutException, t1))
    by (vm_compute; reflexivity).
  split; [exact E|].
  exact (failed_login_stops_the_run B "user" "secret" search 13 "job_offers.csv" []
           TimeoutException t1 E).
Defined.

Lemma login_needs_only_the_form_witness :
  exists t,
    run (login Fixture.two_pages "user" "secret") [] = (Ok tt, t) /\
    List.filter is_send_keys t
    = [Ev_send_keys 5%nat (Text "user") (Ok tt); Ev_send_keys 6%nat (Text "secret") (Ok tt)].
Proof.
  apply (login_needs_only_the_form Fixture.two_pages "user" "secret" [] 5%nat 6%nat).
  - intros h. reflexivity.
  - intros h. reflexivity.
  - intros h. reflexivity.
  - intros h e k. reflexivity.
Defined.

Lemma login_types_nothing_without_the_form_witness :
  exists t,
    run (login Fixture.blank "user" "secret") [] = (Raise TimeoutException, t) /\
    count is_send_keys t = 0%nat.
Proof.
  apply (login_types_nothing_without_the_form Fixture.blank "user" "secret" []
           TimeoutException).
  - intros h. reflexivity.
  - intros h. reflexivity.
Defined.

Lemma search_url_determines_the_search_witness :
  Url.build_search_url "data analyst" "Lagos" None
  = Url.build_search_url "data analyst" "Lagos" (Some "").
Proof.
  apply (proj2 (search_url_determines_the_search
                  "data analyst" "Lagos" None "data analyst" "Lagos" (Some ""))).
  repeat split.
Defined.
